(** * Govee sunset lights: the automation worker, embedded and verified

    The worker (the Cloudflare-style module exporting [scheduled] and [fetch])
    switches every Govee light off at a fixed UTC hour, switches them on around
    the computed sunset, and reports the decoded state of every device.

    The embedding follows the source function by function:
    - JavaScript values that travel in the vendor payloads are [jsval];
    - asynchronous code is a state-and-exception monad [Async] over a
      [machine] holding the logical clock, the outbound requests with the
      instant each was issued, and the console;
    - the vendor cloud and the solar service are a [World] of replies, each
      with a latency and either a parsed body or a rejection. *)

From Stdlib Require Import ZArith QArith Floats Uint63 String List Permutation
  Bool Lia.
Import ListNotations.

Open Scope string_scope.
Open Scope Z_scope.

(** ** JavaScript values carried by the payloads *)

(** The primitives a JSON payload can put in a capability's [state.value];
    [VUndefined] is what reading a missing property gives.  Numbers are the
    integer-valued ones (the vendor reports 0/1, percentages and packed
    colours). *)
Inductive jsval : Type :=
| VUndefined
| VNull
| VBool (b : bool)
| VNum (n : Z)
| VStr (s : string).

(** ToBoolean. *)
Definition truthy (v : jsval) : bool :=
  match v with
  | VUndefined | VNull => false
  | VBool b => b
  | VNum n => negb (n =? 0)
  | VStr s => negb (s =? "")%string
  end.

(** [a === b]. *)
Definition strictEq (a b : jsval) : bool :=
  match a, b with
  | VUndefined, VUndefined => true
  | VNull, VNull => true
  | VBool x, VBool y => Bool.eqb x y
  | VNum x, VNum y => x =? y
  | VStr x, VStr y => (x =? y)%string
  | _, _ => false
  end.

(** [v === null || v === undefined]. *)
Definition nullish (v : jsval) : bool :=
  match v with
  | VUndefined | VNull => true
  | _ => false
  end.

(** [a ?? b] and [a || b] with a default on the right. *)
Definition coalesce (a b : jsval) : jsval := if nullish a then b else a.
Definition orElse (a b : jsval) : jsval := if truthy a then a else b.

(** Reduction of an integer to the signed 32-bit range, as ToInt32 does. *)
Definition wrap32 (n : Z) : Z :=
  let m := n mod 2 ^ 32 in
  if m >=? 2 ^ 31 then m - 2 ^ 32 else m.

(** ** Records of the vendor payloads *)

(** One entry of the directory listing. *)
Record Device : Type := mkDevice {
  device : string;
  sku : string;
  deviceName : string
}.

(** The [state] object of a capability. *)
Record CapState : Type := mkCapState { value : jsval }.

(** One capability payload; a missing [type] or [instance] reads as
    [VUndefined], and [state] is [None] when the payload has no state object. *)
Record Capability : Type := mkCapability {
  type : jsval;
  instance : jsval;
  state : option CapState
}.

(** Body of the directory listing: [data] is [None] when the property is
    missing or falsy, which is all that [devicesData.data || []] observes. *)
Record DevicesData : Type := mkDevicesData { data : option (list Device) }.

(** Body of a state query: [payload] and [payload.capabilities] may be
    missing. *)
Record StatePayload : Type := mkStatePayload {
  capabilities : option (list Capability)
}.
Record StateData : Type := mkStateData { payload : option StatePayload }.

(** Body of the solar query.  [results] is [None] when the property is
    missing; inside, [sunset] is the instant (milliseconds since the epoch)
    that [new Date(results.sunset)] denotes, or [None] for an invalid date. *)
Record SunsetResults : Type := mkSunsetResults { sunset : option Z }.
Record SunsetData : Type := mkSunsetData {
  status : jsval;
  results : option SunsetResults
}.

(** ** Decoded status *)

Record Rgb : Type := mkRgb { r : Z; g : Z; b : Z }.

(** One entry of the status report: either the decoded fields or the error
    of the device whose query failed. *)
Inductive StatusEntry : Type :=
| Decoded (name sku : string) (power : string) (brightness : jsval)
          (color : option Rgb) (scene : jsval)
| Errored (name sku : string) (error : string).

(** What [getDeviceStatus] hands back: the device list or one top-level
    error, each with the instant of the report. *)
Inductive StatusReport : Type :=
| Report (devices : list StatusEntry) (timestamp : Z)
| ReportError (error : string) (timestamp : Z).

(** What [checkSunsetAndTurnOn] hands back. *)
Inductive SunsetResult : Type :=
| SunsetFailed (error : string)
| SunsetTriggered (sunset : Z) (diff : Q)
| SunsetNotYet (sunset : Z) (diff : Q) (denverDate : Z) (message : string).

(** The [triggered] property of a result, absent on the error object. *)
Definition triggered (res : SunsetResult) : option bool :=
  match res with
  | SunsetFailed _ => None
  | SunsetTriggered _ _ => Some true
  | SunsetNotYet _ _ _ _ => Some false
  end.

(** The [error] property of a result. *)
Definition errorOf (res : SunsetResult) : option string :=
  match res with
  | SunsetFailed e => Some e
  | _ => None
  end.

(** ** The machine and the outside world *)

Definition DENVER_LAT : Q := 397392 # 10000.
Definition DENVER_LNG : Q := (-1049903) # 10000.

(** The outbound requests.  The solar query carries the coordinates and the
    calendar day (days since the epoch, the day the ISO date string names);
    the vendor requests carry the API key header and, for a control request,
    the capability that is set.  The [requestId] correlation string is left
    out. *)
Inductive Request : Type :=
| SunriseSunset (lat lng : Q) (date : Z)
| UserDevices (key : string)
| DeviceState (key sku device : string)
| DeviceControl (key sku device : string) (capType capInstance : string)
                (value : Z).

(** The lines written to the console. *)
Inductive LogLine : Type :=
| LogLightsOff
| LogSunsetFetchFailed
| LogSunsetDiff (date sunset now : Z) (diff : Q)
| LogLightsOnAtSunset
| LogFound (n : nat)
| LogSwitched (turnOn : bool) (name : string)
| LogControlFailed (name : string) (err : string).

(** [clock] is the current instant in milliseconds since the epoch; it only
    advances while the code awaits a reply.  [wire] lists the requests in
    program order, each with the instant it was issued. *)
Record machine : Type := mkMachine {
  clock : Z;
  wire : list (Z * Request);
  console : list LogLine
}.

(** How an awaited computation settles. *)
Inductive Completion (A : Type) : Type :=
| Returns (a : A)
| Throws (message : string).
Arguments Returns {A} a.
Arguments Throws {A} message.

(** A reply takes [latency] milliseconds and then either delivers the parsed
    body or rejects (network failure, or a body that is not JSON). *)
Record Reply (A : Type) : Type := mkReply {
  latency : N;
  body : Completion A
}.
Arguments mkReply {A} latency body.
Arguments latency {A} _.
Arguments body {A} _.

Record World : Type := mkWorld {
  sunriseSunset : Z -> Reply SunsetData;
  userDevices : Reply DevicesData;
  deviceState : Device -> Reply StateData;
  deviceControl : Device -> Z -> Reply unit
}.

Record Env : Type := mkEnv { GOVEE_API_KEY : string }.

(** ** Asynchronous computations *)

Definition Async (A : Type) : Type := machine -> Completion A * machine.

Definition ret {A} (a : A) : Async A := fun m => (Returns a, m).

Definition throw {A} (e : string) : Async A := fun m => (Throws e, m).

Definition bind {A B} (c : Async A) (k : A -> Async B) : Async B :=
  fun m =>
    match c m with
    | (Returns a, m') => k a m'
    | (Throws e, m') => (Throws e, m')
    end.

(** [try { c } catch (err) { h err.message }]. *)
Definition tryCatch {A} (c : Async A) (h : string -> Async A) : Async A :=
  fun m =>
    match c m with
    | (Returns a, m') => (Returns a, m')
    | (Throws e, m') => h e m'
    end.

Declare Scope async_scope.
Delimit Scope async_scope with async.
Notation "x <- c ;; k" := (bind c (fun x => k))
  (at level 61, c at next level, right associativity) : async_scope.
Notation "c ;;; k" := (bind c (fun _ => k))
  (at level 61, right associativity) : async_scope.
Open Scope async_scope.

(** [new Date().getTime()], [Date.now()]. *)
Definition now : Async Z := fun m => (Returns (clock m), m).

Definition log (l : LogLine) : Async unit :=
  fun m => (Returns tt, mkMachine (clock m) (wire m) (console m ++ [l])).

(** [await fetch(...)], together with [await res.json()] where the source
    reads the body: the request goes on the wire at the current instant and
    the caller resumes when the reply has arrived. *)
Definition http {A} (req : Request) (rep : Reply A) : Async A :=
  fun m =>
    (body rep,
     mkMachine (clock m + Z.of_N (latency rep))
               (wire m ++ [(clock m, req)])
               (console m)).

(** [for (const x of xs) { await body x }]: strictly one after another. *)
Fixpoint forOf {A} (xs : list A) (body : A -> Async unit) : Async unit :=
  match xs with
  | [] => ret tt
  | x :: rest => body x ;;; forOf rest body
  end.

(** *** [Promise.all(xs.map(async ...))]

    Every callback starts at the instant of the call and runs on its own;
    [Promise.all] fulfils when the last one has, with the values in order, and
    rejects as soon as one rejects. *)
Definition spawn {A} (t : Z) (c : Async A) : Completion A * machine :=
  c (mkMachine t [] []).

Fixpoint fulfilled {A} (runs : list (Completion A * machine))
  : option (list A) :=
  match runs with
  | [] => Some []
  | (Returns a, _) :: rest => option_map (cons a) (fulfilled rest)
  | (Throws _, _) :: _ => None
  end.

Fixpoint earliestRejection {A} (runs : list (Completion A * machine))
  : option (Z * string) :=
  match runs with
  | [] => None
  | (Returns _, _) :: rest => earliestRejection rest
  | (Throws e, mi) :: rest =>
      match earliestRejection rest with
      | Some (t, e') => if t <? clock mi then Some (t, e') else Some (clock mi, e)
      | None => Some (clock mi, e)
      end
  end.

Definition lastSettled {A} (t : Z) (runs : list (Completion A * machine)) : Z :=
  fold_right (fun run acc => Z.max (clock (snd run)) acc) t runs.

Definition Promise_all {A} (cs : list (Async A)) : Async (list A) :=
  fun m =>
    let runs := map (spawn (clock m)) cs in
    let after t :=
      mkMachine t
        (wire m ++ concat (map (fun run => wire (snd run)) runs))
        (console m ++ concat (map (fun run => console (snd run)) runs)) in
    match fulfilled runs, earliestRejection runs with
    | Some values, _ => (Returns values, after (lastSettled (clock m) runs))
    | None, Some (t, e) => (Throws e, after t)
    | None, None => (Throws "", after (clock m)) (* never: some run threw *)
    end.

(** ** The worker *)

Definition GOVEE_ON_OFF : string := "devices.capabilities.on_off".
Definition GOVEE_RANGE : string := "devices.capabilities.range".

(** A per-device outcome as the specification of the fan-out words it. *)
Inductive Outcome : Type :=
| Succeeded (name : string)
| Failed (name : string).

(** [devicesData.data || []]: the roster, what the specification calls
    listDevices. *)
Definition rosterOf (devicesData : DevicesData) : list Device :=
  match data devicesData with
  | Some devices => devices
  | None => []
  end.

(** The request body of one power-switch control call. *)
Definition controlRequest (env : Env) (d : Device) (turnOn : bool) : Request :=
  DeviceControl (GOVEE_API_KEY env) (sku d) (device d)
                GOVEE_ON_OFF "powerSwitch" (if turnOn then 1 else 0).

(** [controlAllLights(env, turnOn)], the fan-out the specification calls
    applyToAll.  The function has no [return]: its promise fulfils with
    [undefined], rendered [None]. *)
Definition controlAllLights (w : World) (env : Env) (turnOn : bool)
  : Async (option (list Outcome)) :=
  devicesData <- http (UserDevices (GOVEE_API_KEY env)) (userDevices w) ;;
  let devices := rosterOf devicesData in
  log (LogFound (length devices)) ;;;
  forOf devices (fun d =>
    tryCatch
      (http (controlRequest env d turnOn)
            (deviceControl w d (if turnOn then 1 else 0)) ;;;
       log (LogSwitched turnOn (deviceName d)))
      (fun err => log (LogControlFailed (deviceName d) err))) ;;;
  ret None.

(** [getDenverDate()]: the calendar day of the instant shifted by the fixed
    UTC-7 offset. *)
Definition getDenverDate : Async Z :=
  t <- now ;;
  let denverOffset := -7 * 60 in
  let denverTime := t + denverOffset * 60 * 1000 in
  ret (denverTime / 86400000).

(** [(now - sunsetTime) / 1000 / 60], as an exact quotient.  The difference
    is a whole number of milliseconds; [diffMinutesFloat] below is the same
    expression in binary64, and the two agree on the window test. *)
Definition diffMinutesOf (t sunsetTime : Z) : Q :=
  (inject_Z (t - sunsetTime) / 1000 / 60)%Q.

(** [diffMinutes >= -5 && diffMinutes <= 20]. *)
Definition withinWindow (diffMinutes : Q) : bool :=
  Qle_bool (-5) diffMinutes && Qle_bool diffMinutes 20.

(** The same two expressions as JavaScript evaluates them, in binary64: a
    difference of two instants is an integer that a double holds exactly. *)
Definition floatOfZ (z : Z) : float :=
  if z <? 0 then PrimFloat.opp (PrimFloat.of_uint63 (Uint63.of_Z (- z)))
  else PrimFloat.of_uint63 (Uint63.of_Z z).

Definition minutesFloat (ms : Z) : float := (floatOfZ ms / 1000 / 60)%float.

Definition diffMinutesFloat (t sunsetTime : Z) : float :=
  minutesFloat (t - sunsetTime).

Definition withinWindowFloat (diffMinutes : float) : bool :=
  PrimFloat.leb (-5)%float diffMinutes && PrimFloat.leb diffMinutes 20%float.

(** Whether the binary64 test and the exact test give the same verdict for a
    difference of [ms] milliseconds, and for all the [2 ^ k] differences from
    [lo] on. *)
Definition sameVerdict (ms : Z) : bool :=
  Bool.eqb (withinWindowFloat (minutesFloat ms))
           ((-300000 <=? ms) && (ms <=? 1200000)).

Fixpoint sameVerdictFrom (k : nat) (lo : Z) : bool :=
  match k with
  | O => sameVerdict lo
  | S k' => sameVerdictFrom k' lo && sameVerdictFrom k' (lo + 2 ^ Z.of_nat k')
  end.

(** [new Date(sunsetData.results.sunset)] followed by its [toISOString()]:
    reading [sunset] of a missing [results] throws, and so does formatting an
    invalid date. *)
Definition sunsetInstant (sunsetData : SunsetData) : Async Z :=
  match results sunsetData with
  | None => throw "Cannot read properties of undefined (reading 'sunset')"
  | Some res =>
      match sunset res with
      | None => throw "Invalid time value"
      | Some s => ret s
      end
  end.

(** [checkSunsetAndTurnOn(env)], the sunset evaluator. *)
Definition checkSunsetAndTurnOn (w : World) (env : Env) : Async SunsetResult :=
  today <- getDenverDate ;;
  sunsetData <- http (SunriseSunset DENVER_LAT DENVER_LNG today)
                     (sunriseSunset w today) ;;
  if negb (strictEq (status sunsetData) (VStr "OK")) then
    log LogSunsetFetchFailed ;;;
    ret (SunsetFailed "Failed to fetch sunset")
  else
    sunsetTime <- sunsetInstant sunsetData ;;
    t <- now ;;
    let diffMinutes := diffMinutesOf t sunsetTime in
    log (LogSunsetDiff today sunsetTime t diffMinutes) ;;;
    if withinWindow diffMinutes then
      controlAllLights w env true ;;;
      log LogLightsOnAtSunset ;;;
      ret (SunsetTriggered sunsetTime diffMinutes)
    else
      ret (SunsetNotYet sunsetTime diffMinutes today "Not sunset time yet").

(** [new Date().getUTCHours()]. *)
Definition getUTCHours : Async Z :=
  t <- now ;;
  ret ((t / 3600000) mod 24).

(** [scheduled(event, env, ctx)]: the recurring tick. *)
Definition scheduled (w : World) (env : Env) : Async unit :=
  hour <- getUTCHours ;;
  if hour =? 8 then
    controlAllLights w env false ;;;
    log LogLightsOff
  else if (hour >=? 22) || (hour <=? 2) then
    checkSunsetAndTurnOn w env ;;;
    ret tt
  else
    ret tt.

(** *** The status report *)

(** [c?.state?.value] for the result [c] of a [find]. *)
Definition stateValue (c : option Capability) : jsval :=
  match c with
  | Some cap =>
      match state cap with
      | Some s => value s
      | None => VUndefined
      end
  | None => VUndefined
  end.

(** [stateData.payload?.capabilities || []]. *)
Definition capabilitiesOf (stateData : StateData) : list Capability :=
  match payload stateData with
  | Some p =>
      match capabilities p with
      | Some caps => caps
      | None => []
      end
  | None => []
  end.

Definition isPower (c : Capability) : bool :=
  strictEq (type c) (VStr GOVEE_ON_OFF).
Definition isBrightness (c : Capability) : bool :=
  strictEq (type c) (VStr GOVEE_RANGE)
  && strictEq (instance c) (VStr "brightness").
Definition isColor (c : Capability) : bool :=
  strictEq (instance c) (VStr "colorRgb").
Definition isScene (c : Capability) : bool :=
  strictEq (instance c) (VStr "lightScene").

(** ** The proxy server of the control panel

    The device route of the Express server that stands between the control
    panel and the vendor cloud, modelled by explicit state passing: the
    scenes collected so far, the vendor requests sent and the lines written
    to the error console.  The API key is the constant of the module, taken
    here as an argument. *)
Module Proxy.

(** The opaque value of a scene option. *)
Inductive SceneValue : Type :=
| SceneParams (paramId id : Z)
| SceneOther (v : jsval).

(** One entry of [parameters.options] of the scene capability. *)
Record SceneOption : Type := mkSceneOption {
  name : string;
  value : SceneValue
}.

(** [options] is [None] when the property is missing. *)
Record SceneParameters : Type := mkSceneParameters {
  options : option (list SceneOption)
}.

(** A capability of the scene listing; [parameters] is [None] when the
    property is missing. *)
Record SceneCapability : Type := mkSceneCapability {
  instance : jsval;
  parameters : option SceneParameters
}.

Record ScenesPayload : Type := mkScenesPayload {
  capabilities : option (list SceneCapability)
}.
Record ScenesData : Type := mkScenesData { payload : option ScenesPayload }.

(** The vendor requests of the device route. *)
Inductive Request : Type :=
| ListDevices (key : string)
| ListScenes (key : string) (requestId sku device : string).

(** The lines of [console.error]. *)
Inductive ErrorLine : Type :=
| FailedScenes (deviceName message : string)
| FailedDevices (message : string).

(** The replies of the vendor cloud: the parsed body, or the rejection of
    the awaited [fetch] or [json]. *)
Record Cloud : Type := mkCloud {
  userDevices : Completion DevicesData;
  deviceScenes : Device -> Completion ScenesData
}.

(** The own properties of the [scenes] object, which are what [res.json]
    serialises, as a lookup by device identifier; the requests sent and the
    error lines so far. *)
Record Served : Type := mkServed {
  scenes : string -> option (list SceneOption);
  sent : list Request;
  logged : list ErrorLine
}.

(** [scenes[key] = v] on an object literal: the key [__proto__] reaches the
    setter of the prototype and creates no property. *)
Definition assign (table : string -> option (list SceneOption))
           (key : string) (v : option (list SceneOption))
  : string -> option (list SceneOption) :=
  fun k =>
    if (key =? "__proto__")%string then table k
    else if (k =? key)%string then v else table k.

(** [scenesData.payload?.capabilities?.find(c => c.instance === 'lightScene')]. *)
Definition lightScenesOf (scenesData : ScenesData) : option SceneCapability :=
  match payload scenesData with
  | Some p =>
      match capabilities p with
      | Some caps =>
          find (fun c => strictEq (instance c) (VStr "lightScene")) caps
      | None => None
      end
  | None => None
  end.

Definition scenesRequest (key : string) (d : Device) : Request :=
  ListScenes key ("scenes-" ++ device d) (sku d) (device d).

(** One turn of the loop over the devices: the request, then the
    assignment of the options, or the error line of the [catch]. *)
Definition scenesStep (cloud : Cloud) (key : string) (st : Served) (d : Device)
  : Served :=
  let requested := (sent st ++ [scenesRequest key d])%list in
  match deviceScenes cloud d with
  | Throws message =>
      mkServed (scenes st) requested
               (logged st ++ [FailedScenes (deviceName d) message])
  | Returns scenesData =>
      match lightScenesOf scenesData with
      | Some lightScenes =>
          match parameters lightScenes with
          | Some p =>
              mkServed (assign (scenes st) (device d) (options p)) requested
                       (logged st)
          | None =>
              mkServed (scenes st) requested
                (logged st ++
                 [FailedScenes (deviceName d)
                    "Cannot read properties of undefined (reading 'options')"])
          end
      | None => mkServed (scenes st) requested (logged st)
      end
  end.

(** What a route answers. *)
Inductive Answer : Type :=
| DevicesJson (devices : list Device)
              (scenes : string -> option (list SceneOption))
| Status500 (error : string).

(** [app.get('/api/devices', ...)]. *)
Definition apiDevices (cloud : Cloud) (key : string) : Answer * Served :=
  let requested := [ListDevices key] in
  match userDevices cloud with
  | Throws message =>
      (Status500 message,
       mkServed (fun _ => None) requested [FailedDevices message])
  | Returns devicesData =>
      let devices := rosterOf devicesData in
      let st := fold_left (scenesStep cloud key) devices
                          (mkServed (fun _ => None) requested []) in
      (DevicesJson devices (scenes st), st)
  end.

(** What the loop assigns for a device: [Some v] when [scenes[d.device] = v]
    is executed, [None] when it is not. *)
Definition offered (cloud : Cloud) (d : Device)
  : option (option (list SceneOption)) :=
  match deviceScenes cloud d with
  | Throws _ => None
  | Returns scenesData =>
      match lightScenesOf scenesData with
      | Some lightScenes =>
          match parameters lightScenes with
          | Some p => Some (options p)
          | None => None
          end
      | None => None
      end
  end.

(** The error line of a device, if its turn of the loop ends in the
    [catch]. *)
Definition complaint (cloud : Cloud) (d : Device) : list ErrorLine :=
  match deviceScenes cloud d with
  | Throws message => [FailedScenes (deviceName d) message]
  | Returns scenesData =>
      match lightScenesOf scenesData with
      | Some lightScenes =>
          match parameters lightScenes with
          | Some _ => []
          | None =>
              [FailedScenes (deviceName d)
                 "Cannot read properties of undefined (reading 'options')"]
          end
      | None => []
      end
  end.

End Proxy.

(** ** The scene buttons of the control panel

    The grouping of scenes the panel renders as buttons, and the lookup a
    button makes for each of its devices.  The panel holds the roster and
    the [scenes] object it got from the proxy; [scenes[d.device]] is a list of
    scene options or undefined. *)
Module Panel.

(** A button: the scene and the devices it is sent to. *)
Record SceneGroup : Type := mkSceneGroup {
  name : string;
  devices : list Device
}.

(** [x || []]. *)
Definition orEmpty {A} (x : option (list A)) : list A :=
  match x with
  | Some l => l
  | None => []
  end.

(** [name.toLowerCase()], on the letters A to Z.  The characters outside
    ASCII are left as they are: their lower-case forms contain none of the
    letters the categories are recognised by in a place where it could
    complete one of the four words. *)
Definition lowerChar (c : Ascii.ascii) : Ascii.ascii :=
  let n := Ascii.nat_of_ascii c in
  if (65 <=? n)%nat && (n <=? 90)%nat then Ascii.ascii_of_nat (n + 32) else c.

Fixpoint toLowerCase (s : string) : string :=
  match s with
  | EmptyString => EmptyString
  | String c rest => String (lowerChar c) (toLowerCase rest)
  end.

(** [s.includes(needle)]. *)
Fixpoint includes (s needle : string) : bool :=
  String.prefix needle s
  || match s with
     | EmptyString => false
     | String _ rest => includes rest needle
     end.

(** [getDeviceCategory(name)]. *)
Definition getDeviceCategory (deviceName : string) : string :=
  let lower := toLowerCase deviceName in
  if includes lower "table" then "TABLE LAMP"
  else if includes lower "uplighter" || includes lower "projector"
       then "CEILING PROJECTOR"
  else if includes lower "floor" then "FLOOR LAMPS"
  else "OTHER".

(** A [Set] of strings, its elements in insertion order. *)
Definition setHas (s : list string) (x : string) : bool :=
  existsb (String.eqb x) s.
Definition setAdd (s : list string) (x : string) : list string :=
  if setHas s x then s else (s ++ [x])%list.
Definition newSet (l : list string) : list string := fold_left setAdd l [].

(** The state of the first loop: [deviceSceneSets] by device identifier and
    [allSceneNames]. *)
Record Gathered : Type := mkGathered {
  deviceSceneSets : string -> option (list string);
  allSceneNames : list string
}.

Definition gather (scenes : string -> option (list Proxy.SceneOption))
           (st : Gathered) (d : Device) : Gathered :=
  let deviceSceneNames :=
    newSet (map Proxy.name (orEmpty (scenes (device d)))) in
  mkGathered
    (fun k => if (k =? device d)%string then Some deviceSceneNames
              else deviceSceneSets st k)
    (fold_left setAdd deviceSceneNames (allSceneNames st)).

(** [deviceSceneSets[d.device]?.has(sceneName)], as a condition. *)
Definition has (sets : string -> option (list string)) (d : Device)
           (sceneName : string) : bool :=
  match sets (device d) with
  | Some s => setHas s sceneName
  | None => false
  end.

(** The state of the second loop: [commonScenes], and the object
    [deviceSpecificScenes] as its keys in insertion order and the lookup of
    a key. *)
Record Grouped : Type := mkGrouped {
  commonScenes : list SceneGroup;
  categories : list string;
  deviceSpecificScenes : string -> option (list SceneGroup)
}.

Definition setKey (table : string -> option (list SceneGroup)) (key : string)
           (l : list SceneGroup) : string -> option (list SceneGroup) :=
  fun k => if (k =? key)%string then Some l else table k.

(** One turn of the inner loop, over the devices that have the scene. *)
Definition place (sceneName : string) (devicesWithScene : list Device)
           (st : Grouped) (d : Device) : Grouped :=
  let key := getDeviceCategory (deviceName d) in
  let keys := match deviceSpecificScenes st key with
              | Some _ => categories st
              | None => (categories st ++ [key])%list
              end in
  let listed := orEmpty (deviceSpecificScenes st key) in
  if existsb (fun s => (name s =? sceneName)%string) listed then
    mkGrouped (commonScenes st) keys
              (setKey (deviceSpecificScenes st) key listed)
  else
    mkGrouped (commonScenes st) keys
      (setKey (deviceSpecificScenes st) key
         (listed ++
          [mkSceneGroup sceneName
             (filter (fun dev =>
                        (getDeviceCategory (deviceName dev) =? key)%string)
                     devicesWithScene)])%list).

(** One turn of the loop over [allSceneNames]. *)
Definition classify (roster : list Device) (sets : string -> option (list string))
           (st : Grouped) (sceneName : string) : Grouped :=
  let devicesWithScene := filter (fun d => has sets d sceneName) roster in
  if (length devicesWithScene =? length roster)%nat then
    mkGrouped (commonScenes st ++ [mkSceneGroup sceneName roster])%list
              (categories st) (deviceSpecificScenes st)
  else
    fold_left (place sceneName devicesWithScene) devicesWithScene st.

(** [array.sort((a, b) => a.name.localeCompare(b.name))], a stable sort;
    [localeCompare] is the collation of the host, taken as an argument. *)
Fixpoint insertByName (localeCompare : string -> string -> Z)
         (x : SceneGroup) (l : list SceneGroup) : list SceneGroup :=
  match l with
  | [] => [x]
  | y :: rest =>
      if localeCompare (name x) (name y) <? 0 then x :: y :: rest
      else y :: insertByName localeCompare x rest
  end.

Definition sortByName (localeCompare : string -> string -> Z)
           (l : list SceneGroup) : list SceneGroup :=
  fold_left (fun sorted x => insertByName localeCompare x sorted) l [].

(** [groupScenesByDevice()], of the roster and the scenes the panel holds. *)
Definition groupScenesByDevice (localeCompare : string -> string -> Z)
           (roster : list Device)
           (scenes : string -> option (list Proxy.SceneOption)) : Grouped :=
  let gathered := fold_left (gather scenes) roster
                            (mkGathered (fun _ => None) []) in
  let grouped := fold_left (classify roster (deviceSceneSets gathered))
                           (allSceneNames gathered)
                           (mkGrouped [] [] (fun _ => None)) in
  mkGrouped (sortByName localeCompare (commonScenes grouped))
            (categories grouped) (deviceSpecificScenes grouped).

(** The lookup of [setSceneForDevices] for one device,
    [(scenes[d.device] || []).find(s => s.name === name)]. *)
Definition sceneFor (scenes : string -> option (list Proxy.SceneOption))
           (d : Device) (sceneName : string) : option Proxy.SceneOption :=
  find (fun s => (Proxy.name s =? sceneName)%string)
       (orEmpty (scenes (device d))).

(** Whether the device lists a scene of that name. *)
Definition offers (scenes : string -> option (list Proxy.SceneOption))
           (d : Device) (sceneName : string) : bool :=
  existsb (String.eqb sceneName) (map Proxy.name (orEmpty (scenes (device d)))).

End Panel.

Section Worker.

(** ToInt32 of a string goes through the language's string-to-number
    conversion, which is no part of this repository: [StringToNumber s] is the
    integer that conversion yields before the reduction to 32 bits. *)
Variable StringToNumber : string -> Z.

Definition ToInt32 (v : jsval) : Z :=
  match v with
  | VUndefined => 0
  | VNull => 0
  | VBool flag => if flag then 1 else 0
  | VNum n => wrap32 n
  | VStr s => wrap32 (StringToNumber s)
  end.

(** The conversion of the packed colour: [rgb] stays [null] when the value
    is [null] or [undefined]. *)
Definition decodeColor (colorInt : jsval) : option Rgb :=
  if negb (strictEq colorInt VNull) && negb (strictEq colorInt VUndefined) then
    Some (mkRgb (Z.land (Z.shiftr (ToInt32 colorInt) 16) 255)
                (Z.land (Z.shiftr (ToInt32 colorInt) 8) 255)
                (Z.land (ToInt32 colorInt) 255))
  else None.

(** The decoding of one device's capabilities into its entry, the body of
    the callback of [getDeviceStatus] from the four [find]s on; the
    specification calls it decode. *)
Definition decodeStatus (d : Device) (caps : list Capability) : StatusEntry :=
  let powerState := find isPower caps in
  let brightnessState := find isBrightness caps in
  let colorState := find isColor caps in
  let sceneState := find isScene caps in
  let colorInt := stateValue colorState in
  let rgb := decodeColor colorInt in
  Decoded (deviceName d) (sku d)
          (if strictEq (stateValue powerState) (VNum 1) then "ON" else "OFF")
          (coalesce (stateValue brightnessState) VNull)
          rgb
          (orElse (stateValue sceneState) VNull).

(** The callback mapped over the roster. *)
Definition statusOf (w : World) (env : Env) (d : Device) : Async StatusEntry :=
  tryCatch
    (stateData <- http (DeviceState (GOVEE_API_KEY env) (sku d) (device d))
                       (deviceState w d) ;;
     let caps := capabilitiesOf stateData in
     ret (decodeStatus d caps))
    (fun err => ret (Errored (deviceName d) (sku d) err)).

(** [getDeviceStatus(env)], the status aggregator. *)
Definition getDeviceStatus (w : World) (env : Env) : Async StatusReport :=
  tryCatch
    (devicesData <- http (UserDevices (GOVEE_API_KEY env)) (userDevices w) ;;
     let devices := rosterOf devicesData in
     statuses <- Promise_all (map (statusOf w env) devices) ;;
     t <- now ;;
     ret (Report statuses t))
    (fun err => t <- now ;; ret (ReportError err t)).

(** The body of an HTTP response of the worker. *)
Inductive ResponseBody : Type :=
| Text (s : string)
| SunsetJson (result : SunsetResult)
| StatusJson (result : StatusReport).

(** [fetch(request, env)], on the path of the request URL. *)
Definition fetch (w : World) (env : Env) (pathname : string)
  : Async ResponseBody :=
  if (pathname =? "/on")%string then
    controlAllLights w env true ;;; ret (Text "Lights ON")
  else if (pathname =? "/off")%string then
    controlAllLights w env false ;;; ret (Text "Lights OFF")
  else if (pathname =? "/sunset")%string then
    result <- checkSunsetAndTurnOn w env ;; ret (SunsetJson result)
  else if (pathname =? "/status")%string then
    result <- getDeviceStatus w env ;; ret (StatusJson result)
  else
    ret (Text "Endpoints: /on, /off, /sunset, /status").

(** The packing the specification names for the round trip,
    [r << 16 | g << 8 | b]. *)
Definition packRgb (c : Rgb) : Z :=
  Z.lor (Z.lor (Z.shiftl (r c) 16) (Z.shiftl (g c) 8)) (b c).

(** The packing of the control panel's colour picker,
    [(rgb[0] << 16) + (rgb[1] << 8) + rgb[2]]: each shift yields a signed
    32-bit integer, the sum is a sum of numbers. *)
Definition packColor (c : Rgb) : Z :=
  wrap32 (Z.shiftl (r c) 16) + wrap32 (Z.shiftl (g c) 8) + b c.

(** ** What a run puts on the wire and on the console *)

(** The instants at which a strictly sequential loop issues its requests,
    given the instant of the first and the latency of each reply. *)
Fixpoint sequentialIssues (t : Z) (latencies : list Z) : list Z :=
  match latencies with
  | [] => []
  | l :: rest => t :: sequentialIssues (t + l) rest
  end.

Definition sum (zs : list Z) : Z := fold_right Z.add 0 zs.

Definition controlLatency (w : World) (turnOn : bool) (d : Device) : Z :=
  Z.of_N (latency (deviceControl w d (if turnOn then 1 else 0))).

(** The console line the loop of [controlAllLights] writes for a device. *)
Definition controlLine (w : World) (turnOn : bool) (d : Device) : LogLine :=
  match body (deviceControl w d (if turnOn then 1 else 0)) with
  | Returns _ => LogSwitched turnOn (deviceName d)
  | Throws err => LogControlFailed (deviceName d) err
  end.

Definition stateLatency (w : World) (d : Device) : Z :=
  Z.of_N (latency (deviceState w d)).

Definition stateRequest (env : Env) (d : Device) : Request :=
  DeviceState (GOVEE_API_KEY env) (sku d) (device d).

(** The entry [statusOf] produces for a device, read off the reply. *)
Definition entryOf (w : World) (d : Device) : StatusEntry :=
  match body (deviceState w d) with
  | Returns stateData => decodeStatus d (capabilitiesOf stateData)
  | Throws err => Errored (deviceName d) (sku d) err
  end.

(** The fields of a status entry; an entry of a failed query has none of the
    decoded ones. *)
Definition powerOf (e : StatusEntry) : option string :=
  match e with
  | Decoded _ _ power _ _ _ => Some power
  | Errored _ _ _ => None
  end.

Definition brightnessOf (e : StatusEntry) : jsval :=
  match e with
  | Decoded _ _ _ brightness _ _ => brightness
  | Errored _ _ _ => VUndefined
  end.

Definition colorOf (e : StatusEntry) : option Rgb :=
  match e with
  | Decoded _ _ _ _ color _ => color
  | Errored _ _ _ => None
  end.

Definition sceneOf (e : StatusEntry) : jsval :=
  match e with
  | Decoded _ _ _ _ _ scene => scene
  | Errored _ _ _ => VUndefined
  end.

Definition errorField (e : StatusEntry) : option string :=
  match e with
  | Decoded _ _ _ _ _ _ => None
  | Errored _ _ error => Some error
  end.

(** The instant the last of the concurrently issued state queries is
    answered, [t] when there is none. *)
Definition latestArrival (w : World) (t : Z) (devices : list Device) : Z :=
  fold_right (fun d acc => Z.max (t + stateLatency w d) acc) t devices.

Definition isSolarRequest (req : Request) : bool :=
  match req with
  | SunriseSunset _ _ _ => true
  | _ => false
  end.

Definition isControlRequest (req : Request) : bool :=
  match req with
  | DeviceControl _ _ _ _ _ _ => true
  | _ => false
  end.

(** The requests a run added to the wire, oldest first. *)
Definition issuedSince (m m' : machine) : list (Z * Request) :=
  skipn (length (wire m)) (wire m').

(** The instant the solar reply arrives when the evaluation starts on [m]. *)
Definition denverDay (t : Z) : Z := (t + -7 * 60 * 60 * 1000) / 86400000.
Definition solarArrival (w : World) (m : machine) : Z :=
  clock m + Z.of_N (latency (sunriseSunset w (denverDay (clock m)))).

(** The solar request of an evaluation that starts at instant [t]. *)
Definition solarRequest (t : Z) : Request :=
  SunriseSunset DENVER_LAT DENVER_LNG (denverDay t).

(** The hour of the tick, [getUTCHours] of the instant. *)
Definition hourOf (t : Z) : Z := (t / 3600000) mod 24.

(** The evening hours of the tick, as the specification lists them. *)
Definition eveningHour (hour : Z) : Prop :=
  hour = 22 \/ hour = 23 \/ hour = 0 \/ hour = 1 \/ hour = 2.

(** All per-device requests of a run left at one and the same instant. *)
Definition isPerDevice (req : Request) : bool :=
  match req with
  | DeviceState _ _ _ => true
  | DeviceControl _ _ _ _ _ _ => true
  | _ => false
  end.

Definition inFlightTogether (reqs : list (Z * Request)) : Prop :=
  forall t1 req1 t2 req2,
    In (t1, req1) reqs -> In (t2, req2) reqs ->
    isPerDevice req1 = true -> isPerDevice req2 = true -> t1 = t2.

(** *** Example data *)

Definition porch : Device := mkDevice "AA:01" "H6008" "Porch".
Definition strip : Device := mkDevice "BB:02" "H6159" "Strip".
Definition exampleEnv : Env := mkEnv "key".

Definition stripCapabilities : list Capability :=
  [ mkCapability (VStr GOVEE_ON_OFF) (VStr "powerSwitch")
                 (Some (mkCapState (VNum 1)));
    mkCapability (VStr GOVEE_RANGE) (VStr "brightness")
                 (Some (mkCapState (VNum 80))) ].

(** Sunset at 2024-06-02T02:00:00Z, that is 19:00 on June 1st at UTC-7. *)
Definition exampleSunset : Z := 1717293600000.

(** Two devices; every request to the porch light is rejected after five
    seconds, the strip answers in 100 ms. *)
Definition exampleWorld : World :=
  mkWorld
    (fun _ => mkReply 120 (Returns (mkSunsetData (VStr "OK")
                (Some (mkSunsetResults (Some exampleSunset))))))
    (mkReply 50 (Returns (mkDevicesData (Some [porch; strip]))))
    (fun d => if (device d =? "AA:01")%string
              then mkReply 5000 (Throws "fetch failed")
              else mkReply 100 (Returns (mkStateData
                     (Some (mkStatePayload (Some stripCapabilities))))))
    (fun d _ => if (device d =? "AA:01")%string
                then mkReply 5000 (Throws "fetch failed")
                else mkReply 100 (Returns tt)).

(** The same world with a solar service that reports a failure. *)
Definition cloudyWorld : World :=
  mkWorld
    (fun _ => mkReply 120 (Returns (mkSunsetData (VStr "INVALID_REQUEST") None)))
    (userDevices exampleWorld) (deviceState exampleWorld)
    (deviceControl exampleWorld).

(** The same world with a directory payload that has no [data]. *)
Definition emptyWorld : World :=
  mkWorld (sunriseSunset exampleWorld)
          (mkReply 50 (Returns (mkDevicesData None)))
          (deviceState exampleWorld) (deviceControl exampleWorld).

(** The same world with an unreachable directory. *)
Definition offlineWorld : World :=
  mkWorld (sunriseSunset exampleWorld)
          (mkReply 50 (Throws "fetch failed"))
          (deviceState exampleWorld) (deviceControl exampleWorld).

(** Capabilities whose colour state is null, whose colour is 0 and whose
    scene is 0, and a power switch that reports [true] instead of 1. *)
Definition colorCapability (v : jsval) : Capability :=
  mkCapability (VStr "devices.capabilities.color_setting") (VStr "colorRgb")
               (Some (mkCapState v)).
Definition sceneCapability (v : jsval) : Capability :=
  mkCapability (VStr "devices.capabilities.dynamic_scene") (VStr "lightScene")
               (Some (mkCapState v)).
Definition powerCapability (v : jsval) : Capability :=
  mkCapability (VStr GOVEE_ON_OFF) (VStr "powerSwitch") (Some (mkCapState v)).

(** The conversion used at the examples, none of which coerces a string:
    every string reads as NaN, which ToInt32 takes to 0. *)
Definition notANumber : string -> Z := fun _ => 0.

(** A machine at rest at instant [t]. *)
Definition idle (t : Z) : machine := mkMachine t [] [].

(** An evaluation whose solar reply arrives two minutes before the example
    sunset, at 18:58 of the UTC-7 day, during UTC hour 1. *)
Definition twoMinutesBefore : machine := idle (exampleSunset - 120000 - 120).

(** *** More vocabulary for the runs *)

(** The UTC calendar day of an instant, in days since the epoch. *)
Definition utcDay (t : Z) : Z := t / 86400000.

(** The period of the recurring tick the comment on the window test names
    (the cron runs every 15 minutes), in milliseconds.  The schedule itself
    is no part of the worker: the properties take the period as they find it
    and this one is their example. *)
Definition tickPeriod : Z := 15 * 60 * 1000.

(** The requests of a tick that switches the lights on: the solar query,
    the directory request and one power-on request per device. *)
Definition switchOnRequests (env : Env) (t : Z) (devices : list Device)
  : list Request :=
  solarRequest t
  :: UserDevices (GOVEE_API_KEY env)
  :: map (fun d => controlRequest env d true) devices.

(** The tick that starts on [m] runs the power-on fan-out: its directory
    request leaves when the solar reply arrives, and when the directory
    answers the tick completes with exactly the requests above. *)
Definition switchesOn (w : World) (env : Env) (m : machine) : Prop :=
  In (solarArrival w m, UserDevices (GOVEE_API_KEY env))
     (issuedSince m (snd (scheduled w env m))) /\
  forall devicesData,
    body (userDevices w) = Returns devicesData ->
    fst (scheduled w env m) = Returns tt /\
    map snd (issuedSince m (snd (scheduled w env m)))
    = switchOnRequests env (clock m) (rosterOf devicesData).

(** A run sent something to the vendor cloud: a request that is not the
    solar query. *)
Definition reachedVendor (m m' : machine) : Prop :=
  exists t req, In (t, req) (issuedSince m m') /\ isSolarRequest req = false.

(** *** Vocabulary for the scene buttons *)

Definition categoryOf (d : Device) : string :=
  Panel.getDeviceCategory (deviceName d).

(** The names of the scenes listed for a device identifier. *)
Definition namesAt (scenes : string -> option (list Proxy.SceneOption))
           (k : string) : list string :=
  map Proxy.name (Panel.orEmpty (scenes k)).

(** The devices of the roster that list a scene. *)
Definition withScene (roster : list Device)
           (scenes : string -> option (list Proxy.SceneOption))
           (sceneName : string) : list Device :=
  filter (fun d => Panel.offers scenes d sceneName) roster.

Definition everyDeviceOffers (roster : list Device)
           (scenes : string -> option (list Proxy.SceneOption))
           (sceneName : string) : bool :=
  (length (withScene roster scenes sceneName) =? length roster)%nat.

(** The button of a scene under a category: the devices of the category
    that list the scene. *)
Definition buttonFor (roster : list Device)
           (scenes : string -> option (list Proxy.SceneOption))
           (key sceneName : string) : Panel.SceneGroup :=
  Panel.mkSceneGroup sceneName
    (filter (fun dev => (categoryOf dev =? key)%string)
            (withScene roster scenes sceneName)).

(** What holds of the category buttons while the scenes [names] have been
    classified. *)
Record Sound (roster : list Device)
       (scenes : string -> option (list Proxy.SceneOption))
       (names : list string) (st : Panel.Grouped) : Prop := mkSound {
  sound_button :
    forall key l g,
      Panel.deviceSpecificScenes st key = Some l -> In g l ->
      In (Panel.name g) names /\
      everyDeviceOffers roster scenes (Panel.name g) = false /\
      g = buttonFor roster scenes key (Panel.name g) /\
      exists d, In d (withScene roster scenes (Panel.name g)) /\
                categoryOf d = key;
  sound_once :
    forall key l, Panel.deviceSpecificScenes st key = Some l ->
                  NoDup (map Panel.name l) /\ l <> [];
  sound_keys :
    NoDup (Panel.categories st) /\
    forall key, In key (Panel.categories st)
                <-> Panel.deviceSpecificScenes st key <> None
}.

(** The device [d] has its button for the scene under its category. *)
Definition placed (st : Panel.Grouped) (sceneName : string) (d : Device)
  : Prop :=
  exists l, Panel.deviceSpecificScenes st (categoryOf d) = Some l /\
            In sceneName (map Panel.name l).

Definition Complete (roster : list Device)
           (scenes : string -> option (list Proxy.SceneOption))
           (names : list string) (st : Panel.Grouped) : Prop :=
  forall n, In n names -> everyDeviceOffers roster scenes n = false ->
    forall d, In d (withScene roster scenes n) -> placed st n d.

(** *** More example data *)

(** The example world with an unreachable solar service. *)
Definition sunlessWorld : World :=
  mkWorld (fun _ => mkReply 120 (Throws "fetch failed"))
          (userDevices exampleWorld) (deviceState exampleWorld)
          (deviceControl exampleWorld).

(** Half past eleven in the evening (UTC) of June 1st 2024 and half past one
    in the morning of June 2nd. *)
Definition lateEvening : Z := exampleSunset - 9000000.
Definition afterMidnight : Z := exampleSunset - 1800000.

Definition sceneOptions (names : list string) : list Proxy.SceneOption :=
  map (fun n => Proxy.mkSceneOption n (Proxy.SceneParams 1 2)) names.

Definition lightScenes (names : list string) : Proxy.ScenesData :=
  Proxy.mkScenesData
    (Some (Proxy.mkScenesPayload
       (Some [Proxy.mkSceneCapability (VStr "lightScene")
                (Some (Proxy.mkSceneParameters (Some (sceneOptions names))))]))).

(** A cloud in which the porch light lists two scenes and the scene query of
    the strip is rejected. *)
Definition exampleCloud : Proxy.Cloud :=
  Proxy.mkCloud
    (Returns (mkDevicesData (Some [porch; strip])))
    (fun d => if (device d =? "AA:01")%string
              then Returns (lightScenes ["Sunset"; "Aurora"])
              else Throws "fetch failed").

(** The cloud with an unreachable directory. *)
Definition offlineCloud : Proxy.Cloud :=
  Proxy.mkCloud (Throws "fetch failed") (Proxy.deviceScenes exampleCloud).

(** The scenes the panel holds when the porch light lists Sunset and Aurora
    and the strip lists Sunset. *)
Definition exampleScenes (k : string) : option (list Proxy.SceneOption) :=
  if (k =? "AA:01")%string then Some (sceneOptions ["Sunset"; "Aurora"])
  else if (k =? "BB:02")%string then Some (sceneOptions ["Sunset"])
  else None.

(** A comparison for the examples: the order of the code units. *)
Definition codeUnitCompare (a b : string) : Z :=
  match String.compare a b with
  | Lt => -1
  | Eq => 0
  | Gt => 1
  end.

(** ** Properties *)

Ltac run :=
  unfold bind, tryCatch, ret, throw, log, http, now in *; cbn [fst snd] in *.

Lemma issuedSince_app (m : machine) (t : Z) (new : list (Z * Request))
      (c : list LogLine) :
  issuedSince m (mkMachine t (wire m ++ new) c) = new.
Proof.
  unfold issuedSince; cbn [wire].
  rewrite skipn_app, skipn_all, Nat.sub_diag. reflexivity.
Qed.

Lemma sequentialIssues_length (latencies : list Z) :
  forall t, length (sequentialIssues t latencies) = length latencies.
Proof.
  induction latencies as [|l rest IH]; intros t; cbn; [reflexivity|].
  now rewrite IH.
Qed.

(** The k-th request of a sequential loop leaves when the k replies before
    it have all arrived. *)
Lemma sequentialIssues_nth (latencies : list Z) :
  forall t k, (k < length latencies)%nat ->
    nth k (sequentialIssues t latencies) 0 = t + sum (firstn k latencies).
Proof.
  induction latencies as [|l rest IH]; intros t k Hk; cbn in Hk; [lia|].
  destruct k as [|k]; cbn; [lia|].
  rewrite IH by lia. unfold sum. lia.
Qed.

(** The loop of [controlAllLights]: every device gets its request and its
    console line, whatever the replies are, and the loop never throws. *)
Lemma control_loop (w : World) (env : Env) (turnOn : bool)
      (devices : list Device) :
  forall m,
    forOf devices (fun d =>
      tryCatch
        (http (controlRequest env d turnOn)
              (deviceControl w d (if turnOn then 1 else 0)) ;;;
         log (LogSwitched turnOn (deviceName d)))
        (fun err => log (LogControlFailed (deviceName d) err))) m
    = (Returns tt,
       mkMachine
         (clock m + sum (map (controlLatency w turnOn) devices))
         (wire m ++ combine
                      (sequentialIssues (clock m)
                         (map (controlLatency w turnOn) devices))
                      (map (fun d => controlRequest env d turnOn) devices))
         (console m ++ map (controlLine w turnOn) devices)).
Proof.
  induction devices as [|d rest IH]; intros m.
  - cbn. unfold ret. destruct m; cbn. now rewrite !app_nil_r, Z.add_0_r.
  - cbn [forOf map sequentialIssues combine]. unfold bind at 1.
    unfold tryCatch at 1. unfold bind at 1. unfold http at 1.
    unfold controlLine at 1, controlLatency at 1 3.
    destruct (body (deviceControl w d (if turnOn then 1 else 0))) as [[]|err];
      unfold log at 1; cbn [clock wire console];
      rewrite IH; cbn [clock wire console];
      rewrite <- !app_assoc; cbn [app]; unfold sum; cbn [fold_right];
      now rewrite Z.add_assoc.
Qed.

(** The whole of [controlAllLights] once the directory has answered. *)
Lemma controlAllLights_run (w : World) (env : Env) (turnOn : bool)
      (m : machine) (devicesData : DevicesData) :
  body (userDevices w) = Returns devicesData ->
  let devices := rosterOf devicesData in
  let t1 := clock m + Z.of_N (latency (userDevices w)) in
  controlAllLights w env turnOn m
  = (Returns None,
     mkMachine
       (t1 + sum (map (controlLatency w turnOn) devices))
       (wire m ++ (clock m, UserDevices (GOVEE_API_KEY env))
             :: combine
                  (sequentialIssues t1 (map (controlLatency w turnOn) devices))
                  (map (fun d => controlRequest env d turnOn) devices))
       (console m ++ LogFound (length devices)
                :: map (controlLine w turnOn) devices)).
Proof.
  intros Hdir devices t1. unfold controlAllLights.
  unfold bind at 1. unfold http at 1. rewrite Hdir.
  unfold bind at 1. unfold log at 1. cbn [clock wire console].
  unfold bind at 1. rewrite control_loop. cbn [clock wire console].
  unfold ret. rewrite <- !app_assoc. reflexivity.
Qed.

(** When the directory request itself fails, nothing catches it. *)
Lemma controlAllLights_directory_failure (w : World) (env : Env)
      (turnOn : bool) (m : machine) (err : string) :
  body (userDevices w) = Throws err ->
  controlAllLights w env turnOn m
  = (Throws err,
     mkMachine (clock m + Z.of_N (latency (userDevices w)))
               (wire m ++ [(clock m, UserDevices (GOVEE_API_KEY env))])
               (console m)).
Proof.
  intros Hdir. unfold controlAllLights, bind, http. now rewrite Hdir.
Qed.

(** The callback of the status report never rejects: a failed query becomes
    the device's own error entry. *)
Lemma statusOf_run (w : World) (env : Env) (d : Device) (m : machine) :
  statusOf w env d m
  = (Returns (entryOf w d),
     mkMachine (clock m + stateLatency w d)
               (wire m ++ [(clock m, stateRequest env d)])
               (console m)).
Proof.
  unfold statusOf, entryOf, stateLatency, stateRequest. run.
  destruct (body (deviceState w d)); reflexivity.
Qed.

Lemma statusOf_spawned (w : World) (env : Env) (t : Z) (devices : list Device) :
  map (spawn t) (map (statusOf w env) devices)
  = map (fun d => (Returns (entryOf w d),
                   mkMachine (t + stateLatency w d) [(t, stateRequest env d)] []))
        devices.
Proof.
  rewrite map_map. apply map_ext. intros d. unfold spawn.
  now rewrite statusOf_run.
Qed.

Lemma Promise_all_statusOf (w : World) (env : Env) (devices : list Device)
      (m : machine) :
  Promise_all (map (statusOf w env) devices) m
  = (Returns (map (entryOf w) devices),
     mkMachine (latestArrival w (clock m) devices)
               (wire m ++ map (fun d => (clock m, stateRequest env d)) devices)
               (console m)).
Proof.
  unfold Promise_all. rewrite statusOf_spawned.
  set (t := clock m).
  set (runs := map _ devices).
  assert (Hful : fulfilled runs = Some (map (entryOf w) devices)).
  { subst runs. clear. induction devices as [|d rest IH]; cbn; [reflexivity|].
    now rewrite IH. }
  assert (Hlast : lastSettled t runs = latestArrival w t devices).
  { subst runs. clear. unfold lastSettled, latestArrival.
    induction devices as [|d rest IH]; cbn; [reflexivity|]. now rewrite IH. }
  assert (Hwire : concat (map (fun run => wire (snd run)) runs)
                  = map (fun d => (t, stateRequest env d)) devices).
  { subst runs. clear. induction devices as [|d rest IH]; cbn; [reflexivity|].
    now rewrite IH. }
  assert (Hcons : concat (map (fun run => console (snd run)) runs) = []).
  { subst runs. clear. induction devices as [|d rest IH]; cbn; [reflexivity|].
    exact IH. }
  rewrite Hful, Hlast, Hwire, Hcons, app_nil_r. reflexivity.
Qed.

(** The whole of [getDeviceStatus] once the directory has answered. *)
Lemma getDeviceStatus_run (w : World) (env : Env) (m : machine)
      (devicesData : DevicesData) :
  body (userDevices w) = Returns devicesData ->
  let devices := rosterOf devicesData in
  let t1 := clock m + Z.of_N (latency (userDevices w)) in
  getDeviceStatus w env m
  = (Returns (Report (map (entryOf w) devices) (latestArrival w t1 devices)),
     mkMachine
       (latestArrival w t1 devices)
       (wire m ++ (clock m, UserDevices (GOVEE_API_KEY env))
             :: map (fun d => (t1, stateRequest env d)) devices)
       (console m)).
Proof.
  intros Hdir devices t1. unfold getDeviceStatus.
  unfold tryCatch, bind at 1. unfold http at 1. rewrite Hdir.
  unfold bind at 1. rewrite Promise_all_statusOf. cbn [clock wire console].
  run. rewrite <- app_assoc. reflexivity.
Qed.

(** A failure of the directory request is caught at the top. *)
Lemma getDeviceStatus_directory_failure (w : World) (env : Env) (m : machine)
      (err : string) :
  body (userDevices w) = Throws err ->
  let t1 := clock m + Z.of_N (latency (userDevices w)) in
  getDeviceStatus w env m
  = (Returns (ReportError err t1),
     mkMachine t1 (wire m ++ [(clock m, UserDevices (GOVEE_API_KEY env))])
               (console m)).
Proof.
  intros Hdir t1. unfold getDeviceStatus. run. now rewrite Hdir.
Qed.

Lemma map_snd_combine_same {A B} (xs : list A) (ys : list B) :
  length xs = length ys -> map snd (combine xs ys) = ys.
Proof.
  revert ys; induction xs as [|x xs IH]; intros [|y ys] Hlen;
    cbn in *; try reflexivity; try discriminate.
  f_equal. apply IH. lia.
Qed.

Lemma strictEq_true (a b : jsval) : strictEq a b = true <-> a = b.
Proof.
  destruct a, b; cbn; split; intros H; try discriminate; try reflexivity.
  - f_equal. now apply Bool.eqb_prop.
  - injection H as ->. apply Bool.eqb_reflx.
  - f_equal. now apply Z.eqb_eq.
  - injection H as ->. apply Z.eqb_refl.
  - f_equal. now apply String.eqb_eq.
  - injection H as ->. apply String.eqb_refl.
Qed.

Lemma withinWindow_true (d : Q) :
  withinWindow d = true <-> (-5 <= d /\ d <= 20)%Q.
Proof.
  unfold withinWindow. rewrite andb_true_iff, !Qle_bool_iff. reflexivity.
Qed.

(** The window in milliseconds: from 300000 before sunset to 1200000
    after. *)
Lemma withinWindow_ms (t sunsetTime : Z) :
  withinWindow (diffMinutesOf t sunsetTime)
  = (-300000 <=? t - sunsetTime) && (t - sunsetTime <=? 1200000).
Proof.
  unfold withinWindow, diffMinutesOf, Qle_bool, Qdiv, Qmult, Qinv. cbn.
  f_equal.
  - destruct (Z.leb_spec (-300000) ((t - sunsetTime) * 1 * 1));
      destruct (Z.leb_spec (-300000) (t - sunsetTime)); try reflexivity; lia.
  - destruct (Z.leb_spec ((t - sunsetTime) * 1 * 1 * 1) 1200000);
      destruct (Z.leb_spec (t - sunsetTime) 1200000); try reflexivity; lia.
Qed.

Lemma sameVerdictFrom_sound (k : nat) :
  forall lo, sameVerdictFrom k lo = true ->
  forall ms, lo <= ms < lo + 2 ^ Z.of_nat k -> sameVerdict ms = true.
Proof.
  induction k as [|k IH]; intros lo Hall ms Hms.
  - cbn in Hms. replace ms with lo by lia. exact Hall.
  - cbn [sameVerdictFrom] in Hall. apply andb_true_iff in Hall.
    destruct Hall as [Hlow Hhigh].
    rewrite Nat2Z.inj_succ, Z.pow_succ_r in Hms by lia.
    destruct (Z.lt_ge_cases ms (lo + 2 ^ Z.of_nat k)).
    + apply (IH lo Hlow). lia.
    + apply (IH _ Hhigh). lia.
Qed.

Lemma sameVerdict_around_the_window : sameVerdictFrom 21 (-524288) = true.
Proof. vm_compute. reflexivity. Qed.

(** From about nine minutes before sunset to about twenty-six minutes after,
    which contains both bounds of the window, the binary64 test of the source
    and the exact test give the same verdict at every millisecond. *)
Lemma withinWindowFloat_agrees (t sunsetTime : Z) :
  -524288 <= t - sunsetTime < 1572864 ->
  withinWindowFloat (diffMinutesFloat t sunsetTime)
  = withinWindow (diffMinutesOf t sunsetTime).
Proof.
  intros Hrange. rewrite withinWindow_ms.
  unfold diffMinutesFloat.
  apply Bool.eqb_prop.
  apply (sameVerdictFrom_sound 21 (-524288) sameVerdict_around_the_window).
  change (Z.of_nat 21) with 21. change (2 ^ 21) with 2097152. lia.
Qed.

(** *** The runs of [checkSunsetAndTurnOn] *)

Lemma checkSunset_unreachable (w : World) (env : Env) (m : machine)
      (err : string) :
  body (sunriseSunset w (denverDay (clock m))) = Throws err ->
  checkSunsetAndTurnOn w env m
  = (Throws err,
     mkMachine (solarArrival w m)
               (wire m ++ [(clock m, solarRequest (clock m))]) (console m)).
Proof.
  intros Hsolar. unfold checkSunsetAndTurnOn, getDenverDate. run.
  fold (denverDay (clock m)). now rewrite Hsolar.
Qed.

Lemma checkSunset_not_ok (w : World) (env : Env) (m : machine)
      (sunsetData : SunsetData) :
  body (sunriseSunset w (denverDay (clock m))) = Returns sunsetData ->
  status sunsetData <> VStr "OK" ->
  checkSunsetAndTurnOn w env m
  = (Returns (SunsetFailed "Failed to fetch sunset"),
     mkMachine (solarArrival w m)
               (wire m ++ [(clock m, solarRequest (clock m))])
               (console m ++ [LogSunsetFetchFailed])).
Proof.
  intros Hsolar Hstatus. unfold checkSunsetAndTurnOn, getDenverDate. run.
  fold (denverDay (clock m)). rewrite Hsolar.
  destruct (strictEq (status sunsetData) (VStr "OK")) eqn:E.
  - apply strictEq_true in E. contradiction.
  - reflexivity.
Qed.

Lemma checkSunset_ok (w : World) (env : Env) (m : machine)
      (sunsetData : SunsetData) (sunsetTime : Z) :
  body (sunriseSunset w (denverDay (clock m))) = Returns sunsetData ->
  status sunsetData = VStr "OK" ->
  results sunsetData = Some (mkSunsetResults (Some sunsetTime)) ->
  let diffMinutes := diffMinutesOf (solarArrival w m) sunsetTime in
  let m1 := mkMachine (solarArrival w m)
              (wire m ++ [(clock m, solarRequest (clock m))])
              (console m ++ [LogSunsetDiff (denverDay (clock m)) sunsetTime
                                           (solarArrival w m) diffMinutes]) in
  checkSunsetAndTurnOn w env m
  = if withinWindow diffMinutes then
      match controlAllLights w env true m1 with
      | (Returns _, m2) =>
          (Returns (SunsetTriggered sunsetTime diffMinutes),
           mkMachine (clock m2) (wire m2) (console m2 ++ [LogLightsOnAtSunset]))
      | (Throws err, m2) => (Throws err, m2)
      end
    else
      (Returns (SunsetNotYet sunsetTime diffMinutes (denverDay (clock m))
                             "Not sunset time yet"), m1).
Proof.
  intros Hsolar Hstatus Hresults diffMinutes m1.
  unfold checkSunsetAndTurnOn, getDenverDate, sunsetInstant. run.
  fold (denverDay (clock m)). rewrite Hsolar, Hstatus, Hresults. cbn.
  fold (solarArrival w m). fold diffMinutes. fold (solarRequest (clock m)).
  fold m1. destruct (withinWindow diffMinutes); [|reflexivity].
  destruct (controlAllLights w env true m1) as [[res|err] m2]; reflexivity.
Qed.

(** Whatever an evaluation returns carries the verdict of the window test. *)
Lemma checkSunset_verdict (w : World) (env : Env) (m : machine)
      (sunsetData : SunsetData) (sunsetTime : Z) :
  body (sunriseSunset w (denverDay (clock m))) = Returns sunsetData ->
  status sunsetData = VStr "OK" ->
  results sunsetData = Some (mkSunsetResults (Some sunsetTime)) ->
  forall result m',
    checkSunsetAndTurnOn w env m = (Returns result, m') ->
    triggered result
    = Some (withinWindow (diffMinutesOf (solarArrival w m) sunsetTime)).
Proof.
  intros Hsolar Hstatus Hresults result m' Hret.
  rewrite (checkSunset_ok w env m sunsetData sunsetTime
             Hsolar Hstatus Hresults) in Hret.
  cbv zeta in Hret.
  destruct (withinWindow (diffMinutesOf (solarArrival w m) sunsetTime)).
  - destruct (controlAllLights w env true _) as [[res|err] m2];
      [injection Hret as <- _; reflexivity | discriminate Hret].
  - injection Hret as <- _. reflexivity.
Qed.

(** C1. With the solar service answering OK, [diffMinutes] is the time since
    sunset in minutes, (now - sunset) / 60000, and an evaluation reports
    [triggered = true] exactly when [diffMinutes] lies in the closed interval
    from -5 to 20: every result it returns has [triggered = true] iff the
    difference is inside; inside the window it returns that result as soon as
    the directory answers (and throws if the directory request does), outside
    it always returns [triggered = false].
    Both bounds -5 and 20 trigger; -5.01 and 20.01 do not.  Around the window
    the test in binary64, as the source computes it, gives the same verdict
    as the exact one. *)
Theorem C1_triggered_iff_within_window
    (w : World) (env : Env) (m : machine)
    (sunsetData : SunsetData) (sunsetTime : Z) :
  body (sunriseSunset w (denverDay (clock m))) = Returns sunsetData ->
  status sunsetData = VStr "OK" ->
  results sunsetData = Some (mkSunsetResults (Some sunsetTime)) ->
  let diffMinutes := diffMinutesOf (solarArrival w m) sunsetTime in
  (diffMinutes == inject_Z (solarArrival w m - sunsetTime) / 60000)%Q /\
  (forall result m',
      checkSunsetAndTurnOn w env m = (Returns result, m') ->
      (triggered result = Some true <-> (-5 <= diffMinutes /\ diffMinutes <= 20)%Q)) /\
  ((-5 <= diffMinutes /\ diffMinutes <= 20)%Q ->
   forall devicesData, body (userDevices w) = Returns devicesData ->
   exists m',
     checkSunsetAndTurnOn w env m
     = (Returns (SunsetTriggered sunsetTime diffMinutes), m')) /\
  ((-5 <= diffMinutes /\ diffMinutes <= 20)%Q ->
   forall err, body (userDevices w) = Throws err ->
   exists m', checkSunsetAndTurnOn w env m = (Throws err, m')) /\
  (~ (-5 <= diffMinutes /\ diffMinutes <= 20)%Q ->
   exists m',
     checkSunsetAndTurnOn w env m
     = (Returns (SunsetNotYet sunsetTime diffMinutes (denverDay (clock m))
                              "Not sunset time yet"), m')) /\
  ((diffMinutes == -5 \/ diffMinutes == 20)%Q ->
   withinWindow diffMinutes = true /\
   forall result m',
     checkSunsetAndTurnOn w env m = (Returns result, m') ->
     triggered result = Some true) /\
  ((diffMinutes == -501 # 100 \/ diffMinutes == 2001 # 100)%Q ->
   withinWindow diffMinutes = false /\
   exists result m',
     checkSunsetAndTurnOn w env m = (Returns result, m') /\
     triggered result = Some false) /\
  (-524288 <= solarArrival w m - sunsetTime < 1572864 ->
   withinWindowFloat (diffMinutesFloat (solarArrival w m) sunsetTime)
   = withinWindow diffMinutes).
Proof.
  intros Hsolar Hstatus Hresults diffMinutes.
  pose proof (checkSunset_ok w env m sunsetData sunsetTime
                Hsolar Hstatus Hresults) as Hrun.
  cbv zeta in Hrun. fold diffMinutes in Hrun.
  split; [|split; [|split; [|split; [|split; [|split; [|split]]]]]].
  - unfold diffMinutes, diffMinutesOf, Qeq, Qdiv, Qmult, Qinv. cbn. lia.
  - intros result m' Hret.
    rewrite (checkSunset_verdict w env m sunsetData sunsetTime
               Hsolar Hstatus Hresults result m' Hret).
    fold diffMinutes. rewrite <- withinWindow_true.
    split; [intros Heq; now injection Heq | intros ->; reflexivity].
  - intros Hin devicesData Hdir.
    apply withinWindow_true in Hin. rewrite Hrun, Hin.
    rewrite (controlAllLights_run w env true _ devicesData Hdir).
    eexists. reflexivity.
  - intros Hin err Hdir.
    apply withinWindow_true in Hin. rewrite Hrun, Hin.
    rewrite (controlAllLights_directory_failure w env true _ err Hdir).
    eexists. reflexivity.
  - intros Hout. rewrite Hrun.
    destruct (withinWindow diffMinutes) eqn:E.
    + apply withinWindow_true in E. contradiction.
    + eexists. reflexivity.
  - intros Hbound.
    assert (Hin : withinWindow diffMinutes = true).
    { destruct Hbound as [Heq|Heq]; apply withinWindow_true; rewrite Heq;
        split; unfold Qle; cbn; lia. }
    split; [exact Hin|]. intros result m' Hret.
    rewrite (checkSunset_verdict w env m sunsetData sunsetTime
               Hsolar Hstatus Hresults result m' Hret).
    fold diffMinutes. now rewrite Hin.
  - intros Hbound.
    assert (Hout : withinWindow diffMinutes = false).
    { destruct Hbound as [Heq|Heq]; destruct (withinWindow diffMinutes) eqn:E;
        try reflexivity; apply withinWindow_true in E; rewrite Heq in E;
        destruct E as [Hlo Hhi]; unfold Qle in Hlo, Hhi; cbn in Hlo, Hhi; lia. }
    split; [exact Hout|]. rewrite Hrun, Hout.
    do 2 eexists. split; reflexivity.
  - apply withinWindowFloat_agrees.
Qed.

(** *** The tick *)

Lemma scheduled_by_hour (w : World) (env : Env) (m : machine) :
  scheduled w env m
  = if hourOf (clock m) =? 8 then
      (controlAllLights w env false ;;; log LogLightsOff) m
    else if (hourOf (clock m) >=? 22) || (hourOf (clock m) <=? 2) then
      (checkSunsetAndTurnOn w env ;;; ret tt) m
    else (Returns tt, m).
Proof.
  unfold scheduled, getUTCHours, hourOf.
  unfold bind at 1. unfold bind at 1. unfold now at 1. unfold ret at 1.
  destruct (_ =? 8); [reflexivity|].
  destruct (_ || _); reflexivity.
Qed.

Lemma hourOf_range (t : Z) : 0 <= hourOf t < 24.
Proof. unfold hourOf. apply Z.mod_pos_bound. lia. Qed.

Lemma eveningHour_test (hour : Z) :
  0 <= hour < 24 ->
  (eveningHour hour <-> (hour >=? 22) || (hour <=? 2) = true).
Proof.
  intros Hrange. unfold eveningHour.
  rewrite orb_true_iff, Z.geb_le, Z.leb_le. lia.
Qed.

Lemma scheduled_evening (w : World) (env : Env) (m : machine) :
  eveningHour (hourOf (clock m)) ->
  scheduled w env m = (checkSunsetAndTurnOn w env ;;; ret tt) m.
Proof.
  intros Hev. rewrite scheduled_by_hour.
  assert (H8 : (hourOf (clock m) =? 8) = false)
    by (apply Z.eqb_neq; unfold eveningHour in Hev; lia).
  apply (eveningHour_test _ (hourOf_range (clock m))) in Hev.
  now rewrite H8, Hev.
Qed.

(** C6. When the solar service answers with a status other than OK, the
    evaluation returns the error object to its caller, the only request of the
    cycle is the solar query itself, so no control request is issued; the
    [/sunset] endpoint hands that error object back, and an evening tick ends
    without having touched a device. *)
Theorem C6_solar_failure_dispatches_nothing
    (w : World) (env : Env) (m : machine) (sunsetData : SunsetData) :
  body (sunriseSunset w (denverDay (clock m))) = Returns sunsetData ->
  status sunsetData <> VStr "OK" ->
  exists result m',
    checkSunsetAndTurnOn w env m = (Returns result, m') /\
    errorOf result = Some "Failed to fetch sunset" /\
    triggered result = None /\
    issuedSince m m' = [(clock m, solarRequest (clock m))] /\
    (forall t req, In (t, req) (issuedSince m m') ->
                   isControlRequest req = false) /\
    fetch w env "/sunset" m = (Returns (SunsetJson result), m') /\
    (eveningHour (hourOf (clock m)) -> scheduled w env m = (Returns tt, m')).
Proof.
  intros Hsolar Hstatus.
  pose proof (checkSunset_not_ok w env m sunsetData Hsolar Hstatus) as Hrun.
  do 2 eexists. split; [exact Hrun|].
  split; [reflexivity|]. split; [reflexivity|].
  rewrite issuedSince_app.
  split; [reflexivity|]. split; [|split].
  - intros t req [Heq|[]]. injection Heq as _ <-. reflexivity.
  - unfold fetch. cbn [String.eqb Ascii.eqb Bool.eqb].
    unfold bind at 1. rewrite Hrun. reflexivity.
  - intros Hev. rewrite (scheduled_evening w env m Hev).
    unfold bind at 1. rewrite Hrun. reflexivity.
Qed.

(** C2. A tick acts on the UTC hour alone, in one of three exclusive ways.
    At hour 8 it runs the power-off fan-out: no solar query goes out, and once
    the directory has answered every device of the roster gets one
    [on_off] control request with value 0.  At the hours 22, 23, 0, 1 and 2 it
    runs the sunset evaluation: when that reports [triggered = true] every
    device got one control request with value 1, and otherwise the solar query
    is the only request.  At any other hour it does nothing at all. *)
Theorem C2_tick_acts_on_the_hour (w : World) (env : Env) (m : machine) :
  let hour := hourOf (clock m) in
  0 <= hour < 24 /\
  ~ eveningHour 8 /\
  (hour = 8 ->
   scheduled w env m = (controlAllLights w env false ;;; log LogLightsOff) m /\
   (forall outcome m', scheduled w env m = (outcome, m') ->
      forall t req, In (t, req) (issuedSince m m') -> isSolarRequest req = false) /\
   (forall devicesData, body (userDevices w) = Returns devicesData ->
      exists m',
        scheduled w env m = (Returns tt, m') /\
        map snd (issuedSince m m')
        = UserDevices (GOVEE_API_KEY env)
          :: map (fun d => DeviceControl (GOVEE_API_KEY env) (sku d) (device d)
                             GOVEE_ON_OFF "powerSwitch" 0)
                 (rosterOf devicesData))) /\
  (eveningHour hour ->
   scheduled w env m = (checkSunsetAndTurnOn w env ;;; ret tt) m /\
   (forall result m', checkSunsetAndTurnOn w env m = (Returns result, m') ->
      scheduled w env m = (Returns tt, m') /\
      (triggered result = Some true ->
       exists devicesData,
         body (userDevices w) = Returns devicesData /\
         map snd (issuedSince m m')
         = solarRequest (clock m)
           :: UserDevices (GOVEE_API_KEY env)
           :: map (fun d => DeviceControl (GOVEE_API_KEY env) (sku d) (device d)
                              GOVEE_ON_OFF "powerSwitch" 1)
                  (rosterOf devicesData)) /\
      (triggered result <> Some true ->
       issuedSince m m' = [(clock m, solarRequest (clock m))]))) /\
  (hour <> 8 -> ~ eveningHour hour -> scheduled w env m = (Returns tt, m)).
Proof.
  intros hour. pose proof (hourOf_range (clock m)) as Hrange. fold hour in Hrange.
  split; [exact Hrange|]. split; [unfold eveningHour; lia|].
  split; [|split].
  - (* lights off *)
    intros H8.
    assert (Hoff : scheduled w env m
                   = (controlAllLights w env false ;;; log LogLightsOff) m).
    { rewrite scheduled_by_hour. fold hour. now rewrite H8. }
    split; [exact Hoff|]. split.
    + intros outcome m' Hrun t req Hin. rewrite Hoff in Hrun.
      unfold bind in Hrun at 1.
      destruct (body (userDevices w)) as [devicesData|err] eqn:Hdir.
      * rewrite (controlAllLights_run w env false m devicesData Hdir) in Hrun.
        unfold log in Hrun. cbn [clock wire console] in Hrun.
        injection Hrun as _ <-. rewrite issuedSince_app in Hin.
        destruct Hin as [Heq|Hin]; [injection Heq as _ <-; reflexivity|].
        apply in_combine_r in Hin. apply in_map_iff in Hin.
        destruct Hin as (d & <- & _). reflexivity.
      * rewrite (controlAllLights_directory_failure w env false m err Hdir)
          in Hrun.
        injection Hrun as _ <-. rewrite issuedSince_app in Hin.
        destruct Hin as [Heq|[]]. injection Heq as _ <-. reflexivity.
    + intros devicesData Hdir. rewrite Hoff. unfold bind at 1.
      rewrite (controlAllLights_run w env false m devicesData Hdir).
      unfold log. cbn [clock wire console]. eexists. split; [reflexivity|].
      rewrite issuedSince_app. cbn [map snd]. f_equal.
      rewrite map_snd_combine_same
        by now rewrite sequentialIssues_length, !length_map.
      reflexivity.
  - (* evening *)
    intros Hev. pose proof (scheduled_evening w env m Hev) as Heve.
    split; [exact Heve|].
    intros result m' Hret. split; [|split].
    + rewrite Heve. unfold bind at 1. now rewrite Hret.
    + intros Htrig.
      destruct (body (sunriseSunset w (denverDay (clock m))))
        as [sunsetData|err] eqn:Hsolar;
        [|rewrite (checkSunset_unreachable w env m err Hsolar) in Hret;
          discriminate Hret].
      destruct (strictEq (status sunsetData) (VStr "OK")) eqn:Hstatus.
      2:{ assert (Hne : status sunsetData <> VStr "OK")
            by (intros Heq; apply strictEq_true in Heq; congruence).
          rewrite (checkSunset_not_ok w env m sunsetData Hsolar Hne) in Hret.
          injection Hret as <- _. discriminate Htrig. }
      apply strictEq_true in Hstatus.
      destruct (results sunsetData) as [[[sunsetTime|]]|] eqn:Hresults.
      2,3: unfold checkSunsetAndTurnOn, getDenverDate, sunsetInstant in Hret;
           run; fold (denverDay (clock m)) in Hret;
           rewrite Hsolar, Hstatus, Hresults in Hret; discriminate Hret.
      rewrite (checkSunset_ok w env m sunsetData sunsetTime
                 Hsolar Hstatus Hresults) in Hret. cbv zeta in Hret.
      destruct (withinWindow _);
        [|injection Hret as <- _; discriminate Htrig].
      destruct (body (userDevices w)) as [devicesData|err] eqn:Hdir.
      * rewrite (controlAllLights_run w env true _ devicesData Hdir) in Hret.
        cbn [clock wire console] in Hret. injection Hret as _ <-.
        exists devicesData. split; [reflexivity|].
        rewrite <- app_assoc, issuedSince_app. cbn [app map snd]. do 2 f_equal.
        rewrite map_snd_combine_same
          by now rewrite sequentialIssues_length, !length_map.
        reflexivity.
      * rewrite (controlAllLights_directory_failure w env true _ err Hdir)
          in Hret. discriminate Hret.
    + intros Hnot.
      destruct (body (sunriseSunset w (denverDay (clock m))))
        as [sunsetData|err] eqn:Hsolar;
        [|rewrite (checkSunset_unreachable w env m err Hsolar) in Hret;
          discriminate Hret].
      destruct (strictEq (status sunsetData) (VStr "OK")) eqn:Hstatus.
      2:{ assert (Hne : status sunsetData <> VStr "OK")
            by (intros Heq; apply strictEq_true in Heq; congruence).
          rewrite (checkSunset_not_ok w env m sunsetData Hsolar Hne) in Hret.
          injection Hret as _ <-. now rewrite issuedSince_app. }
      apply strictEq_true in Hstatus.
      destruct (results sunsetData) as [[[sunsetTime|]]|] eqn:Hresults.
      2,3: unfold checkSunsetAndTurnOn, getDenverDate, sunsetInstant in Hret;
           run; fold (denverDay (clock m)) in Hret;
           rewrite Hsolar, Hstatus, Hresults in Hret; discriminate Hret.
      rewrite (checkSunset_ok w env m sunsetData sunsetTime
                 Hsolar Hstatus Hresults) in Hret. cbv zeta in Hret.
      destruct (withinWindow _).
      * destruct (controlAllLights w env true _) as [[res|err] m2];
          [injection Hret as <- _; now contradiction Hnot
          |discriminate Hret].
      * injection Hret as _ <-. now rewrite issuedSince_app.
  - (* any other hour *)
    intros Hn8 Hnev. rewrite scheduled_by_hour. fold hour.
    assert (H8 : (hour =? 8) = false) by now apply Z.eqb_neq.
    rewrite H8.
    destruct ((hour >=? 22) || (hour <=? 2)) eqn:E; [|reflexivity].
    apply (eveningHour_test _ Hrange) in E. contradiction.
Qed.

(** *** The codec *)

Lemma find_absent {A} (f : A -> bool) (l : list A) :
  (forall x, In x l -> f x = false) -> find f l = None.
Proof.
  induction l as [|a l IH]; intros Hall; cbn; [reflexivity|].
  rewrite (Hall a (or_introl eq_refl)). apply IH.
  intros x Hin. apply Hall. now right.
Qed.

Lemma wrap32_small (v : Z) : 0 <= v < 2 ^ 31 -> wrap32 v = v.
Proof.
  intros Hv. unfold wrap32. rewrite Z.mod_small by lia.
  destruct (Z.geb_spec v (2 ^ 31)); [lia | reflexivity].
Qed.

Lemma byte_at (v k i : Z) :
  0 <= k -> 0 <= i ->
  Z.testbit (Z.shiftl (Z.land (Z.shiftr v k) 255) k) i
  = Z.testbit v i && ((k <=? i) && (i <? k + 8)).
Proof.
  intros Hk Hi. rewrite Z.shiftl_spec by assumption.
  destruct (Z.leb_spec k i) as [Hle|Hlt].
  - rewrite Z.land_spec, Z.shiftr_spec by lia.
    replace (i - k + k) with i by lia. f_equal.
    change 255 with (Z.ones 8).
    destruct (Z.ltb_spec i (k + 8)).
    + apply Z.ones_spec_low. lia.
    + apply Z.ones_spec_high. lia.
  - rewrite Z.testbit_neg_r by lia. cbn. now rewrite andb_false_r.
Qed.

Lemma high_bits_clear (v i : Z) :
  0 <= v < 2 ^ 24 -> 24 <= i -> Z.testbit v i = false.
Proof.
  intros Hv Hi. destruct (Z.eq_dec v 0) as [->|Hnz].
  - apply Z.bits_0.
  - apply Z.bits_above_log2; [lia|].
    apply Z.lt_le_trans with 24; [|exact Hi].
    apply Z.log2_lt_pow2; lia.
Qed.

Lemma byte_range (x : Z) : 0 <= Z.land x 255 <= 255.
Proof.
  change (Z.land x 255) with (Z.land x (Z.ones 8)).
  rewrite Z.land_ones by lia.
  pose proof (Z.mod_pos_bound x (2 ^ 8)) as H. change (2 ^ 8) with 256 in *. lia.
Qed.

(** Three bytes cut out of a 24-bit integer and or-ed back in place. *)
Lemma pack_unpack (v : Z) :
  0 <= v < 2 ^ 24 ->
  packRgb (mkRgb (Z.land (Z.shiftr v 16) 255) (Z.land (Z.shiftr v 8) 255)
                 (Z.land v 255)) = v.
Proof.
  intros Hv. unfold packRgb. cbn [r g b].
  apply Z.bits_inj'. intros i Hi.
  rewrite <- (Z.shiftl_0_r (Z.land v 255)).
  rewrite <- (Z.shiftr_0_r v) at 3.
  rewrite !Z.lor_spec, !byte_at by lia.
  destruct (Z.ltb_spec i 24) as [Hlt|Hge].
  - destruct (Z.testbit v i); cbn [andb]; [|reflexivity].
    destruct (Z.leb_spec 16 i), (Z.ltb_spec i (16 + 8)),
             (Z.leb_spec 8 i), (Z.ltb_spec i (8 + 8)),
             (Z.leb_spec 0 i), (Z.ltb_spec i (0 + 8)); cbn; try reflexivity; lia.
  - rewrite (high_bits_clear v i Hv Hge). reflexivity.
Qed.

(** On bytes no shift of the colour picker's packing leaves the 32-bit
    range. *)
Lemma packColor_bytes (cr cg cb : Z) :
  0 <= cr <= 255 -> 0 <= cg <= 255 ->
  packColor (mkRgb cr cg cb) = cr * 65536 + cg * 256 + cb.
Proof.
  intros Hr Hg. unfold packColor. cbn [r g b].
  rewrite !Z.shiftl_mul_pow2 by lia.
  change (2 ^ 16) with 65536. change (2 ^ 8) with 256.
  rewrite !wrap32_small by (change (2 ^ 31) with 2147483648; lia).
  reflexivity.
Qed.

(** The first capability that passes the test of a [find] is its result. *)
Lemma find_first {A} (f : A -> bool) (before after : list A) (x : A) :
  (forall y, In y before -> f y = false) ->
  f x = true ->
  find f (before ++ x :: after) = Some x.
Proof.
  intros Hbefore Hx. induction before as [|y rest IH]; cbn [app find].
  - now rewrite Hx.
  - rewrite (Hbefore y (or_introl eq_refl)).
    apply IH. intros z Hz. apply Hbefore. now right.
Qed.

(** The same three bytes added back, as the colour picker packs them. *)
Lemma packColor_unpack (v : Z) :
  0 <= v < 2 ^ 24 ->
  packColor (mkRgb (Z.land (Z.shiftr v 16) 255) (Z.land (Z.shiftr v 8) 255)
                   (Z.land v 255)) = v.
Proof.
  intros Hv. rewrite packColor_bytes by apply byte_range.
  change 255 with (Z.ones 8).
  rewrite !Z.land_ones, !Z.shiftr_div_pow2 by lia.
  change (2 ^ 16) with 65536. change (2 ^ 8) with 256.
  change (2 ^ 24) with 16777216 in Hv.
  Z.div_mod_to_equations. lia.
Qed.

(** C4. For every packed colour v between 0 and 0xFFFFFF reported by the
    colour capability, the decoded channels are (v >> 16) & 255,
    (v >> 8) & 255 and v & 255, and packing them again as
    r << 16 | g << 8 | b gives v back (so does the additive packing of the
    colour picker).  The colour capability is the first one of the list whose
    instance is colorRgb: when that capability reports v, the entry decoded
    from the list carries these channels; when no capability carries the
    colour instance, the colour field of the entry is absent. *)
Theorem C4_color_round_trip (v : Z) :
  0 <= v <= 0xFFFFFF ->
  decodeColor (VNum v)
  = Some (mkRgb (Z.land (Z.shiftr v 16) 255) (Z.land (Z.shiftr v 8) 255)
                (Z.land v 255)) /\
  (forall c, decodeColor (VNum v) = Some c ->
             packRgb c = v /\ packColor c = v /\
             0 <= r c <= 255 /\ 0 <= g c <= 255 /\ 0 <= b c <= 255) /\
  (forall (d : Device) (before after : list Capability)
          (colorCap : Capability),
      (forall c, In c before -> instance c <> VStr "colorRgb") ->
      instance colorCap = VStr "colorRgb" ->
      state colorCap = Some (mkCapState (VNum v)) ->
      colorOf (decodeStatus d (before ++ colorCap :: after))
      = Some (mkRgb (Z.land (Z.shiftr v 16) 255) (Z.land (Z.shiftr v 8) 255)
                    (Z.land v 255)) /\
      option_map packRgb
        (colorOf (decodeStatus d (before ++ colorCap :: after)))
      = Some v) /\
  (forall (d : Device) (caps : list Capability),
      (forall c, In c caps -> instance c <> VStr "colorRgb") ->
      colorOf (decodeStatus d caps) = None).
Proof.
  intros Hv.
  assert (Hv24 : 0 <= v < 2 ^ 24) by (change (2 ^ 24) with 16777216; lia).
  assert (Hdec : decodeColor (VNum v)
                 = Some (mkRgb (Z.land (Z.shiftr v 16) 255)
                               (Z.land (Z.shiftr v 8) 255) (Z.land v 255))).
  { unfold decodeColor. cbn [strictEq negb andb ToInt32].
    rewrite wrap32_small; [reflexivity|].
    change (2 ^ 31) with 2147483648. lia. }
  split; [exact Hdec|]. split; [|split].
  - intros c Hc. rewrite Hdec in Hc. injection Hc as <-.
    split; [now apply pack_unpack|]. split; [now apply packColor_unpack|].
    cbn [r g b]. repeat split; apply byte_range.
  - intros d before after colorCap Hbefore Hinstance Hstate.
    assert (Hfind : find isColor (before ++ colorCap :: after)
                    = Some colorCap).
    { apply find_first.
      - intros c Hin. unfold isColor.
        destruct (strictEq (instance c) (VStr "colorRgb")) eqn:E;
          [|reflexivity].
        apply strictEq_true in E. now apply Hbefore in Hin.
      - unfold isColor. now apply strictEq_true. }
    unfold decodeStatus. cbn [colorOf].
    rewrite Hfind. unfold stateValue. rewrite Hstate. cbn [value].
    rewrite Hdec. split; [reflexivity|].
    cbn [option_map]. f_equal. now apply pack_unpack.
  - intros d caps Hnone. unfold decodeStatus. cbn [colorOf].
    assert (Hfind : find isColor caps = None).
    { apply find_absent. intros c Hin. unfold isColor.
      destruct (strictEq (instance c) (VStr "colorRgb")) eqn:E;
        [|reflexivity].
      apply strictEq_true in E. now apply Hnone in Hin. }
    rewrite Hfind. reflexivity.
Qed.

(** C5. The decoded power is ON exactly when a power-switch capability is
    found and the value of its state is the number 1; any other value, truthy
    or not, gives OFF, and so does a capability list without a power
    capability. *)
Theorem C5_power_is_literal_one (d : Device) (caps : list Capability) :
  (powerOf (decodeStatus d caps) = Some "ON"
   <-> exists c s, find isPower caps = Some c /\
                   state c = Some s /\ value s = VNum 1) /\
  (powerOf (decodeStatus d caps) <> Some "ON" ->
   powerOf (decodeStatus d caps) = Some "OFF") /\
  (forall c v, find isPower caps = Some c -> stateValue (Some c) = v ->
               truthy v = true -> v <> VNum 1 ->
               powerOf (decodeStatus d caps) = Some "OFF") /\
  ((forall c, In c caps -> type c <> VStr GOVEE_ON_OFF) ->
   powerOf (decodeStatus d caps) = Some "OFF").
Proof.
  unfold decodeStatus. cbn [powerOf].
  split; [|split; [|split]].
  - split.
    + intros Hon.
      destruct (strictEq (stateValue (find isPower caps)) (VNum 1)) eqn:E;
        [|discriminate Hon].
      apply strictEq_true in E. unfold stateValue in E.
      destruct (find isPower caps) as [c|]; [|discriminate E].
      destruct (state c) as [s|] eqn:Hs; [|discriminate E].
      exists c, s. repeat split; assumption.
    + intros (c & s & Hfind & Hs & Hv). rewrite Hfind. unfold stateValue.
      rewrite Hs, Hv. reflexivity.
  - destruct (strictEq _ _); [intros H; now contradiction H | reflexivity].
  - intros c v Hfind Hval _ Hne. rewrite Hfind, Hval.
    destruct (strictEq v (VNum 1)) eqn:E; [|reflexivity].
    apply strictEq_true in E. contradiction.
  - intros Hnone.
    assert (Hfind : find isPower caps = None).
    { apply find_absent. intros c Hin. unfold isPower.
      destruct (strictEq (type c) (VStr GOVEE_ON_OFF)) eqn:E; [|reflexivity].
      apply strictEq_true in E. now apply Hnone in Hin. }
    rewrite Hfind. reflexivity.
Qed.

(** C10. When the colour capability is there but its state value is null or
    undefined, the colour field is absent; a value of 0 is decoded to the
    channels (0, 0, 0).  The scene field differs: any falsy value of the
    scene capability, 0 included, decodes to the absent scene. *)
Theorem C10_null_color_absent_zero_is_black
    (d : Device) (caps : list Capability) (colorCap : Capability) :
  find isColor caps = Some colorCap ->
  (stateValue (Some colorCap) = VNull \/ stateValue (Some colorCap) = VUndefined ->
   colorOf (decodeStatus d caps) = None) /\
  (stateValue (Some colorCap) = VNum 0 ->
   colorOf (decodeStatus d caps) = Some (mkRgb 0 0 0)) /\
  (forall sceneCap, find isScene caps = Some sceneCap ->
     (truthy (stateValue (Some sceneCap)) = false ->
      sceneOf (decodeStatus d caps) = VNull) /\
     (stateValue (Some sceneCap) = VNum 0 ->
      sceneOf (decodeStatus d caps) = VNull) /\
     (truthy (stateValue (Some sceneCap)) = true ->
      sceneOf (decodeStatus d caps) = stateValue (Some sceneCap))).
Proof.
  intros Hcolor. unfold decodeStatus. cbn [colorOf sceneOf].
  rewrite Hcolor. split; [|split].
  - intros [Hv|Hv]; rewrite Hv; reflexivity.
  - intros Hv. rewrite Hv. reflexivity.
  - intros sceneCap Hscene. rewrite Hscene. unfold orElse.
    split; [|split].
    + intros Hfalsy. now rewrite Hfalsy.
    + intros Hv. rewrite Hv. reflexivity.
    + intros Htruthy. now rewrite Htruthy.
Qed.

(** *** The status report *)

Lemma latestArrival_bound (w : World) (t : Z) (devices : list Device) :
  t <= latestArrival w t devices /\
  forall d, In d devices -> t + stateLatency w d <= latestArrival w t devices.
Proof.
  unfold latestArrival. induction devices as [|d rest [IHt IHd]]; cbn.
  - split; [lia | intros d []].
  - split; [lia|]. intros d' [<-|Hin]; [lia|].
    specialize (IHd d' Hin). lia.
Qed.

(** C7. Once the directory has answered, the report has exactly one entry
    per device of the roster, in roster order, and the call as a whole
    succeeds: the entry of a device whose state query fails carries the error
    and none of the decoded fields, the entry of a device whose query
    succeeds is its decoded status.  When the directory request itself fails,
    the result is the single top-level error and no device list. *)
Theorem C7_status_failures_are_isolated (w : World) (env : Env) (m : machine) :
  (forall devicesData, body (userDevices w) = Returns devicesData ->
     exists entries t m',
       getDeviceStatus w env m = (Returns (Report entries t), m') /\
       length entries = length (rosterOf devicesData) /\
       forall k d, nth_error (rosterOf devicesData) k = Some d ->
         exists e, nth_error entries k = Some e /\
           (forall err, body (deviceState w d) = Throws err ->
              e = Errored (deviceName d) (sku d) err /\
              errorField e = Some err /\ powerOf e = None /\
              colorOf e = None) /\
           (forall stateData, body (deviceState w d) = Returns stateData ->
              e = decodeStatus d (capabilitiesOf stateData) /\
              errorField e = None)) /\
  (forall err, body (userDevices w) = Throws err ->
     exists t m', getDeviceStatus w env m = (Returns (ReportError err t), m')).
Proof.
  split.
  - intros devicesData Hdir.
    rewrite (getDeviceStatus_run w env m devicesData Hdir).
    do 3 eexists. split; [reflexivity|]. split; [apply length_map|].
    intros k d Hk. exists (entryOf w d).
    split; [now rewrite nth_error_map, Hk|].
    unfold entryOf. split.
    + intros err Herr. rewrite Herr. repeat split.
    + intros stateData Hok. rewrite Hok. split; reflexivity.
  - intros err Hdir.
    rewrite (getDeviceStatus_directory_failure w env m err Hdir).
    do 2 eexists. reflexivity.
Qed.

(** C8. A directory payload without a device array gives the empty roster,
    and the empty roster is an ordinary state for every caller: the fan-out
    ends normally after the directory request alone, the status report is an
    empty device list and not an error, the endpoints answer as usual and the
    lights-off tick completes. *)
Theorem C8_missing_device_array_is_empty_roster
    (w : World) (env : Env) (m : machine) (devicesData : DevicesData) :
  (data devicesData = None -> rosterOf devicesData = []) /\
  (body (userDevices w) = Returns devicesData ->
   rosterOf devicesData = [] ->
   (forall turnOn, exists m',
       controlAllLights w env turnOn m = (Returns None, m') /\
       issuedSince m m' = [(clock m, UserDevices (GOVEE_API_KEY env))]) /\
   (exists t m', getDeviceStatus w env m = (Returns (Report [] t), m')) /\
   (exists m', fetch w env "/on" m = (Returns (Text "Lights ON"), m')) /\
   (exists m', fetch w env "/off" m = (Returns (Text "Lights OFF"), m')) /\
   (exists t m',
       fetch w env "/status" m = (Returns (StatusJson (Report [] t)), m')) /\
   (hourOf (clock m) = 8 -> exists m', scheduled w env m = (Returns tt, m'))).
Proof.
  split.
  - intros Hnone. unfold rosterOf. now rewrite Hnone.
  - intros Hdir Hempty.
    assert (Hctl : forall turnOn, exists m',
               controlAllLights w env turnOn m = (Returns None, m') /\
               issuedSince m m' = [(clock m, UserDevices (GOVEE_API_KEY env))]).
    { intros turnOn.
      rewrite (controlAllLights_run w env turnOn m devicesData Hdir).
      rewrite Hempty. cbn [map sequentialIssues combine length].
      eexists. split; [reflexivity|]. now rewrite issuedSince_app. }
    assert (Hst : exists t m',
               getDeviceStatus w env m = (Returns (Report [] t), m')).
    { rewrite (getDeviceStatus_run w env m devicesData Hdir).
      rewrite Hempty. cbn [map]. do 2 eexists. reflexivity. }
    split; [exact Hctl|]. split; [exact Hst|].
    split; [|split; [|split; [|]]].
    + destruct (Hctl true) as (m' & Hrun & _).
      unfold fetch. cbn [String.eqb Ascii.eqb Bool.eqb].
      unfold bind at 1. rewrite Hrun. eexists. reflexivity.
    + destruct (Hctl false) as (m' & Hrun & _).
      unfold fetch. cbn [String.eqb Ascii.eqb Bool.eqb].
      unfold bind at 1. rewrite Hrun. eexists. reflexivity.
    + destruct Hst as (t & m' & Hrun).
      unfold fetch. cbn [String.eqb Ascii.eqb Bool.eqb].
      unfold bind at 1. rewrite Hrun. do 2 eexists. reflexivity.
    + intros H8. destruct (Hctl false) as (m' & Hrun & _).
      rewrite scheduled_by_hour, H8. cbn [Z.eqb Pos.eqb].
      unfold bind at 1. rewrite Hrun. unfold log. eexists. reflexivity.
Qed.

(** *** The fan-out *)

(** C3 (amended). [controlAllLights] hands back no outcome sequence: it
    fulfils with undefined.  Over any roster it issues exactly one control
    request per device, in roster order, whichever of them are rejected, so a
    failure neither blocks nor cancels the requests to the remaining devices;
    the outcome of each device is only written to the console, a failure line
    for a device whose request throws and a success line for every other
    one. *)
Theorem C3_fan_out_isolation_without_outcomes
    (w : World) (env : Env) (turnOn : bool) (m : machine)
    (devicesData : DevicesData) :
  body (userDevices w) = Returns devicesData ->
  let devices := rosterOf devicesData in
  exists m',
    controlAllLights w env turnOn m = (Returns None, m') /\
    map snd (issuedSince m m')
    = UserDevices (GOVEE_API_KEY env)
      :: map (fun d => controlRequest env d turnOn) devices /\
    console m'
    = (console m ++ LogFound (length devices)
                 :: map (controlLine w turnOn) devices)%list /\
    (forall d err,
        body (deviceControl w d (if turnOn then 1 else 0)) = Throws err ->
        controlLine w turnOn d = LogControlFailed (deviceName d) err) /\
    (forall d u,
        body (deviceControl w d (if turnOn then 1 else 0)) = Returns u ->
        controlLine w turnOn d = LogSwitched turnOn (deviceName d)).
Proof.
  intros Hdir devices.
  rewrite (controlAllLights_run w env turnOn m devicesData Hdir).
  fold devices. eexists. split; [reflexivity|].
  rewrite issuedSince_app. cbn [map snd console].
  split; [|split; [reflexivity|split]].
  - f_equal. apply map_snd_combine_same.
    now rewrite sequentialIssues_length, !length_map.
  - intros d err Herr. unfold controlLine. now rewrite Herr.
  - intros d u Hok. unfold controlLine. now rewrite Hok.
Qed.

(** C9 (amended). The status report issues its state queries concurrently:
    once the directory has answered, the query of every device leaves at that
    same instant, whatever the latencies of the others, and the report is
    returned when the last reply has arrived.  [controlAllLights] issues its
    control requests strictly one after another in roster order: the request
    of a device leaves only when the replies for all devices before it have
    arrived, and the call returns after the sum of all latencies. *)
Theorem C9_queries_together_controls_in_turn
    (w : World) (env : Env) (turnOn : bool) (m : machine)
    (devicesData : DevicesData) :
  body (userDevices w) = Returns devicesData ->
  let devices := rosterOf devicesData in
  let t1 := clock m + Z.of_N (latency (userDevices w)) in
  let latencies := map (controlLatency w turnOn) devices in
  (exists report m',
      getDeviceStatus w env m = (Returns report, m') /\
      issuedSince m m'
      = (clock m, UserDevices (GOVEE_API_KEY env))
        :: map (fun d => (t1, stateRequest env d)) devices /\
      inFlightTogether (issuedSince m m') /\
      clock m' = latestArrival w t1 devices /\
      (forall d, In d devices -> t1 + stateLatency w d <= clock m')) /\
  (exists m',
      controlAllLights w env turnOn m = (Returns None, m') /\
      issuedSince m m'
      = (clock m, UserDevices (GOVEE_API_KEY env))
        :: combine (sequentialIssues t1 latencies)
                   (map (fun d => controlRequest env d turnOn) devices) /\
      (forall k, (k < length devices)%nat ->
         nth k (sequentialIssues t1 latencies) 0
         = t1 + sum (firstn k latencies)) /\
      clock m' = t1 + sum latencies).
Proof.
  intros Hdir devices t1 latencies. split.
  - rewrite (getDeviceStatus_run w env m devicesData Hdir).
    fold devices. fold t1. do 2 eexists. split; [reflexivity|].
    rewrite issuedSince_app. cbn [clock].
    split; [reflexivity|]. split; [|split; [reflexivity|]].
    + intros ta reqa tb reqb Ha Hb Hpa Hpb.
      assert (Hat : forall t req,
                 In (t, req)
                    ((clock m, UserDevices (GOVEE_API_KEY env))
                     :: map (fun d => (t1, stateRequest env d)) devices) ->
                 isPerDevice req = true -> t = t1).
      { intros t req [Heq|Hin] Hper.
        - injection Heq as _ <-. discriminate Hper.
        - apply in_map_iff in Hin. destruct Hin as (d & Heq & _).
          now injection Heq as <- _. }
      rewrite (Hat ta reqa Ha Hpa), (Hat tb reqb Hb Hpb). reflexivity.
    + apply latestArrival_bound.
  - rewrite (controlAllLights_run w env turnOn m devicesData Hdir).
    fold devices. fold t1. fold latencies. eexists. split; [reflexivity|].
    rewrite issuedSince_app. cbn [clock].
    split; [reflexivity|]. split; [|reflexivity].
    intros k Hk. apply sequentialIssues_nth.
    unfold latencies. now rewrite length_map.
Qed.

(** ** Further properties of the worker *)

(** *** Every way an evaluation can go *)

Lemma checkSunset_malformed (w : World) (env : Env) (m : machine)
      (sunsetData : SunsetData) :
  body (sunriseSunset w (denverDay (clock m))) = Returns sunsetData ->
  status sunsetData = VStr "OK" ->
  (forall sunsetTime,
      results sunsetData <> Some (mkSunsetResults (Some sunsetTime))) ->
  exists message,
    checkSunsetAndTurnOn w env m
    = (Throws message,
       mkMachine (solarArrival w m)
                 (wire m ++ [(clock m, solarRequest (clock m))]) (console m)).
Proof.
  intros Hsolar Hstatus Hresults.
  unfold checkSunsetAndTurnOn, getDenverDate, sunsetInstant. run.
  fold (denverDay (clock m)). rewrite Hsolar, Hstatus. cbn.
  destruct (results sunsetData) as [[[sunsetTime|]]|].
  - now contradiction (Hresults sunsetTime).
  - eexists. reflexivity.
  - eexists. reflexivity.
Qed.

(** The machine an evaluation leaves when it stops right after the solar
    reply, with the lines [lines] added to the console. *)
Lemma checkSunset_cases (w : World) (env : Env) (m : machine) :
  let after lines :=
    mkMachine (solarArrival w m)
              (wire m ++ [(clock m, solarRequest (clock m))])
              (console m ++ lines) in
  (exists err,
      body (sunriseSunset w (denverDay (clock m))) = Throws err /\
      checkSunsetAndTurnOn w env m = (Throws err, after [])) \/
  (exists sunsetData,
      body (sunriseSunset w (denverDay (clock m))) = Returns sunsetData /\
      status sunsetData <> VStr "OK" /\
      checkSunsetAndTurnOn w env m
      = (Returns (SunsetFailed "Failed to fetch sunset"),
         after [LogSunsetFetchFailed])) \/
  (exists sunsetData message,
      body (sunriseSunset w (denverDay (clock m))) = Returns sunsetData /\
      status sunsetData = VStr "OK" /\
      (forall sunsetTime,
          results sunsetData <> Some (mkSunsetResults (Some sunsetTime))) /\
      checkSunsetAndTurnOn w env m = (Throws message, after [])) \/
  (exists sunsetData sunsetTime,
      body (sunriseSunset w (denverDay (clock m))) = Returns sunsetData /\
      status sunsetData = VStr "OK" /\
      results sunsetData = Some (mkSunsetResults (Some sunsetTime)) /\
      checkSunsetAndTurnOn w env m
      = let diffMinutes := diffMinutesOf (solarArrival w m) sunsetTime in
        let m1 := after [LogSunsetDiff (denverDay (clock m)) sunsetTime
                                       (solarArrival w m) diffMinutes] in
        if withinWindow diffMinutes then
          match controlAllLights w env true m1 with
          | (Returns _, m2) =>
              (Returns (SunsetTriggered sunsetTime diffMinutes),
               mkMachine (clock m2) (wire m2)
                         (console m2 ++ [LogLightsOnAtSunset]))
          | (Throws err, m2) => (Throws err, m2)
          end
        else
          (Returns (SunsetNotYet sunsetTime diffMinutes (denverDay (clock m))
                                 "Not sunset time yet"), m1)).
Proof.
  intros after.
  destruct (body (sunriseSunset w (denverDay (clock m))))
    as [sunsetData|err] eqn:Hsolar.
  - destruct (strictEq (status sunsetData) (VStr "OK")) eqn:Hstatus.
    + apply strictEq_true in Hstatus.
      destruct (results sunsetData) as [[[sunsetTime|]]|] eqn:Hresults.
      * right. right. right. exists sunsetData, sunsetTime.
        repeat (split; [reflexivity || assumption|]).
        apply (checkSunset_ok w env m sunsetData sunsetTime
                 Hsolar Hstatus Hresults).
      * right. right. left.
        destruct (checkSunset_malformed w env m sunsetData Hsolar Hstatus)
          as (message & Hrun); [rewrite Hresults; discriminate|].
        exists sunsetData, message. rewrite Hresults.
        repeat (split; [reflexivity || assumption || discriminate|]).
        subst after. cbn beta. now rewrite app_nil_r.
      * right. right. left.
        destruct (checkSunset_malformed w env m sunsetData Hsolar Hstatus)
          as (message & Hrun); [rewrite Hresults; discriminate|].
        exists sunsetData, message. rewrite Hresults.
        repeat (split; [reflexivity || assumption || discriminate|]).
        subst after. cbn beta. now rewrite app_nil_r.
    + right. left. exists sunsetData.
      assert (Hne : status sunsetData <> VStr "OK")
        by (intros Heq; apply strictEq_true in Heq; congruence).
      split; [reflexivity|]. split; [exact Hne|].
      apply (checkSunset_not_ok w env m sunsetData Hsolar Hne).
  - left. exists err. split; [reflexivity|].
    rewrite (checkSunset_unreachable w env m err Hsolar).
    subst after. cbn beta. now rewrite app_nil_r.
Qed.

(** The requests of an evaluation: the solar query, then those of the
    fan-out if it ran. *)
Lemma checkSunset_wire (w : World) (env : Env) (m : machine)
      (outcome : Completion SunsetResult) (m' : machine) :
  checkSunsetAndTurnOn w env m = (outcome, m') ->
  issuedSince m m' = [(clock m, solarRequest (clock m))] \/
  exists sunsetData sunsetTime rest,
    body (sunriseSunset w (denverDay (clock m))) = Returns sunsetData /\
    status sunsetData = VStr "OK" /\
    results sunsetData = Some (mkSunsetResults (Some sunsetTime)) /\
    withinWindow (diffMinutesOf (solarArrival w m) sunsetTime) = true /\
    issuedSince m m'
    = (clock m, solarRequest (clock m))
      :: (solarArrival w m, UserDevices (GOVEE_API_KEY env)) :: rest /\
    (forall t req, In (t, req) rest -> isControlRequest req = true).
Proof.
  intros Hrun.
  destruct (checkSunset_cases w env m)
    as [(err & _ & Hcase)
       |[(sunsetData & _ & _ & Hcase)
        |[(sunsetData & message & _ & _ & _ & Hcase)
         |(sunsetData & sunsetTime & Hsolar & Hstatus & Hresults & Hcase)]]];
    rewrite Hcase in Hrun.
  - injection Hrun as _ <-. left. now rewrite issuedSince_app.
  - injection Hrun as _ <-. left. now rewrite issuedSince_app.
  - injection Hrun as _ <-. left. now rewrite issuedSince_app.
  - cbv zeta in Hrun.
    destruct (withinWindow (diffMinutesOf (solarArrival w m) sunsetTime))
      eqn:Hwin.
    + right. exists sunsetData, sunsetTime.
      destruct (body (userDevices w)) as [devicesData|err] eqn:Hdir.
      * rewrite (controlAllLights_run w env true _ devicesData Hdir) in Hrun.
        cbn [clock wire console] in Hrun. injection Hrun as _ <-.
        eexists. repeat (split; [reflexivity || assumption|]).
        split.
        -- rewrite <- app_assoc, issuedSince_app. reflexivity.
        -- intros t req Hin. apply in_combine_r in Hin.
           apply in_map_iff in Hin. destruct Hin as (d & <- & _). reflexivity.
      * rewrite (controlAllLights_directory_failure w env true _ err Hdir)
          in Hrun.
        cbn [clock wire console] in Hrun. injection Hrun as _ <-.
        exists []. repeat (split; [reflexivity || assumption|]).
        split.
        -- rewrite <- app_assoc, issuedSince_app. reflexivity.
        -- intros t req [].
    + injection Hrun as _ <-. left. now rewrite issuedSince_app.
Qed.

(** *** The Denver date *)

Lemma denverDay_utcDay (t : Z) :
  denverDay t = utcDay t - (if hourOf t <? 7 then 1 else 0).
Proof.
  unfold denverDay, utcDay, hourOf.
  destruct (Z.ltb_spec ((t / 3600000) mod 24) 7); Z.div_mod_to_equations; lia.
Qed.

(** X1. [getDenverDate] gives the UTC day of the instant, less one during
    the first seven UTC hours.  So the ticks of one evening, at the hours 22
    and 23 of a UTC day and at the hours 0, 1 and 2 of the next, all ask for
    the sunset of the same date, and that date is the one the evaluation puts
    in its solar query, the first request it issues. *)
Theorem X1_one_evening_one_date (w : World) (env : Env) (m : machine) :
  getDenverDate m = (Returns (denverDay (clock m)), m) /\
  denverDay (clock m)
  = utcDay (clock m) - (if hourOf (clock m) <? 7 then 1 else 0) /\
  (forall t',
      hourOf (clock m) = 22 \/ hourOf (clock m) = 23 ->
      hourOf t' = 0 \/ hourOf t' = 1 \/ hourOf t' = 2 ->
      utcDay t' = utcDay (clock m) + 1 ->
      denverDay t' = denverDay (clock m) /\ denverDay t' = utcDay (clock m)) /\
  (forall outcome m',
      checkSunsetAndTurnOn w env m = (outcome, m') ->
      exists rest,
        issuedSince m m'
        = (clock m, SunriseSunset DENVER_LAT DENVER_LNG (denverDay (clock m)))
          :: rest).
Proof.
  split; [reflexivity|]. split; [apply denverDay_utcDay|]. split.
  - intros t' Hlate Hearly Hnext. rewrite !denverDay_utcDay, Hnext.
    destruct (Z.ltb_spec (hourOf t') 7), (Z.ltb_spec (hourOf (clock m)) 7);
      lia.
  - intros outcome m' Hrun.
    destruct (checkSunset_wire w env m outcome m' Hrun)
      as [Hwire|(sd & s & rest & _ & _ & _ & _ & Hwire & _)];
      rewrite Hwire; eexists; reflexivity.
Qed.

(** X2. The evaluation never reaches the vendor cloud unless the solar
    service answered OK with a valid sunset and the difference lies in the
    window: any run that issued a request other than its solar query had such
    an answer.  In every other case the solar query is its only request. *)
Theorem X2_no_vendor_request_outside_the_window
    (w : World) (env : Env) (m : machine)
    (outcome : Completion SunsetResult) (m' : machine) :
  checkSunsetAndTurnOn w env m = (outcome, m') ->
  (reachedVendor m m' ->
   exists sunsetData sunsetTime,
     body (sunriseSunset w (denverDay (clock m))) = Returns sunsetData /\
     status sunsetData = VStr "OK" /\
     results sunsetData = Some (mkSunsetResults (Some sunsetTime)) /\
     (-5 <= diffMinutesOf (solarArrival w m) sunsetTime
      /\ diffMinutesOf (solarArrival w m) sunsetTime <= 20)%Q) /\
  (~ reachedVendor m m' ->
   issuedSince m m' = [(clock m, solarRequest (clock m))]) /\
  (forall t req, In (t, req) (issuedSince m m') ->
     isSolarRequest req = true -> t = clock m).
Proof.
  intros Hrun.
  destruct (checkSunset_wire w env m outcome m' Hrun)
    as [Hwire|(sd & s & rest & Hsolar & Hstatus & Hresults & Hwin & Hwire
               & Hrest)].
  - split; [|split].
    + intros (t & req & Hin & Hreq). rewrite Hwire in Hin.
      destruct Hin as [Heq|[]]. injection Heq as _ <-. discriminate Hreq.
    + intros _. exact Hwire.
    + intros t req Hin _. rewrite Hwire in Hin.
      destruct Hin as [Heq|[]]. now injection Heq as <- _.
  - split; [|split].
    + intros _. exists sd, s. apply withinWindow_true in Hwin.
      repeat (split; [assumption|]). exact Hwin.
    + intros Hnot. contradiction Hnot.
      exists (solarArrival w m), (UserDevices (GOVEE_API_KEY env)).
      rewrite Hwire. split; [right; left; reflexivity | reflexivity].
    + intros t req Hin Hsol. rewrite Hwire in Hin.
      destruct Hin as [Heq|[Heq|Hin]].
      * now injection Heq as <- _.
      * injection Heq as _ <-. discriminate Hsol.
      * apply Hrest in Hin. destruct req; discriminate.
Qed.

(** X3. An evaluation that cannot read a sunset fails before it touches a
    device.  When the solar request is rejected, or the OK answer has no
    results or an invalid sunset date, [checkSunsetAndTurnOn] throws; the
    solar query is its only request and nothing is logged; the [/sunset]
    endpoint and an evening tick throw the same error. *)
Theorem X3_unreadable_sunset_throws_before_dispatch
    (w : World) (env : Env) (m : machine) :
  ((exists err, body (sunriseSunset w (denverDay (clock m))) = Throws err) \/
   (exists sunsetData,
       body (sunriseSunset w (denverDay (clock m))) = Returns sunsetData /\
       status sunsetData = VStr "OK" /\
       (results sunsetData = None \/
        results sunsetData = Some (mkSunsetResults None)))) ->
  exists err m',
    checkSunsetAndTurnOn w env m = (Throws err, m') /\
    issuedSince m m' = [(clock m, solarRequest (clock m))] /\
    console m' = console m /\
    fetch w env "/sunset" m = (Throws err, m') /\
    (eveningHour (hourOf (clock m)) -> scheduled w env m = (Throws err, m')).
Proof.
  intros Hbad.
  assert (Hthrows : exists err,
             checkSunsetAndTurnOn w env m
             = (Throws err,
                mkMachine (solarArrival w m)
                          (wire m ++ [(clock m, solarRequest (clock m))])
                          (console m))).
  { destruct Hbad as [(err & Hsolar)|(sunsetData & Hsolar & Hstatus & Hres)].
    - exists err. apply (checkSunset_unreachable w env m err Hsolar).
    - apply (checkSunset_malformed w env m sunsetData Hsolar Hstatus).
      intros sunsetTime. destruct Hres as [-> | ->]; discriminate. }
  destruct Hthrows as (err & Hrun). do 2 eexists.
  split; [exact Hrun|]. rewrite issuedSince_app.
  split; [reflexivity|]. split; [reflexivity|]. split.
  - unfold fetch. cbn [String.eqb Ascii.eqb Bool.eqb].
    unfold bind at 1. now rewrite Hrun.
  - intros Hev. rewrite (scheduled_evening w env m Hev).
    unfold bind at 1. now rewrite Hrun.
Qed.

(** *** The status report as a whole *)

(** X4. [getDeviceStatus] never throws and only reads: whatever the
    directory and the devices answer, it returns a report, writes nothing to
    the console, issues no control request and no solar query, and every
    request after the directory request is the state query of a device of the
    roster.  The [/status] endpoint therefore always answers. *)
Theorem X4_status_report_never_throws_and_only_reads
    (w : World) (env : Env) (m : machine) :
  exists report m',
    getDeviceStatus w env m = (Returns report, m') /\
    fetch w env "/status" m = (Returns (StatusJson report), m') /\
    console m' = console m /\
    clock m <= clock m' /\
    (forall t req, In (t, req) (issuedSince m m') ->
       isControlRequest req = false /\ isSolarRequest req = false) /\
    (exists queries,
        issuedSince m m'
        = (clock m, UserDevices (GOVEE_API_KEY env)) :: queries /\
        forall t req, In (t, req) queries ->
          exists devicesData d,
            body (userDevices w) = Returns devicesData /\
            In d (rosterOf devicesData) /\ req = stateRequest env d).
Proof.
  assert (Hrun : exists report m',
             getDeviceStatus w env m = (Returns report, m') /\
             console m' = console m /\ clock m <= clock m' /\
             exists queries,
               issuedSince m m'
               = (clock m, UserDevices (GOVEE_API_KEY env)) :: queries /\
               forall t req, In (t, req) queries ->
                 exists devicesData d,
                   body (userDevices w) = Returns devicesData /\
                   In d (rosterOf devicesData) /\ req = stateRequest env d).
  { destruct (body (userDevices w)) as [devicesData|err] eqn:Hdir.
    - rewrite (getDeviceStatus_run w env m devicesData Hdir).
      do 2 eexists. split; [reflexivity|]. cbn [console clock].
      split; [reflexivity|]. split.
      + pose proof (latestArrival_bound w
                      (clock m + Z.of_N (latency (userDevices w)))
                      (rosterOf devicesData)) as [Hle _]. lia.
      + rewrite issuedSince_app. eexists. split; [reflexivity|].
        intros t req Hin. apply in_map_iff in Hin.
        destruct Hin as (d & Heq & Hd). injection Heq as _ <-.
        exists devicesData, d. repeat split. exact Hd.
    - rewrite (getDeviceStatus_directory_failure w env m err Hdir).
      do 2 eexists. split; [reflexivity|]. cbn [console clock].
      split; [reflexivity|]. split; [lia|].
      rewrite issuedSince_app. exists []. split; [reflexivity|].
      intros t req []. }
  destruct Hrun as (report & m' & Hrun & Hcons & Hclock & queries & Hwire & Hq).
  exists report, m'. split; [exact Hrun|]. split.
  { unfold fetch. cbn [String.eqb Ascii.eqb Bool.eqb].
    unfold bind at 1. now rewrite Hrun. }
  split; [exact Hcons|]. split; [exact Hclock|]. split.
  - intros t req Hin. rewrite Hwire in Hin. destruct Hin as [Heq|Hin].
    + injection Heq as _ <-. split; reflexivity.
    + destruct (Hq t req Hin) as (dd & d & _ & _ & ->). split; reflexivity.
  - exists queries. split; [exact Hwire | exact Hq].
Qed.

(** *** The endpoints and the tick, whatever the devices answer *)

(** X5. The [/on] and [/off] endpoints answer [Lights ON] and [Lights OFF]
    once the directory has answered, whichever control requests were
    rejected, even all of them; their requests are the directory request and
    one power request per device with value 1 for [/on] and 0 for [/off].
    When the directory request fails the endpoint throws that error and no
    control request goes out.  Any path other than the four endpoints gets
    the list of endpoints and causes no request at all. *)
Theorem X5_endpoints_answer_whatever_the_devices_do
    (w : World) (env : Env) (m : machine) :
  (forall devicesData, body (userDevices w) = Returns devicesData ->
     (exists m',
         fetch w env "/on" m = (Returns (Text "Lights ON"), m') /\
         map snd (issuedSince m m')
         = UserDevices (GOVEE_API_KEY env)
           :: map (fun d => DeviceControl (GOVEE_API_KEY env) (sku d) (device d)
                              GOVEE_ON_OFF "powerSwitch" 1)
                  (rosterOf devicesData)) /\
     (exists m',
         fetch w env "/off" m = (Returns (Text "Lights OFF"), m') /\
         map snd (issuedSince m m')
         = UserDevices (GOVEE_API_KEY env)
           :: map (fun d => DeviceControl (GOVEE_API_KEY env) (sku d) (device d)
                              GOVEE_ON_OFF "powerSwitch" 0)
                  (rosterOf devicesData))) /\
  (forall err, body (userDevices w) = Throws err ->
     exists m',
       fetch w env "/on" m = (Throws err, m') /\
       fetch w env "/off" m = (Throws err, m') /\
       issuedSince m m' = [(clock m, UserDevices (GOVEE_API_KEY env))]) /\
  (forall pathname,
      pathname <> "/on" -> pathname <> "/off" ->
      pathname <> "/sunset" -> pathname <> "/status" ->
      fetch w env pathname m
      = (Returns (Text "Endpoints: /on, /off, /sunset, /status"), m)).
Proof.
  split; [|split].
  - intros devicesData Hdir.
    assert (Hgo : forall turnOn answer,
               (controlAllLights w env turnOn ;;; ret (Text answer)) m
               = (Returns (Text answer), snd (controlAllLights w env turnOn m))
               /\ map snd (issuedSince m (snd (controlAllLights w env turnOn m)))
                  = UserDevices (GOVEE_API_KEY env)
                    :: map (fun d => controlRequest env d turnOn)
                           (rosterOf devicesData)).
    { intros turnOn answer. unfold bind at 1.
      rewrite (controlAllLights_run w env turnOn m devicesData Hdir).
      cbn [snd]. split; [reflexivity|].
      rewrite issuedSince_app. cbn [map snd]. f_equal.
      apply map_snd_combine_same.
      now rewrite sequentialIssues_length, !length_map. }
    split.
    + destruct (Hgo true "Lights ON") as [Hrun Hwire].
      eexists. split; [exact Hrun | exact Hwire].
    + destruct (Hgo false "Lights OFF") as [Hrun Hwire].
      eexists. split; [exact Hrun | exact Hwire].
  - intros err Hdir. eexists.
    unfold fetch. cbn [String.eqb Ascii.eqb Bool.eqb].
    unfold bind.
    rewrite !(controlAllLights_directory_failure w env _ m err Hdir).
    split; [reflexivity|]. split; [reflexivity|].
    now rewrite issuedSince_app.
  - intros pathname Hon Hoff Hsunset Hstatus. unfold fetch.
    apply String.eqb_neq in Hon, Hoff, Hsunset, Hstatus.
    now rewrite Hon, Hoff, Hsunset, Hstatus.
Qed.

(** X6. A tick fails only when the directory or the solar service does,
    never because of a device.  At hour 8, once the directory has answered,
    the tick returns and ends the console with the lights-off line after one
    line per device, whichever control requests were rejected; when the
    directory request fails the tick throws that error and writes nothing.
    At an evening hour the tick returns exactly when the evaluation does and
    throws its error otherwise. *)
Theorem X6_tick_fails_only_with_directory_or_sun
    (w : World) (env : Env) (m : machine) :
  (hourOf (clock m) = 8 ->
   (forall devicesData, body (userDevices w) = Returns devicesData ->
      exists m',
        scheduled w env m = (Returns tt, m') /\
        console m'
        = (console m ++ LogFound (length (rosterOf devicesData))
                     :: map (controlLine w false) (rosterOf devicesData)
                     ++ [LogLightsOff])%list) /\
   (forall err, body (userDevices w) = Throws err ->
      exists m',
        scheduled w env m = (Throws err, m') /\
        console m' = console m /\
        issuedSince m m' = [(clock m, UserDevices (GOVEE_API_KEY env))])) /\
  (eveningHour (hourOf (clock m)) ->
   forall outcome m', checkSunsetAndTurnOn w env m = (outcome, m') ->
     scheduled w env m
     = (match outcome with
        | Returns _ => Returns tt
        | Throws err => Throws err
        end, m')).
Proof.
  split.
  - intros H8.
    assert (Hoff : scheduled w env m
                   = (controlAllLights w env false ;;; log LogLightsOff) m).
    { rewrite scheduled_by_hour. now rewrite H8. }
    split.
    + intros devicesData Hdir. rewrite Hoff. unfold bind at 1.
      rewrite (controlAllLights_run w env false m devicesData Hdir).
      unfold log. cbn [clock wire console]. eexists. split; [reflexivity|].
      rewrite <- app_assoc. reflexivity.
    + intros err Hdir. rewrite Hoff. unfold bind at 1.
      rewrite (controlAllLights_directory_failure w env false m err Hdir).
      eexists. split; [reflexivity|]. split; [reflexivity|].
      now rewrite issuedSince_app.
  - intros Hev outcome m' Hrun. rewrite (scheduled_evening w env m Hev).
    unfold bind at 1. rewrite Hrun. destruct outcome; reflexivity.
Qed.

(** *** More of the codec *)

(** X7. The decoded brightness is the state value of the first capability
    of type range and instance brightness, with null for a missing
    capability or a null or undefined value.  Unlike the scene, a brightness
    of 0 is kept as 0; the field is never undefined. *)
Theorem X7_brightness_is_the_value_or_null
    (d : Device) (caps : list Capability) :
  (forall c, find isBrightness caps = Some c ->
     type c = VStr GOVEE_RANGE /\ instance c = VStr "brightness" /\
     brightnessOf (decodeStatus d caps)
     = if nullish (stateValue (Some c)) then VNull else stateValue (Some c)) /\
  (forall c, find isBrightness caps = Some c ->
     stateValue (Some c) = VNum 0 ->
     brightnessOf (decodeStatus d caps) = VNum 0) /\
  ((forall c, In c caps ->
      type c <> VStr GOVEE_RANGE \/ instance c <> VStr "brightness") ->
   brightnessOf (decodeStatus d caps) = VNull) /\
  brightnessOf (decodeStatus d caps) <> VUndefined.
Proof.
  unfold decodeStatus. cbn [brightnessOf]. unfold coalesce.
  split; [|split; [|split]].
  - intros c Hfind. rewrite Hfind.
    apply find_some in Hfind. destruct Hfind as [_ Hc].
    unfold isBrightness in Hc. apply andb_true_iff in Hc.
    destruct Hc as [Ht Hi]. apply strictEq_true in Ht, Hi.
    repeat split; assumption.
  - intros c Hfind Hzero. rewrite Hfind, Hzero. reflexivity.
  - intros Hnone.
    assert (Hfind : find isBrightness caps = None).
    { apply find_absent. intros c Hin. unfold isBrightness.
      destruct (Hnone c Hin) as [Hne|Hne].
      - destruct (strictEq (type c) (VStr GOVEE_RANGE)) eqn:E;
          [apply strictEq_true in E; contradiction | reflexivity].
      - destruct (strictEq (instance c) (VStr "brightness")) eqn:E;
          [apply strictEq_true in E; contradiction | apply andb_false_r]. }
    rewrite Hfind. reflexivity.
  - destruct (stateValue (find isBrightness caps)); cbn; discriminate.
Qed.

Lemma wrap32_mod (n : Z) : wrap32 n mod 2 ^ 32 = n mod 2 ^ 32.
Proof.
  unfold wrap32. change (2 ^ 32) with 4294967296.
  change (2 ^ 31) with 2147483648.
  destruct (Z.geb_spec (n mod 4294967296) 2147483648);
    Z.div_mod_to_equations; lia.
Qed.

Lemma wrap32_low_bits (n i : Z) :
  0 <= i < 32 -> Z.testbit (wrap32 n) i = Z.testbit n i.
Proof.
  intros Hi.
  rewrite <- (Z.mod_pow2_bits_low (wrap32 n) 32 i) by lia.
  rewrite wrap32_mod. apply Z.mod_pow2_bits_low. lia.
Qed.

(** A byte cut out of the low 24 bits does not see the reduction to 32
    bits. *)
Lemma channel_of_wrapped (n k : Z) :
  0 <= k <= 24 ->
  Z.land (Z.shiftr (wrap32 n) k) 255 = (n / 2 ^ k) mod 256.
Proof.
  intros Hk.
  transitivity (Z.land (Z.shiftr n k) 255).
  - apply Z.bits_inj'. intros i Hi. rewrite !Z.land_spec, !Z.shiftr_spec by lia.
    change 255 with (Z.ones 8).
    destruct (Z.ltb_spec i 8).
    + rewrite wrap32_low_bits by lia. reflexivity.
    + rewrite Z.ones_spec_high by lia. now rewrite !andb_false_r.
  - change 255 with (Z.ones 8). rewrite Z.land_ones by lia.
    rewrite Z.shiftr_div_pow2 by lia. reflexivity.
Qed.

(** The channels of a number, as quotients and remainders. *)
Lemma decodeColor_number (n : Z) :
  decodeColor (VNum n)
  = Some (mkRgb ((n / 65536) mod 256) ((n / 256) mod 256) (n mod 256)).
Proof.
  unfold decodeColor. cbn [strictEq negb andb ToInt32].
  rewrite <- (Z.shiftr_0_r (wrap32 n)) at 3.
  rewrite !channel_of_wrapped by lia.
  change (2 ^ 16) with 65536. change (2 ^ 8) with 256.
  change (2 ^ 0) with 1. now rewrite Z.div_1_r.
Qed.

(** X8. The colour is absent exactly for a null or undefined value.  Any
    other value decodes to three channels between 0 and 255; for a number
    they are the three low bytes of the integer, whatever its sign or size,
    so bits above the 24th are ignored. *)
Theorem X8_color_channels_are_the_low_bytes (v : jsval) :
  (decodeColor v = None <-> v = VNull \/ v = VUndefined) /\
  (forall c, decodeColor v = Some c ->
     0 <= r c <= 255 /\ 0 <= g c <= 255 /\ 0 <= b c <= 255) /\
  (forall n,
      decodeColor (VNum n)
      = Some (mkRgb ((n / 65536) mod 256) ((n / 256) mod 256) (n mod 256)) /\
      decodeColor (VNum n) = decodeColor (VNum (n mod 16777216))).
Proof.
  split; [|split].
  - split.
    + destruct v; cbn; intros H; try discriminate H; auto.
    + intros [-> | ->]; reflexivity.
  - intros c Hc. unfold decodeColor in Hc.
    destruct (negb (strictEq v VNull) && negb (strictEq v VUndefined));
      [|discriminate Hc].
    injection Hc as <-. cbn [r g b]. repeat split; apply byte_range.
  - intros n. split; [apply decodeColor_number|].
    rewrite !decodeColor_number. do 2 f_equal.
    + Z.div_mod_to_equations. lia.
    + Z.div_mod_to_equations. lia.
    + Z.div_mod_to_equations. lia.
Qed.

(** X9. What the colour picker of the control panel packs, the status
    report unpacks: for channels between 0 and 255, the integer
    (r << 16) + (g << 8) + b is between 0 and 0xFFFFFF and decodes to the
    same three channels. *)
Theorem X9_picker_color_decodes_to_itself (c : Rgb) :
  0 <= r c <= 255 -> 0 <= g c <= 255 -> 0 <= b c <= 255 ->
  0 <= packColor c <= 0xFFFFFF /\
  packColor c = packRgb c /\
  decodeColor (VNum (packColor c)) = Some c.
Proof.
  intros Hr Hg Hb. destruct c as [cr cg cb]. cbn [r g b] in *.
  assert (Hpack : packColor (mkRgb cr cg cb) = cr * 65536 + cg * 256 + cb)
    by (apply packColor_bytes; lia).
  assert (Hdec : decodeColor (VNum (packColor (mkRgb cr cg cb)))
                 = Some (mkRgb cr cg cb)).
  { rewrite decodeColor_number, Hpack. do 2 f_equal.
    - Z.div_mod_to_equations. lia.
    - Z.div_mod_to_equations. lia.
    - Z.div_mod_to_equations. lia. }
  split; [rewrite Hpack; lia|]. split; [|exact Hdec].
  rewrite Hpack. set (v := cr * 65536 + cg * 256 + cb).
  assert (Hv : 0 <= v < 2 ^ 24)
    by (subst v; change (2 ^ 24) with 16777216; lia).
  assert (Hbyte : forall k, 0 <= k ->
            Z.land (Z.shiftr v k) 255 = (v / 2 ^ k) mod 256).
  { intros k Hk. change 255 with (Z.ones 8).
    now rewrite Z.land_ones, Z.shiftr_div_pow2 by lia. }
  assert (H16 : Z.land (Z.shiftr v 16) 255 = cr).
  { rewrite Hbyte by lia. change (2 ^ 16) with 65536. subst v.
    Z.div_mod_to_equations. lia. }
  assert (H8 : Z.land (Z.shiftr v 8) 255 = cg).
  { rewrite Hbyte by lia. change (2 ^ 8) with 256. subst v.
    Z.div_mod_to_equations. lia. }
  assert (H0 : Z.land v 255 = cb).
  { rewrite <- (Z.shiftr_0_r v) at 1. rewrite Hbyte by lia.
    change (2 ^ 0) with 1. rewrite Z.div_1_r. subst v.
    Z.div_mod_to_equations. lia. }
  rewrite <- (pack_unpack v Hv) at 1. rewrite H16, H8, H0. reflexivity.
Qed.

(** *** The window against the cadence of the tick *)

(** An evening tick whose solar reply gives a sunset and arrives inside the
    window runs the power-on fan-out. *)
Lemma scheduled_switches_on (w : World) (env : Env) (m : machine)
      (sunsetData : SunsetData) (sunsetTime : Z) :
  eveningHour (hourOf (clock m)) ->
  body (sunriseSunset w (denverDay (clock m))) = Returns sunsetData ->
  status sunsetData = VStr "OK" ->
  results sunsetData = Some (mkSunsetResults (Some sunsetTime)) ->
  withinWindow (diffMinutesOf (solarArrival w m) sunsetTime) = true ->
  switchesOn w env m.
Proof.
  intros Hev Hsolar Hstatus Hresults Hwin. unfold switchesOn.
  rewrite (scheduled_evening w env m Hev). unfold bind at 1 2 3.
  rewrite (checkSunset_ok w env m sunsetData sunsetTime
             Hsolar Hstatus Hresults).
  cbv zeta. rewrite Hwin.
  destruct (body (userDevices w)) as [devicesData|err] eqn:Hdir.
  - rewrite (controlAllLights_run w env true _ devicesData Hdir).
    unfold ret. cbn [clock wire console fst snd].
    rewrite <- app_assoc, issuedSince_app. cbn [app]. split.
    + right. left. reflexivity.
    + intros devicesData' Heq. injection Heq as <-.
      split; [reflexivity|].
      unfold switchOnRequests. cbn [map snd]. do 2 f_equal.
      rewrite map_snd_combine_same
        by now rewrite sequentialIssues_length, !length_map.
      reflexivity.
  - rewrite (controlAllLights_directory_failure w env true _ err Hdir).
    cbn [clock wire console fst snd].
    rewrite <- app_assoc, issuedSince_app. cbn [app]. split.
    + right. left. reflexivity.
    + intros devicesData Heq. discriminate Heq.
Qed.

(** A tick sends a power-on request only from the evaluation of an evening
    hour, and only when that evaluation fell inside the window. *)
Lemma power_on_request_origin (w : World) (env : Env) (m : machine)
      (t : Z) (d : Device) :
  In (t, controlRequest env d true)
     (issuedSince m (snd (scheduled w env m))) ->
  eveningHour (hourOf (clock m)) /\
  exists sunsetData sunsetTime,
    body (sunriseSunset w (denverDay (clock m))) = Returns sunsetData /\
    status sunsetData = VStr "OK" /\
    results sunsetData = Some (mkSunsetResults (Some sunsetTime)) /\
    withinWindow (diffMinutesOf (solarArrival w m) sunsetTime) = true.
Proof.
  intros Hin. rewrite scheduled_by_hour in Hin.
  destruct (hourOf (clock m) =? 8) eqn:H8.
  - exfalso. unfold bind in Hin at 1.
    destruct (body (userDevices w)) as [devicesData|err] eqn:Hdir.
    + rewrite (controlAllLights_run w env false m devicesData Hdir) in Hin.
      unfold log in Hin. cbn [clock wire console fst snd] in Hin.
      rewrite issuedSince_app in Hin.
      destruct Hin as [Heq|Hin]; [discriminate Heq|].
      apply in_combine_r in Hin. apply in_map_iff in Hin.
      destruct Hin as (d' & Heq & _). discriminate Heq.
    + rewrite (controlAllLights_directory_failure w env false m err Hdir)
        in Hin.
      cbn [clock wire console fst snd] in Hin.
      rewrite issuedSince_app in Hin.
      destruct Hin as [Heq|[]]. discriminate Heq.
  - destruct ((hourOf (clock m) >=? 22) || (hourOf (clock m) <=? 2)) eqn:E.
    + apply (eveningHour_test _ (hourOf_range (clock m))) in E.
      split; [exact E|].
      unfold bind in Hin at 1.
      destruct (checkSunsetAndTurnOn w env m) as [outcome m'] eqn:Hrun.
      assert (Hin' : In (t, controlRequest env d true) (issuedSince m m'))
        by (destruct outcome; exact Hin).
      destruct (checkSunset_wire w env m outcome m' Hrun)
        as [Hwire|(sd & s & rest & Hsolar & Hstatus & Hresults & Hwin & _)].
      * rewrite Hwire in Hin'. destruct Hin' as [Heq|[]]. discriminate Heq.
      * exists sd, s. repeat (split; [assumption|]). exact Hwin.
    + exfalso. cbn [snd] in Hin. unfold issuedSince in Hin.
      rewrite skipn_all in Hin. destruct Hin.
Qed.

(** X10. The window against the cadence of the tick.  Suppose that for
    every instant from 5 minutes before a sunset to 20 minutes after it less
    the longest solar latency, the hour is an evening hour of the tick and
    the solar service answers OK with that sunset within that latency.  Then
    every tick that starts at such an instant runs the power-on fan-out: its
    directory request leaves when the solar reply arrives and, when the
    directory answers, every device gets its power-on request.  Nothing
    remembers an earlier tick, so two ticks in a row may both do so.  When
    the period of the ticks and the longest latency together are at most 25
    minutes, the ticks cannot step over the window: whatever their phase,
    one of them switches the lights on.  And in any world, no tick sends a
    power-on request unless its hour is an evening hour and its evaluation
    fell inside the window of the sunset it was given. *)
Theorem X10_some_tick_in_the_window_switches_the_lights_on
    (w : World) (env : Env) (sunsetTime t0 period maxLatency : Z) :
  0 < period ->
  period + maxLatency <= 1500000 ->
  (forall t,
      sunsetTime - 300000 <= t <= sunsetTime + 1200000 - maxLatency ->
      eveningHour (hourOf t) /\
      Z.of_N (latency (sunriseSunset w (denverDay t))) <= maxLatency /\
      exists sunsetData,
        body (sunriseSunset w (denverDay t)) = Returns sunsetData /\
        status sunsetData = VStr "OK" /\
        results sunsetData = Some (mkSunsetResults (Some sunsetTime))) ->
  (forall m,
      sunsetTime - 300000 <= clock m <= sunsetTime + 1200000 - maxLatency ->
      switchesOn w env m) /\
  (exists k,
      sunsetTime - 300000 <= t0 + period * k
                          <= sunsetTime + 1200000 - maxLatency /\
      forall m, clock m = t0 + period * k -> switchesOn w env m) /\
  (forall m t d,
      In (t, controlRequest env d true)
         (issuedSince m (snd (scheduled w env m))) ->
      eveningHour (hourOf (clock m)) /\
      exists sunsetData s,
        body (sunriseSunset w (denverDay (clock m))) = Returns sunsetData /\
        status sunsetData = VStr "OK" /\
        results sunsetData = Some (mkSunsetResults (Some s)) /\
        withinWindow (diffMinutesOf (solarArrival w m) s) = true).
Proof.
  intros Hperiod Hcadence Hevening.
  assert (Hon : forall m,
             sunsetTime - 300000 <= clock m
                                 <= sunsetTime + 1200000 - maxLatency ->
             switchesOn w env m).
  { intros m Hm.
    destruct (Hevening (clock m) Hm)
      as (Hev & Hlat & sunsetData & Hsolar & Hstatus & Hresults).
    apply (scheduled_switches_on w env m sunsetData sunsetTime
             Hev Hsolar Hstatus Hresults).
    rewrite withinWindow_ms. unfold solarArrival.
    pose proof (N2Z.is_nonneg
                  (latency (sunriseSunset w (denverDay (clock m))))).
    apply andb_true_iff. rewrite !Z.leb_le. lia. }
  split; [exact Hon|]. split.
  - set (k := (sunsetTime - 300000 - t0 + period - 1) / period).
    assert (Hk : sunsetTime - 300000 <= t0 + period * k
                 <= sunsetTime + 1200000 - maxLatency).
    { pose proof (Z.div_mod (sunsetTime - 300000 - t0 + period - 1) period)
        as Hdiv.
      pose proof (Z.mod_pos_bound (sunsetTime - 300000 - t0 + period - 1)
                    period Hperiod) as Hmod.
      fold k in Hdiv. lia. }
    exists k. split; [exact Hk|].
    intros m Hm. apply Hon. rewrite Hm. exact Hk.
  - intros m t d. apply power_on_request_origin.
Qed.

End Worker.

(** ** The claims at concrete inputs *)

(** C3, as stated, fails on a roster of two devices: the value handed back
    is undefined, not a sequence of two outcomes. *)
Lemma C3_counterexample_returns_undefined :
  rosterOf (mkDevicesData (Some [porch; strip])) = [porch; strip] /\
  fst (controlAllLights exampleWorld exampleEnv true (idle 0)) = Returns None /\
  ~ (exists outcomes : list Outcome,
        fst (controlAllLights exampleWorld exampleEnv true (idle 0))
        = Returns (Some outcomes) /\
        length outcomes = length [porch; strip]).
Proof.
  split; [reflexivity|]. split; [reflexivity|].
  intros (outcomes & Hret & _). discriminate Hret.
Qed.

(** C9, as stated, fails for the fan-out: with the porch light answering
    after five seconds, the request to the strip leaves five seconds after
    the one to the porch light, so the two are never in flight together. *)
Lemma C9_counterexample_controls_wait_for_each_other :
  issuedSince (idle 0)
    (snd (controlAllLights exampleWorld exampleEnv true (idle 0)))
  = [ (0, UserDevices "key");
      (50, controlRequest exampleEnv porch true);
      (5050, controlRequest exampleEnv strip true) ] /\
  ~ inFlightTogether
      (issuedSince (idle 0)
         (snd (controlAllLights exampleWorld exampleEnv true (idle 0)))).
Proof.
  assert (Hwire : issuedSince (idle 0)
            (snd (controlAllLights exampleWorld exampleEnv true (idle 0)))
          = [ (0, UserDevices "key");
              (50, controlRequest exampleEnv porch true);
              (5050, controlRequest exampleEnv strip true) ])
    by reflexivity.
  split; [exact Hwire|]. rewrite Hwire. intros Htogether.
  specialize (Htogether 50 (controlRequest exampleEnv porch true)
                        5050 (controlRequest exampleEnv strip true)).
  assert (Habs : 50 = 5050).
  { apply Htogether; cbn; auto. }
  discriminate Habs.
Qed.

(** *** The theorems at the example worlds *)

(** Two minutes before sunset the evaluation triggers. *)
Lemma C1_witness_two_minutes_before_sunset :
  body (sunriseSunset exampleWorld (denverDay (clock twoMinutesBefore)))
  = Returns (mkSunsetData (VStr "OK")
               (Some (mkSunsetResults (Some exampleSunset)))) /\
  (diffMinutesOf (solarArrival exampleWorld twoMinutesBefore) exampleSunset
   == -2)%Q /\
  exists m',
    checkSunsetAndTurnOn exampleWorld exampleEnv twoMinutesBefore
    = (Returns (SunsetTriggered exampleSunset
                  (diffMinutesOf (solarArrival exampleWorld twoMinutesBefore)
                                 exampleSunset)), m').
Proof.
  split; [reflexivity|]. split; [reflexivity|].
  destruct (C1_triggered_iff_within_window exampleWorld exampleEnv
              twoMinutesBefore _ exampleSunset eq_refl eq_refl eq_refl)
    as (_ & _ & Hin & _).
  apply Hin with (devicesData := mkDevicesData (Some [porch; strip])).
  - split; unfold Qle; cbn; lia.
  - reflexivity.
Defined.

(** A tick during UTC hour 1, two minutes before sunset, switches both
    lights on; a tick at 08:00 UTC switches them off. *)
Lemma C2_witness_evening_and_lights_off_ticks :
  hourOf (clock twoMinutesBefore) = 1 /\
  (exists m', scheduled exampleWorld exampleEnv twoMinutesBefore
              = (Returns tt, m')) /\
  hourOf (clock (idle (8 * 3600000))) = 8 /\
  (exists m',
      scheduled exampleWorld exampleEnv (idle (8 * 3600000)) = (Returns tt, m') /\
      map snd (issuedSince (idle (8 * 3600000)) m')
      = [ UserDevices "key";
          DeviceControl "key" "H6008" "AA:01" GOVEE_ON_OFF "powerSwitch" 0;
          DeviceControl "key" "H6159" "BB:02" GOVEE_ON_OFF "powerSwitch" 0 ]).
Proof.
  split; [reflexivity|]. split; [|split; [reflexivity|]].
  - destruct (C2_tick_acts_on_the_hour exampleWorld exampleEnv twoMinutesBefore)
      as (_ & _ & _ & Hevening & _).
    destruct Hevening as [_ Hrun].
    + unfold eveningHour. right. right. right. left. reflexivity.
    + pose (run := checkSunsetAndTurnOn exampleWorld exampleEnv
                     twoMinutesBefore).
      exists (snd run).
      apply (Hrun (SunsetTriggered exampleSunset
                     (diffMinutesOf (solarArrival exampleWorld twoMinutesBefore)
                                    exampleSunset))
                  (snd run)).
      vm_compute. reflexivity.
  - destruct (C2_tick_acts_on_the_hour exampleWorld exampleEnv
                (idle (8 * 3600000))) as (_ & _ & Hoff & _).
    destruct (Hoff eq_refl) as (_ & _ & Hreqs).
    exact (Hreqs (mkDevicesData (Some [porch; strip])) eq_refl).
Defined.

(** The fan-out over the example roster: both requests go out although the
    first is rejected, and nothing is handed back. *)
Lemma C3_witness_both_devices_requested :
  body (userDevices exampleWorld)
  = Returns (mkDevicesData (Some [porch; strip])) /\
  exists m',
    controlAllLights exampleWorld exampleEnv true (idle 0) = (Returns None, m') /\
    map snd (issuedSince (idle 0) m')
    = [ UserDevices "key"; controlRequest exampleEnv porch true;
        controlRequest exampleEnv strip true ] /\
    console m'
    = [ LogFound 2; LogControlFailed "Porch" "fetch failed";
        LogSwitched true "Strip" ].
Proof.
  split; [reflexivity|].
  destruct (C3_fan_out_isolation_without_outcomes exampleWorld exampleEnv true
              (idle 0) (mkDevicesData (Some [porch; strip])) eq_refl)
    as (m' & Hrun & Hreqs & Hcons & _).
  exists m'. split; [exact Hrun|]. split; [exact Hreqs|exact Hcons].
Defined.

(** The colour 0x123456 decodes to (0x12, 0x34, 0x56) and packs back; a
    device that lists the colour capability after its power switch reports
    these channels, a device without it reports no colour. *)
Lemma C4_witness_0x123456 :
  0 <= 0x123456 <= 0xFFFFFF /\
  decodeColor notANumber (VNum 0x123456) = Some (mkRgb 0x12 0x34 0x56) /\
  packRgb (mkRgb 0x12 0x34 0x56) = 0x123456 /\
  colorOf (decodeStatus notANumber strip
             [powerCapability (VNum 1); colorCapability (VNum 0x123456);
              sceneCapability (VNum 7)])
  = Some (mkRgb 0x12 0x34 0x56) /\
  colorOf (decodeStatus notANumber strip [powerCapability (VNum 1)]) = None.
Proof.
  split; [lia|].
  destruct (C4_color_round_trip notANumber 0x123456)
    as (Hdec & Hpack & Hlisted & Hmissing); [lia|].
  split; [exact Hdec|]. split; [exact (proj1 (Hpack _ eq_refl))|]. split.
  - destruct (Hlisted strip [powerCapability (VNum 1)]
                [sceneCapability (VNum 7)] (colorCapability (VNum 0x123456)))
      as (Hcolor & _); [|reflexivity|reflexivity|exact Hcolor].
    intros c [<-|[]]. discriminate.
  - apply Hmissing. intros c [<-|[]]. discriminate.
Defined.

(** A switch reporting 1 is ON; one reporting [true] is OFF; no switch is
    OFF. *)
Lemma C5_witness_one_true_and_missing :
  powerOf (decodeStatus notANumber strip stripCapabilities) = Some "ON" /\
  powerOf (decodeStatus notANumber strip [powerCapability (VBool true)])
  = Some "OFF" /\
  powerOf (decodeStatus notANumber strip [colorCapability (VNum 255)])
  = Some "OFF".
Proof.
  split; [|split].
  - apply (C5_power_is_literal_one notANumber strip stripCapabilities).
    exists (powerCapability (VNum 1)), (mkCapState (VNum 1)).
    repeat split.
  - destruct (C5_power_is_literal_one notANumber strip
                [powerCapability (VBool true)]) as (_ & _ & Htruthy & _).
    apply (Htruthy (powerCapability (VBool true)) (VBool true));
      try reflexivity. discriminate.
  - destruct (C5_power_is_literal_one notANumber strip
                [colorCapability (VNum 255)]) as (_ & _ & _ & Hmissing).
    apply Hmissing. intros c [<-|[]]. discriminate.
Defined.

(** A failing solar service: the error object comes back and only the solar
    query went out. *)
Lemma C6_witness_invalid_request :
  status (mkSunsetData (VStr "INVALID_REQUEST") None) <> VStr "OK" /\
  exists result m',
    checkSunsetAndTurnOn cloudyWorld exampleEnv twoMinutesBefore
    = (Returns result, m') /\
    errorOf result = Some "Failed to fetch sunset" /\
    issuedSince twoMinutesBefore m'
    = [(clock twoMinutesBefore, solarRequest (clock twoMinutesBefore))] /\
    scheduled cloudyWorld exampleEnv twoMinutesBefore = (Returns tt, m').
Proof.
  assert (Hne : status (mkSunsetData (VStr "INVALID_REQUEST") None)
                <> VStr "OK") by discriminate.
  split; [exact Hne|].
  destruct (C6_solar_failure_dispatches_nothing notANumber cloudyWorld
              exampleEnv twoMinutesBefore _ eq_refl Hne)
    as (result & m' & Hrun & Herr & _ & Hwire & _ & _ & Htick).
  exists result, m'. split; [exact Hrun|]. split; [exact Herr|].
  split; [exact Hwire|].
  apply Htick. unfold eveningHour. right. right. right. left. reflexivity.
Defined.

(** The porch query fails and the strip reports power on at brightness 80:
    two entries, the first with the error, the second decoded; an unreachable
    directory gives the top-level error. *)
Lemma C7_witness_one_failure_one_success :
  (exists t m',
      getDeviceStatus notANumber exampleWorld exampleEnv (idle 0)
      = (Returns (Report [ Errored "Porch" "H6008" "fetch failed";
                           Decoded "Strip" "H6159" "ON" (VNum 80) None VNull ]
                         t), m')) /\
  (exists t m',
      getDeviceStatus notANumber offlineWorld exampleEnv (idle 0)
      = (Returns (ReportError "fetch failed" t), m')).
Proof.
  split.
  - destruct (C7_status_failures_are_isolated notANumber exampleWorld
                exampleEnv (idle 0)) as [Hroster _].
    destruct (Hroster (mkDevicesData (Some [porch; strip])) eq_refl)
      as (entries & t & m' & Hrun & Hlen & Hnth).
    exists t, m'. rewrite Hrun. do 3 f_equal.
    destruct (Hnth 0%nat porch eq_refl) as (e0 & H0 & Hfail & _).
    destruct (Hnth 1%nat strip eq_refl) as (e1 & H1 & _ & Hok).
    destruct (Hfail "fetch failed" eq_refl) as (-> & _).
    destruct (Hok _ eq_refl) as (-> & _).
    destruct entries as [|a [|b [|c rest]]]; try discriminate Hlen.
    cbn in H0, H1. injection H0 as ->. injection H1 as ->. reflexivity.
  - destruct (C7_status_failures_are_isolated notANumber offlineWorld
                exampleEnv (idle 0)) as [_ Hdir].
    exact (Hdir "fetch failed" eq_refl).
Defined.

(** A directory payload without [data]: an empty report, a fan-out that ends
    after the directory request. *)
Lemma C8_witness_payload_without_data :
  rosterOf (mkDevicesData None) = [] /\
  (exists t m',
      getDeviceStatus notANumber emptyWorld exampleEnv (idle 0)
      = (Returns (Report [] t), m')) /\
  (exists m',
      controlAllLights emptyWorld exampleEnv true (idle 0) = (Returns None, m') /\
      issuedSince (idle 0) m' = [(0, UserDevices "key")]).
Proof.
  destruct (C8_missing_device_array_is_empty_roster notANumber emptyWorld
              exampleEnv (idle 0) (mkDevicesData None)) as [Hroster Hcallers].
  split; [exact (Hroster eq_refl)|].
  destruct (Hcallers eq_refl eq_refl) as (Hctl & Hst & _).
  split; [exact Hst|exact (Hctl true)].
Defined.

(** The example roster: both state queries leave at 50 ms and the report
    returns at 5050 ms; the control requests leave at 50 ms and 5050 ms. *)
Lemma C9_witness_issue_instants :
  body (userDevices exampleWorld)
  = Returns (mkDevicesData (Some [porch; strip])) /\
  (exists report m',
      getDeviceStatus notANumber exampleWorld exampleEnv (idle 0)
      = (Returns report, m') /\
      issuedSince (idle 0) m'
      = [ (0, UserDevices "key"); (50, stateRequest exampleEnv porch);
          (50, stateRequest exampleEnv strip) ] /\
      clock m' = 5050) /\
  (exists m',
      controlAllLights exampleWorld exampleEnv true (idle 0) = (Returns None, m') /\
      issuedSince (idle 0) m'
      = [ (0, UserDevices "key"); (50, controlRequest exampleEnv porch true);
          (5050, controlRequest exampleEnv strip true) ] /\
      clock m' = 5150).
Proof.
  split; [reflexivity|].
  destruct (C9_queries_together_controls_in_turn notANumber exampleWorld
              exampleEnv true (idle 0) (mkDevicesData (Some [porch; strip]))
              eq_refl) as [Hstatus Hcontrol].
  split.
  - destruct Hstatus as (report & m' & Hrun & Hwire & _ & Hclock & _).
    exists report, m'. split; [exact Hrun|]. split; [exact Hwire|exact Hclock].
  - destruct Hcontrol as (m' & Hrun & Hwire & _ & Hclock).
    exists m'. split; [exact Hrun|]. split; [exact Hwire|exact Hclock].
Defined.

(** A null colour is absent, the colour 0 is black, the scene 0 is absent. *)
Lemma C10_witness_null_zero_and_scene :
  colorOf (decodeStatus notANumber strip
             [colorCapability VNull; sceneCapability (VNum 0)]) = None /\
  colorOf (decodeStatus notANumber strip
             [colorCapability (VNum 0); sceneCapability (VNum 0)])
  = Some (mkRgb 0 0 0) /\
  sceneOf (decodeStatus notANumber strip
             [colorCapability (VNum 0); sceneCapability (VNum 0)]) = VNull.
Proof.
  split; [|split].
  - destruct (C10_null_color_absent_zero_is_black notANumber strip
                [colorCapability VNull; sceneCapability (VNum 0)]
                (colorCapability VNull) eq_refl) as (Hnull & _).
    apply Hnull. left. reflexivity.
  - destruct (C10_null_color_absent_zero_is_black notANumber strip
                [colorCapability (VNum 0); sceneCapability (VNum 0)]
                (colorCapability (VNum 0)) eq_refl) as (_ & Hzero & _).
    apply Hzero. reflexivity.
  - destruct (C10_null_color_absent_zero_is_black notANumber strip
                [colorCapability (VNum 0); sceneCapability (VNum 0)]
                (colorCapability (VNum 0)) eq_refl) as (_ & _ & Hscene).
    destruct (Hscene (sceneCapability (VNum 0)) eq_refl) as (_ & Hzero & _).
    apply Hzero. reflexivity.
Defined.

(** ** The proxy server *)

Lemma scenesStep_scenes (cloud : Proxy.Cloud) (key : string)
      (st : Proxy.Served) (d : Device) (k : string) :
  Proxy.scenes (Proxy.scenesStep cloud key st d) k
  = match Proxy.offered cloud d with
    | Some v => Proxy.assign (Proxy.scenes st) (device d) v k
    | None => Proxy.scenes st k
    end.
Proof.
  unfold Proxy.scenesStep, Proxy.offered.
  destruct (Proxy.deviceScenes cloud d) as [scenesData|message];
    [|reflexivity].
  destruct (Proxy.lightScenesOf scenesData) as [lightScenes|]; [|reflexivity].
  destruct (Proxy.parameters lightScenes); reflexivity.
Qed.

Lemma scenesStep_sent (cloud : Proxy.Cloud) (key : string)
      (st : Proxy.Served) (d : Device) :
  Proxy.sent (Proxy.scenesStep cloud key st d)
  = (Proxy.sent st ++ [Proxy.scenesRequest key d])%list /\
  Proxy.logged (Proxy.scenesStep cloud key st d)
  = (Proxy.logged st ++ Proxy.complaint cloud d)%list.
Proof.
  unfold Proxy.scenesStep, Proxy.complaint.
  destruct (Proxy.deviceScenes cloud d) as [scenesData|message];
    [|split; reflexivity].
  destruct (Proxy.lightScenesOf scenesData) as [lightScenes|];
    [|split; [reflexivity | now rewrite app_nil_r]].
  destruct (Proxy.parameters lightScenes);
    split; try reflexivity; now rewrite app_nil_r.
Qed.

Lemma scenes_loop_sent (cloud : Proxy.Cloud) (key : string)
      (devices : list Device) :
  forall st,
    Proxy.sent (fold_left (Proxy.scenesStep cloud key) devices st)
    = (Proxy.sent st ++ map (Proxy.scenesRequest key) devices)%list /\
    Proxy.logged (fold_left (Proxy.scenesStep cloud key) devices st)
    = (Proxy.logged st ++ flat_map (Proxy.complaint cloud) devices)%list.
Proof.
  induction devices as [|d rest IH]; intros st; cbn [fold_left map flat_map].
  - now rewrite !app_nil_r.
  - destruct (IH (Proxy.scenesStep cloud key st d)) as [Hsent Hlog].
    destruct (scenesStep_sent cloud key st d) as [Hs Hl].
    rewrite Hsent, Hlog, Hs, Hl, <- !app_assoc. split; reflexivity.
Qed.

(** An identifier that no device of the list carries keeps its entry. *)
Lemma scenes_loop_other (cloud : Proxy.Cloud) (key : string)
      (devices : list Device) (k : string) :
  ~ In k (map device devices) ->
  forall st,
    Proxy.scenes (fold_left (Proxy.scenesStep cloud key) devices st) k
    = Proxy.scenes st k.
Proof.
  induction devices as [|d rest IH]; intros Hnot st; cbn [fold_left];
    [reflexivity|].
  cbn [map In] in Hnot. rewrite IH by tauto. rewrite scenesStep_scenes.
  destruct (Proxy.offered cloud d); [|reflexivity].
  unfold Proxy.assign. destruct (device d =? "__proto__")%string;
    [reflexivity|].
  destruct (String.eqb_spec k (device d)) as [->|]; [tauto | reflexivity].
Qed.

(** With distinct identifiers, the entry of a device of the list is what
    its own turn assigned. *)
Lemma scenes_loop_own (cloud : Proxy.Cloud) (key : string)
      (devices : list Device) (d : Device) :
  NoDup (map device devices) -> In d devices ->
  device d <> "__proto__" ->
  forall st,
    Proxy.scenes (fold_left (Proxy.scenesStep cloud key) devices st) (device d)
    = match Proxy.offered cloud d with
      | Some v => v
      | None => Proxy.scenes st (device d)
      end.
Proof.
  intros Hdistinct Hin Hplain. apply String.eqb_neq in Hplain.
  induction devices as [|a rest IH]; intros st; [destruct Hin|].
  cbn [map] in Hdistinct. inversion Hdistinct as [|x l Hfresh Hrest]; subst.
  cbn [fold_left]. destruct Hin as [->|Hin].
  - rewrite (scenes_loop_other cloud key rest (device d) Hfresh).
    rewrite scenesStep_scenes. unfold Proxy.assign.
    rewrite Hplain, String.eqb_refl.
    destruct (Proxy.offered cloud d); reflexivity.
  - rewrite (IH Hrest Hin). rewrite scenesStep_scenes.
    destruct (Proxy.offered cloud d) as [v|]; [reflexivity|].
    destruct (Proxy.offered cloud a); [|reflexivity].
    unfold Proxy.assign. destruct (device a =? "__proto__")%string;
      [reflexivity|].
    destruct (String.eqb_spec (device d) (device a)) as [Heq|]; [|reflexivity].
    contradiction Hfresh. rewrite <- Heq. now apply in_map.
Qed.

(** X11. The device route of the proxy isolates the failures of the scene
    queries.  Once the directory has answered, the route answers with the
    roster as it came and sends one scene query per device, in roster order,
    whichever of them fail; every failure leaves one error line and no
    entry for the device.  With distinct device identifiers the scenes
    served for a device are the options of its own light-scene capability,
    and absent when its query failed or listed no such capability; an
    identifier outside the roster has no scenes.  When the directory request
    fails, the route answers with status 500 and the message, and sends no
    scene query. *)
Theorem X11_proxy_devices_route_isolates_scene_failures
    (cloud : Proxy.Cloud) (key : string) :
  (forall devicesData, Proxy.userDevices cloud = Returns devicesData ->
     let devices := rosterOf devicesData in
     exists table st,
       Proxy.apiDevices cloud key = (Proxy.DevicesJson devices table, st) /\
       Proxy.sent st
       = Proxy.ListDevices key :: map (Proxy.scenesRequest key) devices /\
       Proxy.logged st = flat_map (Proxy.complaint cloud) devices /\
       (forall k, ~ In k (map device devices) -> table k = None) /\
       (NoDup (map device devices) ->
        forall d, In d devices -> device d <> "__proto__" ->
          table (device d)
          = match Proxy.offered cloud d with
            | Some v => v
            | None => None
            end) /\
       (forall d message,
           Proxy.deviceScenes cloud d = Throws message ->
           Proxy.offered cloud d = None /\
           Proxy.complaint cloud d
           = [Proxy.FailedScenes (deviceName d) message])) /\
  (forall message, Proxy.userDevices cloud = Throws message ->
     exists st,
       Proxy.apiDevices cloud key = (Proxy.Status500 message, st) /\
       Proxy.sent st = [Proxy.ListDevices key] /\
       Proxy.logged st = [Proxy.FailedDevices message]).
Proof.
  split.
  - intros devicesData Hdir devices. unfold Proxy.apiDevices. rewrite Hdir.
    fold devices. do 2 eexists. split; [reflexivity|].
    destruct (scenes_loop_sent cloud key devices
                (Proxy.mkServed (fun _ => None) [Proxy.ListDevices key] []))
      as [Hsent Hlog].
    split; [exact Hsent|]. split; [exact Hlog|]. split; [|split].
    + intros k Hk. now rewrite scenes_loop_other.
    + intros Hdistinct d Hd Hplain. now rewrite scenes_loop_own.
    + intros d message Hfail. unfold Proxy.offered, Proxy.complaint.
      now rewrite Hfail.
  - intros message Hdir. unfold Proxy.apiDevices. rewrite Hdir.
    eexists. repeat split.
Qed.

(** ** The scene buttons of the control panel *)

Lemma fold_left_prefix_invariant {A S : Type} (f : S -> A -> S) (l : list A)
      (P : list A -> S -> Prop) (s0 : S) :
  P [] s0 ->
  (forall done x rest s,
      l = (done ++ x :: rest)%list -> P done s -> P (done ++ [x])%list (f s x)) ->
  P l (fold_left f l s0).
Proof.
  intros Hstart Hstep.
  assert (Hgen : forall rest done s,
             l = (done ++ rest)%list -> P done s -> P l (fold_left f rest s)).
  { induction rest as [|x rest IH]; intros done s Hl Hp; cbn [fold_left].
    - rewrite app_nil_r in Hl. now subst.
    - apply (IH (done ++ [x])%list).
      + rewrite <- app_assoc. exact Hl.
      + now apply (Hstep done x rest). }
  now apply (Hgen l []).
Qed.

Lemma setHas_In (s : list string) (x : string) :
  Panel.setHas s x = true <-> In x s.
Proof.
  unfold Panel.setHas. rewrite existsb_exists. split.
  - intros (y & Hy & Heq). apply String.eqb_eq in Heq. now subst.
  - intros Hx. exists x. split; [exact Hx | apply String.eqb_refl].
Qed.

Lemma setAdd_all (l : list string) :
  forall acc,
    (forall x, In x (fold_left Panel.setAdd l acc) <-> In x acc \/ In x l) /\
    (NoDup acc -> NoDup (fold_left Panel.setAdd l acc)).
Proof.
  induction l as [|a rest IH]; intros acc; cbn [fold_left].
  - split; [intros x; cbn; tauto | auto].
  - destruct (IH (Panel.setAdd acc a)) as [Hin Hnd].
    assert (Hadd : forall x, In x (Panel.setAdd acc a) <-> In x acc \/ x = a).
    { intros x. unfold Panel.setAdd.
      destruct (Panel.setHas acc a) eqn:E.
      - apply setHas_In in E. split; [tauto|]. intros [H| ->]; assumption.
      - rewrite in_app_iff. cbn. intuition. }
    split.
    + intros x. rewrite Hin, Hadd. cbn. intuition.
    + intros Hacc. apply Hnd. unfold Panel.setAdd.
      destruct (Panel.setHas acc a) eqn:E; [exact Hacc|].
      assert (Hfresh : ~ In a acc)
        by (intros Hi; apply setHas_In in Hi; congruence).
      apply NoDup_app; [exact Hacc | constructor; [intros [] | constructor] |].
      intros x Hx [<-|[]]. contradiction.
Qed.

Lemma newSet_has (l : list string) (x : string) :
  Panel.setHas (Panel.newSet l) x = existsb (String.eqb x) l.
Proof.
  apply Bool.eq_iff_eq_true. rewrite setHas_In.
  unfold Panel.newSet. rewrite (proj1 (setAdd_all l [])).
  change (existsb (String.eqb x) l) with (Panel.setHas l x).
  rewrite setHas_In. cbn. tauto.
Qed.

(** The first loop: every device of the roster gets the set of its scene
    names, and [allSceneNames] collects each listed name once. *)
Lemma gather_keeps (scenes : string -> option (list Proxy.SceneOption))
      (l : list Device) (k : string) :
  forall st,
    Panel.deviceSceneSets st k = Some (Panel.newSet (namesAt scenes k)) ->
    Panel.deviceSceneSets (fold_left (Panel.gather scenes) l st) k
    = Some (Panel.newSet (namesAt scenes k)).
Proof.
  induction l as [|a rest IH]; intros st Hst; cbn [fold_left]; [exact Hst|].
  apply IH. unfold Panel.gather. cbn [Panel.deviceSceneSets].
  destruct (String.eqb_spec k (device a)) as [->|]; [reflexivity | exact Hst].
Qed.

Lemma gather_loop (scenes : string -> option (list Proxy.SceneOption))
      (l : list Device) :
  forall st,
    (forall d, In d l ->
       Panel.deviceSceneSets (fold_left (Panel.gather scenes) l st) (device d)
       = Some (Panel.newSet (namesAt scenes (device d)))) /\
    (forall n,
        In n (Panel.allSceneNames (fold_left (Panel.gather scenes) l st))
        <-> In n (Panel.allSceneNames st)
            \/ exists d, In d l /\ In n (namesAt scenes (device d))) /\
    (NoDup (Panel.allSceneNames st) ->
     NoDup (Panel.allSceneNames (fold_left (Panel.gather scenes) l st))).
Proof.
  induction l as [|a rest IH]; intros st; cbn [fold_left].
  - split; [intros d []|]. split; [|auto].
    intros n. split; [tauto|]. intros [H|(d & [] & _)]. exact H.
  - destruct (IH (Panel.gather scenes st a)) as (Hsets & Hall & Hnd).
    split; [|split].
    + intros d [->|Hd]; [|now apply Hsets].
      apply gather_keeps. unfold Panel.gather. cbn [Panel.deviceSceneSets].
      now rewrite String.eqb_refl.
    + intros n. rewrite Hall. unfold Panel.gather at 1.
      cbn [Panel.allSceneNames].
      rewrite (proj1 (setAdd_all _ _)).
      unfold Panel.newSet. rewrite (proj1 (setAdd_all _ [])).
      fold (namesAt scenes (device a)). cbn [In]. split.
      * intros [[H|[[]|H]]|(d & Hd & Hn)].
        -- now left.
        -- right. exists a. split; [now left | exact H].
        -- right. exists d. split; [now right | exact Hn].
      * intros [H|(d & [->|Hd] & Hn)].
        -- left. now left.
        -- left. right. now right.
        -- right. exists d. now split.
    + intros Hst. apply Hnd. unfold Panel.gather. cbn [Panel.allSceneNames].
      now apply (proj2 (setAdd_all _ _)).
Qed.

Lemma has_offers (scenes : string -> option (list Proxy.SceneOption))
      (roster : list Device) (d : Device) (n : string) :
  In d roster ->
  Panel.has (Panel.deviceSceneSets
               (fold_left (Panel.gather scenes) roster
                          (Panel.mkGathered (fun _ => None) []))) d n
  = Panel.offers scenes d n.
Proof.
  intros Hd. unfold Panel.has.
  rewrite (proj1 (gather_loop scenes roster _) d Hd).
  apply newSet_has.
Qed.

Lemma offers_In (scenes : string -> option (list Proxy.SceneOption))
      (d : Device) (n : string) :
  Panel.offers scenes d n = true <-> In n (namesAt scenes (device d)).
Proof. apply setHas_In. Qed.

Lemma filter_keeps_all {A} (f : A -> bool) (l : list A) :
  length (filter f l) = length l <-> forall x, In x l -> f x = true.
Proof.
  induction l as [|a rest IH]; cbn [filter length In].
  - split; [intros _ x [] | reflexivity].
  - pose proof (filter_length_le f rest) as Hle.
    destruct (f a) eqn:E; cbn [length].
    + split.
      * intros Hlen x [<-|Hx]; [exact E|]. apply IH; [lia | exact Hx].
      * intros Hall. f_equal. apply IH. intros x Hx. apply Hall. now right.
    + split; [lia|]. intros Hall.
      specialize (Hall a (or_introl eq_refl)). congruence.
Qed.

Lemma everyDeviceOffers_all (roster : list Device)
      (scenes : string -> option (list Proxy.SceneOption)) (n : string) :
  everyDeviceOffers roster scenes n = true
  <-> forall d, In d roster -> Panel.offers scenes d n = true.
Proof.
  unfold everyDeviceOffers, withScene. rewrite Nat.eqb_eq.
  apply filter_keeps_all.
Qed.

Lemma named_In (l : list Panel.SceneGroup) (n : string) :
  existsb (fun s => (Panel.name s =? n)%string) l = true
  <-> In n (map Panel.name l).
Proof.
  rewrite existsb_exists, in_map_iff. split.
  - intros (g & Hg & Heq). apply String.eqb_eq in Heq. now exists g.
  - intros (g & Heq & Hg). exists g. split; [exact Hg|].
    now apply String.eqb_eq.
Qed.

(** One turn of the inner loop: the entry of the device's category ends with
    a button for the scene, added only if there was none; nothing else
    changes. *)
Lemma place_effect (n : string) (ws : list Device) (st : Panel.Grouped)
      (d : Device) :
  let st' := Panel.place n ws st d in
  let old := Panel.orEmpty (Panel.deviceSpecificScenes st (categoryOf d)) in
  Panel.commonScenes st' = Panel.commonScenes st /\
  (forall k, k <> categoryOf d ->
     Panel.deviceSpecificScenes st' k = Panel.deviceSpecificScenes st k) /\
  Panel.categories st'
  = match Panel.deviceSpecificScenes st (categoryOf d) with
    | Some _ => Panel.categories st
    | None => (Panel.categories st ++ [categoryOf d])%list
    end /\
  ((In n (map Panel.name old) /\
    Panel.deviceSpecificScenes st' (categoryOf d) = Some old) \/
   (~ In n (map Panel.name old) /\
    Panel.deviceSpecificScenes st' (categoryOf d)
    = Some (old ++ [Panel.mkSceneGroup n
                      (filter (fun dev => (categoryOf dev =? categoryOf d)%string)
                              ws)])%list)).
Proof.
  intros st' old. subst st'. unfold Panel.place. fold (categoryOf d).
  fold old.
  destruct (existsb (fun s => (Panel.name s =? n)%string) old) eqn:E;
    cbn [Panel.commonScenes Panel.categories Panel.deviceSpecificScenes].
  - apply named_In in E. split; [reflexivity|]. split; [|split].
    + intros k Hk. unfold Panel.setKey. apply String.eqb_neq in Hk.
      now rewrite Hk.
    + reflexivity.
    + left. split; [exact E|]. unfold Panel.setKey.
      now rewrite String.eqb_refl.
  - assert (Hn : ~ In n (map Panel.name old))
      by (intros Hin; apply named_In in Hin; congruence).
    split; [reflexivity|]. split; [|split].
    + intros k Hk. unfold Panel.setKey. apply String.eqb_neq in Hk.
      now rewrite Hk.
    + reflexivity.
    + right. split; [exact Hn|]. unfold Panel.setKey.
      now rewrite String.eqb_refl.
Qed.
Lemma Sound_more (roster : list Device)
      (scenes : string -> option (list Proxy.SceneOption))
      (names : list string) (n : string) (st : Panel.Grouped) :
  Sound roster scenes names st -> Sound roster scenes (names ++ [n]) st.
Proof.
  intros [Hbutton Honce Hkeys]. constructor; [|exact Honce|exact Hkeys].
  intros key l g Hl Hg. destruct (Hbutton key l g Hl Hg) as (Hin & Hrest).
  split; [apply in_or_app; now left | exact Hrest].
Qed.

(** One turn of the inner loop keeps the buttons sound and leaves the
    device with its button. *)
Lemma place_step (roster : list Device)
      (scenes : string -> option (list Proxy.SceneOption))
      (names : list string) (n : string) (st : Panel.Grouped) (d : Device) :
  everyDeviceOffers roster scenes n = false ->
  In d (withScene roster scenes n) ->
  Sound roster scenes (names ++ [n]) st ->
  Sound roster scenes (names ++ [n])
        (Panel.place n (withScene roster scenes n) st d) /\
  (forall n' d', placed st n' d' ->
                 placed (Panel.place n (withScene roster scenes n) st d) n' d') /\
  placed (Panel.place n (withScene roster scenes n) st d) n d /\
  Panel.commonScenes (Panel.place n (withScene roster scenes n) st d)
  = Panel.commonScenes st.
Proof.
  intros Hnot Hd [Hbutton Honce [Hkeys Hlisted]].
  destruct (place_effect n (withScene roster scenes n) st d)
    as (Hcommon & Hother & Hcats & Hown).
  set (st' := Panel.place n (withScene roster scenes n) st d) in *.
  set (key := categoryOf d) in *.
  set (old := Panel.orEmpty (Panel.deviceSpecificScenes st key)) in *.
  assert (Hold : forall g, In g old ->
                   Panel.deviceSpecificScenes st key = Some old).
  { intros g Hg. subst old.
    destruct (Panel.deviceSpecificScenes st key); [reflexivity | destruct Hg]. }
  assert (Hgrow : forall k l,
             Panel.deviceSpecificScenes st k = Some l ->
             exists l', Panel.deviceSpecificScenes st' k = Some l' /\
                        incl l l').
  { intros k l Hl. destruct (String.eqb_spec k key) as [->|Hne].
    - assert (l = old) as -> by (subst old; now rewrite Hl).
      destruct Hown as [[_ Hsame]|[_ Hnew]].
      + exists old. split; [exact Hsame | apply incl_refl].
      + eexists. split; [exact Hnew | apply incl_appl, incl_refl].
    - exists l. split; [now rewrite Hother | apply incl_refl]. }
  split; [|split; [|split; [|exact Hcommon]]].
  - constructor.
    + intros k l g Hl Hg. destruct (String.eqb_spec k key) as [->|Hne].
      * destruct Hown as [[_ Hsame]|[_ Hnew]].
        -- rewrite Hsame in Hl. injection Hl as <-.
           apply (Hbutton key old g (Hold g Hg) Hg).
        -- rewrite Hnew in Hl. injection Hl as <-.
           apply in_app_or in Hg. destruct Hg as [Hg|[<-|[]]].
           ++ apply (Hbutton key old g (Hold g Hg) Hg).
           ++ cbn [Panel.name]. split; [apply in_or_app; right; now left|].
              split; [exact Hnot|]. split; [reflexivity|].
              exists d. split; [exact Hd | reflexivity].
      * rewrite Hother in Hl by exact Hne. apply (Hbutton k l g Hl Hg).
    + intros k l Hl. destruct (String.eqb_spec k key) as [->|Hne].
      * destruct Hown as [[Hin Hsame]|[Hfresh Hnew]].
        -- rewrite Hsame in Hl. injection Hl as <-.
           apply in_map_iff in Hin. destruct Hin as (g & _ & Hg).
           apply (Honce key old (Hold g Hg)).
        -- rewrite Hnew in Hl. injection Hl as <-. split.
           ++ rewrite map_app. cbn [map Panel.name].
              apply NoDup_app.
              ** destruct old as [|g0 rest] eqn:Eold; [constructor|].
                 apply (Honce key (g0 :: rest)).
                 apply (Hold g0). now left.
              ** constructor; [intros [] | constructor].
              ** intros x Hx [<-|[]]. contradiction.
           ++ intros Habs. apply app_eq_nil in Habs.
              destruct Habs as [_ Habs]. discriminate Habs.
      * rewrite Hother in Hl by exact Hne. apply (Honce k l Hl).
    + rewrite Hcats. split.
      * destruct (Panel.deviceSpecificScenes st key) eqn:Ekey;
          [exact Hkeys|].
        apply NoDup_app; [exact Hkeys | constructor; [intros []|constructor]|].
        intros x Hx [<-|[]]. apply Hlisted in Hx. congruence.
      * intros k. destruct (String.eqb_spec k key) as [->|Hne].
        -- split.
           ++ intros _. destruct Hown as [[_ H]|[_ H]]; rewrite H; discriminate.
           ++ intros _. destruct (Panel.deviceSpecificScenes st key) eqn:Ekey.
              ** apply Hlisted. congruence.
              ** apply in_or_app. right. now left.
        -- rewrite Hother by exact Hne. rewrite <- Hlisted.
           destruct (Panel.deviceSpecificScenes st key).
           ++ reflexivity.
           ++ rewrite in_app_iff. cbn. intuition congruence.
  - intros n' d' (l & Hl & Hin).
    destruct (Hgrow _ l Hl) as (l' & Hl' & Hincl).
    exists l'. split; [exact Hl'|].
    apply in_map_iff in Hin. destruct Hin as (g & Hname & Hg).
    apply in_map_iff. exists g. split; [exact Hname | now apply Hincl].
  - unfold placed. fold key.
    destruct Hown as [[Hin Hsame]|[_ Hnew]].
    + exists old. split; [exact Hsame | exact Hin].
    + eexists. split; [exact Hnew|].
      rewrite map_app. apply in_or_app. right. now left.
Qed.

(** The inner loop over the devices that list a scene which not every
    device lists. *)
Lemma place_loop (roster : list Device)
      (scenes : string -> option (list Proxy.SceneOption))
      (names : list string) (n : string) (st : Panel.Grouped) :
  everyDeviceOffers roster scenes n = false ->
  Sound roster scenes names st ->
  let st' := fold_left (Panel.place n (withScene roster scenes n))
                       (withScene roster scenes n) st in
  Sound roster scenes (names ++ [n]) st' /\
  (forall n' d', placed st n' d' -> placed st' n' d') /\
  (forall d, In d (withScene roster scenes n) -> placed st' n d) /\
  Panel.commonScenes st' = Panel.commonScenes st.
Proof.
  intros Hnot Hsound.
  apply (fold_left_prefix_invariant
           (Panel.place n (withScene roster scenes n))
           (withScene roster scenes n)
           (fun done s =>
              Sound roster scenes (names ++ [n]) s /\
              (forall n' d', placed st n' d' -> placed s n' d') /\
              (forall d, In d done -> placed s n d) /\
              Panel.commonScenes s = Panel.commonScenes st)).
  - split; [now apply Sound_more|]. split; [auto|]. split; [intros d []|].
    reflexivity.
  - intros done x rest s Hl (Hs & Hmono & Hdone & Hcommon).
    assert (Hx : In x (withScene roster scenes n))
      by (rewrite Hl; apply in_or_app; right; now left).
    destruct (place_step roster scenes names n s x Hnot Hx Hs)
      as (Hs' & Hmono' & Hplaced & Hcommon').
    split; [exact Hs'|]. split; [|split].
    + intros n' d' Hp. apply Hmono'. now apply Hmono.
    + intros d Hd. apply in_app_or in Hd. destruct Hd as [Hd|[<-|[]]].
      * apply Hmono'. now apply Hdone.
      * exact Hplaced.
    + now rewrite Hcommon'.
Qed.
Lemma classify_by_offers (roster : list Device)
      (scenes : string -> option (list Proxy.SceneOption))
      (st : Panel.Grouped) (n : string) :
  Panel.classify roster
    (Panel.deviceSceneSets
       (fold_left (Panel.gather scenes) roster
                  (Panel.mkGathered (fun _ => None) []))) st n
  = if everyDeviceOffers roster scenes n then
      Panel.mkGrouped
        (Panel.commonScenes st ++ [Panel.mkSceneGroup n roster])%list
        (Panel.categories st) (Panel.deviceSpecificScenes st)
    else
      fold_left (Panel.place n (withScene roster scenes n))
                (withScene roster scenes n) st.
Proof.
  unfold Panel.classify, everyDeviceOffers.
  assert (Hfilter :
            filter (fun d => Panel.has
                      (Panel.deviceSceneSets
                         (fold_left (Panel.gather scenes) roster
                                    (Panel.mkGathered (fun _ => None) [])))
                      d n) roster
            = withScene roster scenes n).
  { unfold withScene. apply filter_ext_in. intros d Hd.
    now apply has_offers. }
  now rewrite Hfilter.
Qed.

(** The loop over the scene names: the buttons stay sound, every device
    that lists a classified scene not listed by all has its button, and the
    common buttons are those of the scenes every device lists. *)
Lemma classify_loop (roster : list Device)
      (scenes : string -> option (list Proxy.SceneOption))
      (names : list string) :
  let sets := Panel.deviceSceneSets
                (fold_left (Panel.gather scenes) roster
                           (Panel.mkGathered (fun _ => None) [])) in
  let st := fold_left (Panel.classify roster sets) names
                      (Panel.mkGrouped [] [] (fun _ => None)) in
  Sound roster scenes names st /\
  Complete roster scenes names st /\
  Panel.commonScenes st
  = map (fun n => Panel.mkSceneGroup n roster)
        (filter (everyDeviceOffers roster scenes) names).
Proof.
  intros sets st. subst st.
  apply (fold_left_prefix_invariant (Panel.classify roster sets) names
           (fun done s =>
              Sound roster scenes done s /\
              Complete roster scenes done s /\
              Panel.commonScenes s
              = map (fun n => Panel.mkSceneGroup n roster)
                    (filter (everyDeviceOffers roster scenes) done))).
  - split; [|split; [intros n []|reflexivity]].
    constructor; cbn.
    + intros key l g Hl. discriminate Hl.
    + intros key l Hl. discriminate Hl.
    + split; [constructor|]. intros key. split; [intros []|]. intros H.
      now contradiction H.
  - intros done x rest s _ (Hsound & Hcomplete & Hcommon).
    subst sets. rewrite classify_by_offers.
    destruct (everyDeviceOffers roster scenes x) eqn:Hall.
    + split; [|split].
      * destruct (Sound_more roster scenes done x s Hsound)
          as [Hbutton Honce Hkeys].
        constructor; assumption.
      * intros n Hn Hnot d Hd. apply in_app_or in Hn.
        destruct Hn as [Hn|[<-|[]]]; [|congruence].
        destruct (Hcomplete n Hn Hnot d Hd) as (l & Hl & Hin).
        exists l. split; assumption.
      * cbn [Panel.commonScenes]. rewrite Hcommon, filter_app, map_app.
        cbn [filter]. rewrite Hall. reflexivity.
    + destruct (place_loop roster scenes done x s Hall Hsound)
        as (Hsound' & Hmono & Hplaced & Hcommon').
      split; [exact Hsound'|]. split.
      * intros n Hn Hnot d Hd. apply in_app_or in Hn.
        destruct Hn as [Hn|[<-|[]]].
        -- apply Hmono. now apply Hcomplete.
        -- now apply Hplaced.
      * rewrite Hcommon', Hcommon, filter_app. cbn [filter].
        rewrite Hall. now rewrite app_nil_r.
Qed.

Lemma insertByName_permutation (localeCompare : string -> string -> Z)
      (x : Panel.SceneGroup) (l : list Panel.SceneGroup) :
  Permutation (Panel.insertByName localeCompare x l) (x :: l).
Proof.
  induction l as [|y rest IH]; cbn [Panel.insertByName]; [reflexivity|].
  destruct (localeCompare (Panel.name x) (Panel.name y) <? 0); [reflexivity|].
  rewrite IH. apply perm_swap.
Qed.

Lemma sortByName_permutation (localeCompare : string -> string -> Z)
      (l : list Panel.SceneGroup) :
  Permutation (Panel.sortByName localeCompare l) l.
Proof.
  unfold Panel.sortByName.
  assert (Hgen : forall acc,
             Permutation
               (fold_left (fun sorted x =>
                             Panel.insertByName localeCompare x sorted) l acc)
               (acc ++ l)).
  { induction l as [|x rest IH]; intros acc; cbn [fold_left].
    - now rewrite app_nil_r.
    - rewrite IH, insertByName_permutation.
      change (x :: acc)%list with ([x] ++ acc)%list.
      rewrite (Permutation_app_comm [x] acc), <- app_assoc. reflexivity. }
  apply (Hgen []).
Qed.

Lemma sceneFor_offers (scenes : string -> option (list Proxy.SceneOption))
      (d : Device) (n : string) :
  Panel.sceneFor scenes d n <> None <-> Panel.offers scenes d n = true.
Proof.
  unfold Panel.sceneFor, Panel.offers. rewrite existsb_exists. split.
  - intros Hfound.
    destruct (find _ _) as [s|] eqn:E; [|now contradiction Hfound].
    apply find_some in E. destruct E as [Hs Heq]. apply String.eqb_eq in Heq.
    exists (Proxy.name s). split; [now apply in_map|].
    subst n. apply String.eqb_refl.
  - intros (x & Hx & Heq) Hnone. apply String.eqb_eq in Heq. subst x.
    apply in_map_iff in Hx. destruct Hx as (s & Hname & Hs).
    pose proof (find_none _ _ Hnone s Hs) as Hno. cbn in Hno.
    rewrite Hname, String.eqb_refl in Hno. discriminate Hno.
Qed.

Lemma some_device_lacks (roster : list Device)
      (scenes : string -> option (list Proxy.SceneOption)) (n : string) :
  everyDeviceOffers roster scenes n = false ->
  exists d, In d roster /\ Panel.offers scenes d n = false.
Proof.
  intros Hnot.
  assert (Hex : forall l,
             (forall d, In d l -> Panel.offers scenes d n = true) \/
             exists d, In d l /\ Panel.offers scenes d n = false).
  { induction l as [|a rest [IH|(d & Hd & Hno)]].
    - left. intros d [].
    - destruct (Panel.offers scenes a n) eqn:E.
      + left. intros d [<-|Hd]; [exact E | now apply IH].
      + right. exists a. split; [now left | exact E].
    - right. exists d. split; [now right | exact Hno]. }
  destruct (Hex roster) as [Hall|Hsome]; [|exact Hsome].
  apply everyDeviceOffers_all in Hall. congruence.
Qed.

(** What the two loops leave, before the common buttons are sorted. *)
Lemma grouped_state (localeCompare : string -> string -> Z)
      (roster : list Device)
      (scenes : string -> option (list Proxy.SceneOption)) :
  exists names st,
    (forall n, In n names
               <-> exists d, In d roster /\ In n (namesAt scenes (device d))) /\
    NoDup names /\
    Sound roster scenes names st /\
    Complete roster scenes names st /\
    Panel.commonScenes st
    = map (fun n => Panel.mkSceneGroup n roster)
          (filter (everyDeviceOffers roster scenes) names) /\
    Panel.groupScenesByDevice localeCompare roster scenes
    = Panel.mkGrouped (Panel.sortByName localeCompare (Panel.commonScenes st))
                      (Panel.categories st) (Panel.deviceSpecificScenes st).
Proof.
  destruct (gather_loop scenes roster (Panel.mkGathered (fun _ => None) []))
    as (_ & Hnames & Hnodup).
  destruct (classify_loop roster scenes
              (Panel.allSceneNames
                 (fold_left (Panel.gather scenes) roster
                            (Panel.mkGathered (fun _ => None) []))))
    as (Hsound & Hcomplete & Hcommon).
  do 2 eexists. split; [|split; [|split; [exact Hsound|split;
    [exact Hcomplete|split; [exact Hcommon|reflexivity]]]]].
  - intros n. rewrite Hnames. cbn [Panel.allSceneNames In]. tauto.
  - apply Hnodup. constructor.
Qed.
(** X12. The buttons under ALL DEVICES are exactly the scenes that every
    device of the roster lists: a button is there if and only if it targets
    the whole roster, the roster is not empty, and the lookup a click makes
    finds the scene for every device.  No scene has two such buttons. *)
Theorem X12_common_buttons_are_the_scenes_all_devices_list
    (localeCompare : string -> string -> Z) (roster : list Device)
    (scenes : string -> option (list Proxy.SceneOption)) :
  let grouped := Panel.groupScenesByDevice localeCompare roster scenes in
  (forall g, In g (Panel.commonScenes grouped)
             <-> Panel.devices g = roster /\ roster <> [] /\
                 forall d, In d roster ->
                           Panel.sceneFor scenes d (Panel.name g) <> None) /\
  NoDup (map Panel.name (Panel.commonScenes grouped)).
Proof.
  intros grouped. subst grouped.
  destruct (grouped_state localeCompare roster scenes)
    as (names & st & Hnames & Hnodup & _ & _ & Hcommon & ->).
  cbn [Panel.commonScenes].
  pose proof (sortByName_permutation localeCompare (Panel.commonScenes st))
    as Hperm.
  split.
  - intros g. rewrite (Permutation_in' (eq_refl g) Hperm : _ <-> _).
    rewrite Hcommon, in_map_iff. split.
    + intros (n & <- & Hn). apply filter_In in Hn. destruct Hn as [Hn Hall].
      cbn [Panel.devices Panel.name]. split; [reflexivity|]. split.
      * apply Hnames in Hn. destruct Hn as (d & Hd & _).
        intros ->. destruct Hd.
      * intros d Hd. apply sceneFor_offers.
        now apply (proj1 (everyDeviceOffers_all roster scenes n) Hall).
    + intros (Hdev & Hne & Hall). exists (Panel.name g).
      split; [destruct g; cbn in *; now subst|].
      apply filter_In. split.
      * apply Hnames. destruct roster as [|d rest]; [now contradiction Hne|].
        exists d. split; [now left|]. apply offers_In, sceneFor_offers.
        apply Hall. now left.
      * apply everyDeviceOffers_all. intros d Hd.
        apply sceneFor_offers. now apply Hall.
  - apply (Permutation_NoDup (l := map Panel.name (Panel.commonScenes st))).
    + apply Permutation_map. now symmetry.
    + rewrite Hcommon, map_map. cbn [Panel.name]. rewrite map_id.
      now apply NoDup_filter.
Qed.

Lemma getDeviceCategory_range (deviceName : string) :
  In (Panel.getDeviceCategory deviceName)
     ["TABLE LAMP"; "CEILING PROJECTOR"; "FLOOR LAMPS"; "OTHER"].
Proof.
  unfold Panel.getDeviceCategory.
  destruct (Panel.includes _ "table"); [now left|].
  destruct (Panel.includes _ "uplighter" || Panel.includes _ "projector");
    [right; now left|].
  destruct (Panel.includes _ "floor"); [right; right; now left|].
  right; right; right; now left.
Qed.

(** X13. The buttons under a category are sound.  Such a button is for a
    scene that some device of the roster does not list; its devices are
    exactly the devices of that category that list the scene, in roster
    order, and there is at least one; a click finds the scene for each of
    them.  A category has at most one button per scene, every category shown
    has a button, each category is shown once and is one of the four the
    panel knows. *)
Theorem X13_category_buttons_target_the_devices_that_list_the_scene
    (localeCompare : string -> string -> Z) (roster : list Device)
    (scenes : string -> option (list Proxy.SceneOption)) :
  let grouped := Panel.groupScenesByDevice localeCompare roster scenes in
  (forall key l,
      Panel.deviceSpecificScenes grouped key = Some l ->
      l <> [] /\ NoDup (map Panel.name l) /\
      forall g, In g l ->
        Panel.devices g
        = filter (fun d => (categoryOf d =? key)%string)
                 (filter (fun d => Panel.offers scenes d (Panel.name g)) roster)
        /\ Panel.devices g <> [] /\
        (exists d, In d roster /\ Panel.sceneFor scenes d (Panel.name g) = None)
        /\ forall d, In d (Panel.devices g) ->
             In d roster /\ categoryOf d = key /\
             Panel.sceneFor scenes d (Panel.name g) <> None) /\
  NoDup (Panel.categories grouped) /\
  (forall key, In key (Panel.categories grouped)
               <-> Panel.deviceSpecificScenes grouped key <> None) /\
  (forall key, In key (Panel.categories grouped) ->
               In key ["TABLE LAMP"; "CEILING PROJECTOR"; "FLOOR LAMPS";
                       "OTHER"]).
Proof.
  intros grouped. subst grouped.
  destruct (grouped_state localeCompare roster scenes)
    as (names & st & _ & _ & [Hbutton Honce Hkeys] & _ & _ & ->).
  cbn [Panel.deviceSpecificScenes Panel.categories].
  split; [|split; [exact (proj1 Hkeys)|split; [exact (proj2 Hkeys)|]]].
  2:{ intros key Hkey. apply (proj2 Hkeys) in Hkey.
      destruct (Panel.deviceSpecificScenes st key) as [l|] eqn:Hl;
        [|now contradiction Hkey].
      destruct (Honce key l Hl) as [_ Hne].
      destruct l as [|g rest]; [now contradiction Hne|].
      destruct (Hbutton key _ g Hl (or_introl eq_refl))
        as (_ & _ & _ & d & _ & <-).
      apply getDeviceCategory_range. }
  intros key l Hl. destruct (Honce key l Hl) as [Hnd Hne].
  split; [exact Hne|]. split; [exact Hnd|].
  intros g Hg.
  destruct (Hbutton key l g Hl Hg) as (_ & Hnot & Hshape & d0 & Hd0 & Hcat0).
  assert (Hdevices : Panel.devices g
                     = filter (fun d => (categoryOf d =? key)%string)
                              (withScene roster scenes (Panel.name g)))
    by (rewrite Hshape at 1; reflexivity).
  split; [exact Hdevices|]. split; [|split].
  - rewrite Hdevices. intros Hempty.
    assert (Hin : In d0 (filter (fun d => (categoryOf d =? key)%string)
                                (withScene roster scenes (Panel.name g)))).
    { apply filter_In. split; [exact Hd0|]. now apply String.eqb_eq. }
    rewrite Hempty in Hin. destruct Hin.
  - destruct (some_device_lacks roster scenes (Panel.name g) Hnot)
      as (d & Hd & Hno).
    exists d. split; [exact Hd|].
    destruct (Panel.sceneFor scenes d (Panel.name g)) eqn:E; [|reflexivity].
    assert (Hyes : Panel.offers scenes d (Panel.name g) = true)
      by (apply sceneFor_offers; rewrite E; discriminate).
    congruence.
  - intros d Hd. rewrite Hdevices in Hd. apply filter_In in Hd.
    destruct Hd as [Hd Hcat]. apply filter_In in Hd. destruct Hd as [Hd Hoff].
    split; [exact Hd|]. split; [now apply String.eqb_eq|].
    now apply sceneFor_offers.
Qed.

(** X14. Every scene a device lists has a button that reaches the device,
    and in one place only.  For a device of the roster and a scene option
    listed for it, the scene is either under ALL DEVICES or under the
    category of the device, with the device among the targets of the button;
    no scene is both under ALL DEVICES and under a category. *)
Theorem X14_every_listed_scene_has_one_button_for_the_device
    (localeCompare : string -> string -> Z) (roster : list Device)
    (scenes : string -> option (list Proxy.SceneOption)) :
  let grouped := Panel.groupScenesByDevice localeCompare roster scenes in
  (forall d s,
      In d roster -> In s (Panel.orEmpty (scenes (device d))) ->
      exists g,
        Panel.name g = Proxy.name s /\ In d (Panel.devices g) /\
        (In g (Panel.commonScenes grouped) \/
         exists l, Panel.deviceSpecificScenes grouped (categoryOf d) = Some l
                   /\ In g l)) /\
  (forall key l g g',
      Panel.deviceSpecificScenes grouped key = Some l -> In g l ->
      In g' (Panel.commonScenes grouped) ->
      Panel.name g <> Panel.name g').
Proof.
  intros grouped. subst grouped.
  destruct (grouped_state localeCompare roster scenes)
    as (names & st & Hnames & _ & [Hbutton Honce Hkeys] & Hcomplete
        & Hcommon & ->).
  cbn [Panel.commonScenes Panel.deviceSpecificScenes].
  pose proof (sortByName_permutation localeCompare (Panel.commonScenes st))
    as Hperm.
  split.
  - intros d s Hd Hs.
    assert (Hlisted : In (Proxy.name s) (namesAt scenes (device d)))
      by (unfold namesAt; now apply in_map).
    assert (Hn : In (Proxy.name s) names)
      by (apply Hnames; now exists d).
    destruct (everyDeviceOffers roster scenes (Proxy.name s)) eqn:Hall.
    + exists (Panel.mkSceneGroup (Proxy.name s) roster).
      split; [reflexivity|]. split; [exact Hd|]. left.
      apply (Permutation_in _ (Permutation_sym Hperm)).
      rewrite Hcommon. apply in_map_iff. exists (Proxy.name s).
      split; [reflexivity|]. apply filter_In. now split.
    + assert (Hws : In d (withScene roster scenes (Proxy.name s))).
      { apply filter_In. split; [exact Hd | now apply offers_In]. }
      destruct (Hcomplete (Proxy.name s) Hn Hall d Hws) as (l & Hl & Hin).
      apply in_map_iff in Hin. destruct Hin as (g & Hname & Hg).
      exists g. split; [exact Hname|]. split.
      * destruct (Hbutton _ l g Hl Hg) as (_ & _ & Hshape & _).
        rewrite Hshape. cbn [Panel.devices]. apply filter_In.
        split; [now rewrite Hname | apply String.eqb_refl].
      * right. exists l. now split.
  - intros key l g g' Hl Hg Hg' Heq.
    destruct (Hbutton key l g Hl Hg) as (_ & Hnot & _).
    apply (Permutation_in _ Hperm) in Hg'. rewrite Hcommon in Hg'.
    apply in_map_iff in Hg'. destruct Hg' as (n & <- & Hn).
    apply filter_In in Hn. destruct Hn as [_ Hall].
    cbn [Panel.name] in Heq. congruence.
Qed.


(** *** The category of a device *)

Lemma prefix_app (w rest : string) : String.prefix w (w ++ rest) = true.
Proof.
  induction w as [|c w IH]; cbn.
  - destruct rest; reflexivity.
  - destruct (Ascii.ascii_dec c c) as [_|Hne]; [exact IH | now contradiction Hne].
Qed.

Lemma includes_inside (before w rest : string) :
  Panel.includes (before ++ w ++ rest) w = true.
Proof.
  induction before as [|c before IH].
  - cbn [String.append]. destruct (w ++ rest)%string eqn:E.
    + cbn [Panel.includes]. rewrite <- E, prefix_app. reflexivity.
    + cbn [Panel.includes]. rewrite <- E, prefix_app. reflexivity.
  - cbn [String.append Panel.includes]. rewrite IH. apply orb_true_r.
Qed.

Lemma toLowerCase_app (a b : string) :
  Panel.toLowerCase (a ++ b)
  = (Panel.toLowerCase a ++ Panel.toLowerCase b)%string.
Proof.
  induction a as [|c a IH]; cbn; [reflexivity | now rewrite IH].
Qed.

Lemma lowerChar_twice (c : Ascii.ascii) :
  Panel.lowerChar (Panel.lowerChar c) = Panel.lowerChar c.
Proof.
  destruct c as [[] [] [] [] [] [] [] []]; reflexivity.
Qed.

Lemma toLowerCase_twice (s : string) :
  Panel.toLowerCase (Panel.toLowerCase s) = Panel.toLowerCase s.
Proof.
  induction s as [|c s IH]; cbn; [reflexivity|].
  now rewrite lowerChar_twice, IH.
Qed.

(** X15. The category of a device is read off its name without regard to
    letter case, and the word table wins.  A name that contains table in any
    mix of upper and lower case, anywhere, is a TABLE LAMP whatever else it
    contains; without it, a name that contains uplighter or projector is a
    CEILING PROJECTOR.  The category of a name is that of its lower-case
    form and always one of the four. *)
Theorem X15_category_ignores_case_and_table_wins
    (before w rest : string) :
  (Panel.toLowerCase w = "table" ->
   Panel.getDeviceCategory (before ++ w ++ rest) = "TABLE LAMP") /\
  ((Panel.toLowerCase w = "uplighter" \/ Panel.toLowerCase w = "projector") ->
   Panel.includes (Panel.toLowerCase (before ++ w ++ rest)) "table" = false ->
   Panel.getDeviceCategory (before ++ w ++ rest) = "CEILING PROJECTOR") /\
  Panel.getDeviceCategory (Panel.toLowerCase w) = Panel.getDeviceCategory w /\
  In (Panel.getDeviceCategory w)
     ["TABLE LAMP"; "CEILING PROJECTOR"; "FLOOR LAMPS"; "OTHER"].
Proof.
  split; [|split; [|split]].
  - intros Hw. unfold Panel.getDeviceCategory.
    rewrite !toLowerCase_app, Hw, includes_inside. reflexivity.
  - intros Hw Hnot. unfold Panel.getDeviceCategory. rewrite Hnot.
    rewrite !toLowerCase_app.
    destruct Hw as [-> | ->]; rewrite includes_inside;
      [reflexivity | now rewrite orb_true_r].
  - unfold Panel.getDeviceCategory. now rewrite toLowerCase_twice.
  - apply getDeviceCategory_range.
Qed.

(** *** The further properties at the example worlds *)

(** A tick at 23:30 UTC and one at 01:30 UTC of the next day ask for the
    sunset of the same date. *)
Lemma X1_witness_same_date_across_midnight :
  hourOf lateEvening = 23 /\ hourOf afterMidnight = 1 /\
  utcDay afterMidnight = utcDay lateEvening + 1 /\
  denverDay afterMidnight = denverDay lateEvening.
Proof.
  split; [reflexivity|]. split; [reflexivity|]. split; [reflexivity|].
  destruct (X1_one_evening_one_date exampleWorld exampleEnv (idle lateEvening))
    as (_ & _ & Hevening & _).
  apply (Hevening afterMidnight).
  - right. reflexivity.
  - right. left. reflexivity.
  - reflexivity.
Defined.

(** Two minutes before sunset the evaluation reaches the vendor, and the
    difference is in the window. *)
Lemma X2_witness_dispatch_inside_the_window :
  reachedVendor twoMinutesBefore
    (snd (checkSunsetAndTurnOn exampleWorld exampleEnv twoMinutesBefore)) /\
  exists sunsetTime,
    (-5 <= diffMinutesOf (solarArrival exampleWorld twoMinutesBefore) sunsetTime
     /\ diffMinutesOf (solarArrival exampleWorld twoMinutesBefore) sunsetTime
        <= 20)%Q.
Proof.
  assert (Hreached :
            reachedVendor twoMinutesBefore
              (snd (checkSunsetAndTurnOn exampleWorld exampleEnv
                      twoMinutesBefore))).
  { exists (solarArrival exampleWorld twoMinutesBefore), (UserDevices "key").
    split; [|reflexivity]. vm_compute. right. left. reflexivity. }
  split; [exact Hreached|].
  destruct (X2_no_vendor_request_outside_the_window exampleWorld exampleEnv
              twoMinutesBefore _ _ (surjective_pairing _)) as (Hin & _).
  destruct (Hin Hreached) as (sunsetData & sunsetTime & _ & _ & _ & Hwindow).
  exists sunsetTime. exact Hwindow.
Defined.

(** With the solar service unreachable the evaluation throws after its
    solar query. *)
Lemma X3_witness_unreachable_solar_service :
  exists err m',
    checkSunsetAndTurnOn sunlessWorld exampleEnv twoMinutesBefore
    = (Throws err, m') /\
    issuedSince twoMinutesBefore m'
    = [(clock twoMinutesBefore, solarRequest (clock twoMinutesBefore))] /\
    scheduled sunlessWorld exampleEnv twoMinutesBefore = (Throws err, m').
Proof.
  destruct (X3_unreadable_sunset_throws_before_dispatch notANumber sunlessWorld
              exampleEnv twoMinutesBefore) as (err & m' & Hrun & Hwire & _ & _
                                               & Htick).
  - left. exists "fetch failed". reflexivity.
  - exists err, m'. split; [exact Hrun|]. split; [exact Hwire|].
    apply Htick. unfold eveningHour. right. right. right. left. reflexivity.
Defined.

(** Whole numbers of any size: -1 decodes to white, as 0xFFFFFF does. *)
Lemma X8_witness_minus_one_is_white :
  decodeColor notANumber (VNum (-1)) = Some (mkRgb 255 255 255) /\
  decodeColor notANumber (VNum (-1)) = decodeColor notANumber (VNum 0xFFFFFF).
Proof.
  destruct (X8_color_channels_are_the_low_bytes notANumber (VNum (-1)))
    as (_ & _ & Hnum).
  destruct (Hnum (-1)) as [Hdec Hlow]. split; [exact Hdec | exact Hlow].
Defined.

(** The default colour of the picker. *)
Lemma X9_witness_default_picker_color :
  0 <= 120 <= 255 /\ 0 <= 200 <= 255 /\ 0 <= 180 <= 255 /\
  decodeColor notANumber (VNum (packColor (mkRgb 120 200 180)))
  = Some (mkRgb 120 200 180).
Proof.
  split; [lia|]. split; [lia|]. split; [lia|].
  apply (X9_picker_color_decodes_to_itself notANumber (mkRgb 120 200 180));
    cbn; lia.
Defined.

(** Ticks a quarter of an hour apart around the example sunset, which falls
    at 02:00 UTC, with solar replies after 120 ms: the tick two minutes
    before the sunset and the next one both switch the lights on, and ticks
    on the quarter hours have one that does. *)
Lemma X10_witness_quarter_hour_ticks :
  0 < tickPeriod /\
  tickPeriod + 120 <= 1500000 /\
  switchesOn exampleWorld exampleEnv (idle (exampleSunset - 120000)) /\
  switchesOn exampleWorld exampleEnv
             (idle (exampleSunset - 120000 + tickPeriod)) /\
  exists k,
    exampleSunset - 300000 <= 0 + tickPeriod * k
                           <= exampleSunset + 1200000 - 120 /\
    switchesOn exampleWorld exampleEnv (idle (0 + tickPeriod * k)).
Proof.
  assert (Hperiod : 0 < tickPeriod) by (unfold tickPeriod; lia).
  assert (Hcadence : tickPeriod + 120 <= 1500000) by (unfold tickPeriod; lia).
  assert (Hevening : forall t,
             exampleSunset - 300000 <= t <= exampleSunset + 1200000 - 120 ->
             eveningHour (hourOf t) /\
             Z.of_N (latency (sunriseSunset exampleWorld (denverDay t)))
             <= 120 /\
             exists sunsetData,
               body (sunriseSunset exampleWorld (denverDay t))
               = Returns sunsetData /\
               status sunsetData = VStr "OK" /\
               results sunsetData
               = Some (mkSunsetResults (Some exampleSunset))).
  { intros t Ht. split; [|split].
    - unfold eveningHour, hourOf. unfold exampleSunset in Ht.
      assert (Hq : t / 3600000 = 477025 \/ t / 3600000 = 477026)
        by (Z.div_mod_to_equations; lia).
      destruct Hq as [-> | ->]; vm_compute; auto.
    - cbn. lia.
    - eexists. cbn. repeat split. }
  destruct (X10_some_tick_in_the_window_switches_the_lights_on
              exampleWorld exampleEnv exampleSunset 0 tickPeriod 120
              Hperiod Hcadence Hevening) as (Hon & (k & Hk & Hsome) & _).
  split; [exact Hperiod|]. split; [exact Hcadence|]. split; [|split].
  - apply Hon. unfold idle, exampleSunset. cbn [clock]. lia.
  - apply Hon. unfold idle, exampleSunset, tickPeriod. cbn [clock]. lia.
  - exists k. split; [exact Hk|]. now apply Hsome.
Defined.

(** The porch light lists two scenes and the query of the strip fails: both
    queries are sent, the strip has no scenes, the porch light has its two. *)
Lemma X11_witness_one_scene_query_fails :
  exists table st,
    Proxy.apiDevices exampleCloud "key"
    = (Proxy.DevicesJson [porch; strip] table, st) /\
    Proxy.sent st
    = [ Proxy.ListDevices "key";
        Proxy.ListScenes "key" "scenes-AA:01" "H6008" "AA:01";
        Proxy.ListScenes "key" "scenes-BB:02" "H6159" "BB:02" ] /\
    table "AA:01" = Some (sceneOptions ["Sunset"; "Aurora"]) /\
    table "BB:02" = None.
Proof.
  destruct (X11_proxy_devices_route_isolates_scene_failures exampleCloud "key")
    as [Hroster _].
  destruct (Hroster (mkDevicesData (Some [porch; strip])) eq_refl)
    as (table & st & Hrun & Hsent & _ & _ & Hown & _).
  exists table, st. split; [exact Hrun|]. split; [exact Hsent|].
  assert (Hdistinct : NoDup (map device [porch; strip])).
  { repeat constructor; cbn; intuition discriminate. }
  split.
  - apply (Hown Hdistinct porch); [now left | discriminate].
  - apply (Hown Hdistinct strip); [right; now left | discriminate].
Defined.

(** Sunset, listed by both devices, is under ALL DEVICES. *)
Lemma X12_witness_sunset_is_common :
  In (Panel.mkSceneGroup "Sunset" [porch; strip])
     (Panel.commonScenes
        (Panel.groupScenesByDevice codeUnitCompare [porch; strip]
                                   exampleScenes)).
Proof.
  apply (X12_common_buttons_are_the_scenes_all_devices_list codeUnitCompare
           [porch; strip] exampleScenes).
  split; [reflexivity|]. split; [discriminate|].
  intros d [<-|[<-|[]]]; discriminate.
Defined.

(** Aurora, listed by the porch light only, is under its category with the
    porch light as the one target. *)
Lemma X13_witness_aurora_under_other :
  Panel.deviceSpecificScenes
    (Panel.groupScenesByDevice codeUnitCompare [porch; strip] exampleScenes)
    "OTHER"
  = Some [Panel.mkSceneGroup "Aurora" [porch]] /\
  forall d, In d [porch] ->
    Panel.sceneFor exampleScenes d "Aurora" <> None.
Proof.
  assert (Hother :
            Panel.deviceSpecificScenes
              (Panel.groupScenesByDevice codeUnitCompare [porch; strip]
                                         exampleScenes) "OTHER"
            = Some [Panel.mkSceneGroup "Aurora" [porch]]) by reflexivity.
  split; [exact Hother|].
  destruct (X13_category_buttons_target_the_devices_that_list_the_scene
              codeUnitCompare [porch; strip] exampleScenes) as (Hsound & _).
  destruct (Hsound "OTHER" _ Hother) as (_ & _ & Hbutton).
  destruct (Hbutton (Panel.mkSceneGroup "Aurora" [porch]) (or_introl eq_refl))
    as (_ & _ & _ & Htargets).
  intros d Hd. apply (Htargets d Hd).
Defined.

(** The Aurora scene of the porch light has a button that reaches it. *)
Lemma X14_witness_buttons_of_the_porch_light :
  In (Proxy.mkSceneOption "Aurora" (Proxy.SceneParams 1 2))
     (Panel.orEmpty (exampleScenes (device porch))) /\
  exists g, Panel.name g = "Aurora" /\ In porch (Panel.devices g).
Proof.
  assert (Hlisted : In (Proxy.mkSceneOption "Aurora" (Proxy.SceneParams 1 2))
                       (Panel.orEmpty (exampleScenes (device porch))))
    by (right; left; reflexivity).
  split; [exact Hlisted|].
  destruct (X14_every_listed_scene_has_one_button_for_the_device
              codeUnitCompare [porch; strip] exampleScenes) as (Hcover & _).
  destruct (Hcover porch _ (or_introl eq_refl) Hlisted)
    as (g & Hname & Hd & _).
  exists g. split; assumption.
Defined.

(** The status report of the example world returns although the porch
    query is rejected, and writes nothing. *)
Lemma X4_witness_report_with_a_failing_device :
  exists report m',
    getDeviceStatus notANumber exampleWorld exampleEnv (idle 0)
    = (Returns report, m') /\
    fetch notANumber exampleWorld exampleEnv "/status" (idle 0)
    = (Returns (StatusJson report), m') /\
    console m' = [].
Proof.
  destruct (X4_status_report_never_throws_and_only_reads notANumber
              exampleWorld exampleEnv (idle 0))
    as (report & m' & Hrun & Hfetch & Hconsole & _).
  exists report, m'. split; [exact Hrun|]. split; [exact Hfetch|exact Hconsole].
Defined.

(** [/on] answers Lights ON although the porch light rejected its request;
    with the directory unreachable it throws. *)
Lemma X5_witness_lights_on_with_a_failing_device :
  (exists m',
      fetch notANumber exampleWorld exampleEnv "/on" (idle 0)
      = (Returns (Text "Lights ON"), m')) /\
  (exists m',
      fetch notANumber offlineWorld exampleEnv "/on" (idle 0)
      = (Throws "fetch failed", m')) /\
  fetch notANumber exampleWorld exampleEnv "/" (idle 0)
  = (Returns (Text "Endpoints: /on, /off, /sunset, /status"), idle 0).
Proof.
  split; [|split].
  - destruct (X5_endpoints_answer_whatever_the_devices_do notANumber
                exampleWorld exampleEnv (idle 0)) as (Hanswer & _).
    destruct (Hanswer (mkDevicesData (Some [porch; strip])) eq_refl)
      as ((m' & Hon & _) & _).
    exists m'. exact Hon.
  - destruct (X5_endpoints_answer_whatever_the_devices_do notANumber
                offlineWorld exampleEnv (idle 0)) as (_ & Hfail & _).
    destruct (Hfail "fetch failed" eq_refl) as (m' & Hon & _).
    exists m'. exact Hon.
  - destruct (X5_endpoints_answer_whatever_the_devices_do notANumber
                exampleWorld exampleEnv (idle 0)) as (_ & _ & Hother).
    apply Hother; discriminate.
Defined.

(** The lights-off tick of the example world: the porch light fails, the
    tick returns and logs the lights-off line. *)
Lemma X6_witness_lights_off_tick_with_a_failing_device :
  exists m',
    scheduled exampleWorld exampleEnv (idle (8 * 3600000)) = (Returns tt, m') /\
    console m'
    = [ LogFound 2; LogControlFailed "Porch" "fetch failed";
        LogSwitched false "Strip"; LogLightsOff ].
Proof.
  destruct (X6_tick_fails_only_with_directory_or_sun exampleWorld exampleEnv
              (idle (8 * 3600000))) as (Hoff & _).
  destruct (Hoff eq_refl) as (Hreturns & _).
  exact (Hreturns (mkDevicesData (Some [porch; strip])) eq_refl).
Defined.

(** A brightness of 0 stays 0; without the capability it is null. *)
Lemma X7_witness_brightness_zero_and_missing :
  brightnessOf
    (decodeStatus notANumber strip
       [mkCapability (VStr GOVEE_RANGE) (VStr "brightness")
                     (Some (mkCapState (VNum 0)))]) = VNum 0 /\
  brightnessOf (decodeStatus notANumber strip [powerCapability (VNum 1)])
  = VNull.
Proof.
  split.
  - destruct (X7_brightness_is_the_value_or_null notANumber strip
                [mkCapability (VStr GOVEE_RANGE) (VStr "brightness")
                              (Some (mkCapState (VNum 0)))])
      as (_ & Hzero & _).
    apply (Hzero _ eq_refl). reflexivity.
  - destruct (X7_brightness_is_the_value_or_null notANumber strip
                [powerCapability (VNum 1)]) as (_ & _ & Hmissing & _).
    apply Hmissing. intros c [<-|[]]. left. discriminate.
Defined.

(** A floor lamp that stands on a table is a table lamp. *)
Lemma X15_witness_table_wins_over_floor :
  Panel.toLowerCase "TABLE" = "table" /\
  Panel.getDeviceCategory "Floor lamp by the TABLE, left" = "TABLE LAMP".
Proof.
  split; [reflexivity|].
  destruct (X15_category_ignores_case_and_table_wins
              "Floor lamp by the " "TABLE" ", left") as (Htable & _).
  apply Htable. reflexivity.
Defined.
